(** * mzML to ISA-Tab: the extractor, the legacy assay updater and the
      ISA-Tab generator, embedded from the Python sources

    - [src/mzml_2_isa/mzml.py]  (revised extractor)   -> [Module Extractor]
    - [src/isa_mzML.py]         (legacy script)       -> [Module Legacy]
    - [src/mzml2isa/isa.py]     (ISA-Tab generator)   -> [Module Generator]

    Python lists are Rocq lists with the index errors written out, ordered
    dictionaries are association lists in insertion order, and a raised
    exception is the [Raise] case of the result type [res]. *)

From Stdlib Require Import ZArith QArith Qround Ascii String Lia.
From stdpp Require Import base list strings pretty.

Local Open Scope Z_scope.
Local Open Scope nat_scope.

(* ===================================================================== *)
(** * Exceptions *)
(* ===================================================================== *)

Inductive exn : Type :=
  | KeyError      (* d[k] on an absent key *)
  | IndexError    (* l[i] out of range, pop from an empty list *)
  | ValueError    (* l.index(x) on an absent x, min() of an empty list,
                     float() of a malformed string, int() of a NaN *)
  | OverflowError (* int() of an infinite float *)
  | NameError     (* a local variable read before it was bound
                     (UnboundLocalError) *).

Inductive res (A : Type) : Type :=
  | Ok (a : A)
  | Raise (e : exn).
Arguments Ok {A} a.
Arguments Raise {A} e.

#[export] Instance res_ret : MRet res := @Ok.
#[export] Instance res_bind : MBind res := λ A B f m,
  match m with
  | Ok a => f a
  | Raise e => Raise e
  end.

#[export] Instance res_fmap : FMap res := λ A B f m,
  match m with
  | Ok a => Ok (f a)
  | Raise e => Raise e
  end.

(** [d[k]], [l.index(x)], ... : an [option] turned into the exception the
    source construct raises. *)
Definition or_raise {A} (e : exn) (o : option A) : res A :=
  match o with
  | Some a => Ok a
  | None => Raise e
  end.

(** A [for] loop whose body may raise: the first exception ends the loop. *)
Fixpoint for_each {A S : Type} (body : S → A → res S) (s : S) (l : list A) : res S :=
  match l with
  | [] => Ok s
  | x :: l' => s' ← body s x; for_each body s' l'
  end.

(* ===================================================================== *)
(** * Python built-ins used by the three sources *)
(* ===================================================================== *)

Module Py.

Definition TAB : ascii := "009"%char.
Definition NL : ascii := "010"%char.
Definition QUOTE : ascii := "034"%char.

(** [l.index(x)]: the position of the first occurrence; [None] stands for
    the ValueError. *)
Fixpoint index {A} `{EqDecision A} (x : A) (l : list A) : option nat :=
  match l with
  | [] => None
  | y :: l' => if decide (y = x) then Some 0 else S <$> index x l'
  end.

(** [l[i] = v] for an index [i >= 0]: IndexError when out of range. *)
Definition setitem {A} (i : nat) (v : A) (l : list A) : res (list A) :=
  if decide (i < length l) then Ok (<[i := v]> l) else Raise IndexError.

(** [l[i]] for an index [i >= 0]. *)
Definition getitem {A} (i : nat) (l : list A) : res A :=
  or_raise IndexError (l !! i).

(** A possibly negative index, counted from the end when negative. *)
Definition wrap_index (n : nat) (i : Z) : option nat :=
  if decide (0 ≤ i < Z.of_nat n)%Z then Some (Z.to_nat i)
  else if decide (- Z.of_nat n ≤ i < 0)%Z then Some (Z.to_nat (Z.of_nat n + i))
  else None.

(** [l[i] = v] for any integer [i]. *)
Definition setitem_z {A} (i : Z) (v : A) (l : list A) : res (list A) :=
  match wrap_index (length l) i with
  | Some k => Ok (<[k := v]> l)
  | None => Raise IndexError
  end.

(** [l[a:b]] and [l[a:]] and [l[:b]] for [a, b >= 0]. *)
Definition slice {A} (a b : nat) (l : list A) : list A := take (b - a) (drop a l).
Definition slice_from {A} (a : nat) (l : list A) : list A := drop a l.
Definition slice_to {A} (b : nat) (l : list A) : list A := take b l.

(** [range(a, b)] for [a >= 0]; empty when [b <= a]. *)
Definition range (a b : nat) : list nat := seq a (b - a).

(** [[i for i, val in enumerate(l) if val == x]] *)
Definition indices_of {A} `{EqDecision A} (x : A) (l : list A) : list nat :=
  (filter (λ p, p.2 = x) (imap (λ i v, (i, v)) l)).*1.

(** [[item for i, item in enumerate(l) if i not in cols]] *)
Definition without {A} (cols : list nat) (l : list A) : list A :=
  (filter (λ p, p.1 ∉ cols) (imap (λ i v, (i, v)) l)).*2.

(** [s.split(sep)] for a one-character separator. *)
Fixpoint split (sep : ascii) (s : string) : list string :=
  match s with
  | EmptyString => [EmptyString]
  | String c s' =>
      if decide (c = sep) then EmptyString :: split sep s'
      else match split sep s' with
           | [] => [String c EmptyString]
           | w :: ws => String c w :: ws
           end
  end.

(** [sep.join(l)] *)
Fixpoint join (sep : string) (l : list string) : string :=
  match l with
  | [] => EmptyString
  | [w] => w
  | w :: ws => w +:+ sep +:+ join sep ws
  end.

(** [s.replace(c, '')] for a one-character [c]. *)
Fixpoint remove_char (c : ascii) (s : string) : string :=
  match s with
  | EmptyString => EmptyString
  | String d s' => if decide (d = c) then remove_char c s' else String d (remove_char c s')
  end.

(** The ASCII characters [str.isspace] accepts. *)
Definition isspace (c : ascii) : bool :=
  let n := nat_of_ascii c in
  bool_decide (n = 32 ∨ (9 ≤ n ∧ n ≤ 13) ∨ (28 ≤ n ∧ n ≤ 31)).

Fixpoint lstrip (s : string) : string :=
  match s with
  | EmptyString => EmptyString
  | String c s' => if isspace c then lstrip s' else s
  end.

(** [s.rstrip()]: the trailing white space goes. *)
Fixpoint rstrip (s : string) : string :=
  match s with
  | EmptyString => EmptyString
  | String c s' =>
      match rstrip s' with
      | EmptyString => if isspace c then EmptyString else String c EmptyString
      | r => String c r
      end
  end.

Definition strip (s : string) : string := lstrip (rstrip s).

(** [s[:n]] *)
Fixpoint prefix (n : nat) (s : string) : string :=
  match n, s with
  | S n', String c s' => String c (prefix n' s')
  | _, _ => EmptyString
  end.

(** [p in s] on strings: [p] occurs in [s]. *)
Fixpoint startswith (p s : string) : bool :=
  match p, s with
  | EmptyString, _ => true
  | String a p', String b s' => if decide (a = b) then startswith p' s' else false
  | String _ _, EmptyString => false
  end.

Fixpoint contains (p s : string) : bool :=
  startswith p s ||
  match s with
  | EmptyString => false
  | String _ s' => contains p s'
  end.

(** [s.upper()] on ASCII letters. *)
Definition upper_char (c : ascii) : ascii :=
  let n := nat_of_ascii c in
  if bool_decide (97 ≤ n ∧ n ≤ 122) then ascii_of_nat (n - 32) else c.

Fixpoint upper (s : string) : string :=
  match s with
  | EmptyString => EmptyString
  | String c s' => String (upper_char c) (upper s')
  end.

(** [list(set(l))] up to the iteration order of the set, which Python
    leaves open: the distinct values, here in order of first occurrence. *)
Fixpoint distinct {A} `{EqDecision A} (l : list A) : list A :=
  match l with
  | [] => []
  | x :: l' => x :: filter (λ y, y ≠ x) (distinct l')
  end.

End Py.

(* ===================================================================== *)
(** * The metadata record *)
(* ===================================================================== *)

(** A CV annotation: a dict with any of the keys 'name', 'accession' and
    'value'. *)
Record annotation : Type := Annotation {
  cv_name : option string;
  cv_accession : option string;
  cv_value : option string
}.

(** A field of a metadata record: a CV annotation, or the aggregate
    [{'entry_list': {c: annotation, ...}}] keyed by sequence number. *)
Inductive field : Type :=
  | Plain (a : annotation)
  | EntryList (entries : list (nat * annotation)).

(** An insertion-ordered dictionary. *)
Definition dict (K V : Type) : Type := list (K * V).

Definition dict_get {K V} `{EqDecision K} (k : K) (d : dict K V) : option V :=
  snd <$> List.find (λ p, bool_decide (p.1 = k)) d.

(** [d[k] = v]: a present key keeps its place, a new one goes last. *)
Fixpoint dict_set {K V} `{EqDecision K} (k : K) (v : V) (d : dict K V) : dict K V :=
  match d with
  | [] => [(k, v)]
  | (k', v') :: d' => if decide (k' = k) then (k, v) :: d' else (k', v') :: dict_set k v d'
  end.

Definition keys {K V} (d : dict K V) : list K := d.*1.

Definition record : Type := dict string field.

(** [{'value': v}] *)
Definition value_of (v : string) : field := Plain (Annotation None None (Some v)).

(* ===================================================================== *)
(** * The revised extractor: src/mzml_2_isa/mzml.py, class mzMLmeta *)
(* ===================================================================== *)

Module Extractor.

(** A [cvParam] element as the extractor reads it: its tag, the
    attributes 'accession' and 'name' (required by the mzML schema), the
    optional attribute 'value', and the 'softwareRef' attribute of its
    parent element when that has one. *)
Record cvParam : Type := CvParam {
  tag : string;
  attrib_accession : string;
  attrib_name : string;
  attrib_value : option string;
  parent_softwareRef : option string
}.

(** An element of the software list: 'id', 'version' and the
    (accession, name) pairs of its cvParam children. *)
Record software_elem : Type := SoftwareElem {
  sw_id : string;
  sw_version : string;
  sw_cvParam : list (string * string)
}.

(** The search parameters of one governed term. *)
Record term_info : Type := TermInfo {
  attribute : bool;
  name : string;
  plus1 : bool;
  value : bool;
  soft : bool
}.

(** [terms], in the order of the source text. *)
Definition terms : dict string (dict string term_info) :=
  [ ("file_content",
      [ ("MS:1000524", TermInfo false "Data file content" true false false);
        ("MS:1000525", TermInfo false "Spectrum representation" false false false) ]);
    ("source_file",
      [ ("MS:1000767", TermInfo false "Native spectrum identifier format" false false false);
        ("MS:1000561", TermInfo false "Raw data file checksum type" true true false);
        ("MS:1000560", TermInfo false "Raw data file format" false false false) ]);
    ("ionization",
      [ ("MS:1000482", TermInfo true "source_attribute" true true false);
        ("MS:1000008", TermInfo false "Ion source" false false false);
        ("MS:1000007", TermInfo false "Inlet type" false false false) ]);
    ("analyzer",
      [ ("MS:1000480", TermInfo true "analyzer_attribute" true true false);
        ("MS:1000443", TermInfo false "Mass analyzer" false false false) ]);
    ("detector",
      [ ("MS:1000481", TermInfo true "detector_attribute" true true false);
        ("MS:1000026", TermInfo false "Detector" false false false);
        ("MS:1000027", TermInfo false "Detector mode" true false false) ]);
    ("data_processing",
      [ ("MS:1000630", TermInfo true "data_processing_parameter" true true true);
        ("MS:1000452", TermInfo false "data transformation" true false true) ]) ].

(** [{'accession': e.attrib['accession'], 'name': e.attrib['name']}] *)
Definition entry_of (e : cvParam) : annotation :=
  Annotation (Some (attrib_name e)) (Some (attrib_accession e)) None.

Definition with_value (v : string) (a : annotation) : annotation :=
  Annotation (cv_name a) (cv_accession a) (Some v).

(** What a match records: accession and name, and the value attribute
    when the rule has a value. *)
Definition recorded (info : term_info) (e : cvParam) : annotation :=
  match (if value info then attrib_value e else None) with
  | Some v => with_value v (entry_of e)
  | None => entry_of e
  end.

Section WithDocument.

(** The software list of the document, and the descendant closure of the
    ontology ([self.obo.getDescendents], defined outside these sources). *)
Variable softwareList : list software_elem.
Variable getDescendents : string → list string.

(** [software(soft_ref, name)] *)
Definition software (soft_ref name : string) (meta : record) : record :=
  foldl (λ meta e,
    if decide (sw_id e = soft_ref) then
      let meta :=
        if decide (sw_version e = EmptyString) then meta
        else dict_set (name +:+ " software version")
                      (Plain (Annotation None None (Some (sw_version e)))) meta in
      foldl (λ meta ie,
               dict_set (name +:+ " software")
                        (Plain (Annotation (Some ie.2) (Some ie.1) None)) meta)
            meta (sw_cvParam e)
    else meta) meta softwareList.

(** [self.meta[meta_name]['entry_list'][c]['value'] = v] *)
Definition set_entry_value (meta_name : string) (c : nat) (v : string)
    (meta : record) : res record :=
  match dict_get meta_name meta with
  | Some (EntryList es) =>
      a ← or_raise KeyError (dict_get c es);
      Ok (dict_set meta_name (EntryList (dict_set c (with_value v a) es)) meta)
  | _ => Raise KeyError
  end.

(** The body of [cvParam_loop] for an element [e] that matched the rule
    [info]; the state is [self.meta] and the counter [c]. *)
Definition cvParam_match (info : term_info) (e : cvParam)
    (st : record * nat) : res (record * nat) :=
  let '(meta, c) := st in
  let meta_name := if attribute info then tag e else name info in
  st' ← (if plus1 info then
           let meta1 :=
             match dict_get meta_name meta with
             | Some (EntryList es) =>
                 dict_set meta_name (EntryList (dict_set c (entry_of e) es)) meta
             | _ => dict_set meta_name (EntryList [(c, entry_of e)]) meta
             end in
           meta2 ← (if value info then
                      v ← or_raise KeyError (attrib_value e);
                      set_entry_value meta_name c v meta1
                    else Ok meta1);
           Ok (meta2, S c)
         else
           let meta1 := dict_set meta_name (Plain (entry_of e)) meta in
           meta2 ← (if value info then
                      v ← or_raise KeyError (attrib_value e);
                      Ok (dict_set meta_name (Plain (with_value v (entry_of e))) meta1)
                    else Ok meta1);
           Ok (meta2, c));
  if soft info then
    soft_ref ← or_raise KeyError (parent_softwareRef e);
    Ok (software soft_ref meta_name st'.1, st'.2)
  else Ok st'.

(** [cvParam_loop(elements, location_name, terms)], with
    [rules = terms[location_name]]. *)
Definition cvParam_loop (elements : list cvParam) (rules : dict string term_info)
    (meta : record) : res record :=
  fst <$> for_each (λ st e,
            for_each (λ st rule,
              if bool_decide (attrib_accession e ∈ getDescendents rule.1)
              then cvParam_match rule.2 e st
              else Ok st) st rules)
          (meta, 1) elements.

(** The key under which [cvParam_loop] stores a match of the rule [info]
    on the element [e] ([meta_name]). *)
Definition field_key (info : term_info) (e : cvParam) : string :=
  if attribute info then tag e else name info.

(** The matches of a location under rules that allow multiple matches,
    in the order of the two loops of [cvParam_loop] (elements outside,
    rules inside): the key of each and what is recorded for it. These
    are the matches after which the counter [c] is incremented. *)
Definition counted_matches (elements : list cvParam)
    (rules : list (string * term_info)) : list (string * annotation) :=
  concat ((λ e, (λ rule, (field_key rule.2 e, recorded rule.2 e)) <$>
                filter (λ rule, attrib_accession e ∈ getDescendents rule.1 ∧
                                plus1 rule.2 = true) rules) <$> elements).

(** The counted matches stored under the key [k], each with its number
    when the matches are numbered [c], [c + 1], ... in their order. *)
Fixpoint entries_of (k : string) (c : nat) (ms : list (string * annotation))
    : list (nat * annotation) :=
  match ms with
  | [] => []
  | m :: ms' =>
      (if decide (m.1 = k) then [(c, m.2)] else []) ++ entries_of k (S c) ms'
  end.

(** [extract_meta(terms, xpaths)]: [xpath] gives, for each location in
    the order the dictionary is iterated, the elements found there. *)
Definition extract_meta (xpath : dict string (list cvParam)) (meta : record) : res record :=
  for_each (λ meta loc,
    rules ← or_raise KeyError (dict_get loc.1 terms);
    cvParam_loop loc.2 rules meta) meta xpath.

End WithDocument.

(** ** Derived fields *)

(** Lines 271-287 of [derived]: the polarity of the run from the
    spectrum-level cvParams [sp_cv]; the result is what line 341 stores
    as the value of 'Scan polarity'. *)
Definition polarity_flags (sp_cv : list cvParam) : bool * bool :=
  foldl (λ flags i,
           (if decide (attrib_accession i = "MS:1000130") then true else flags.1,
            if decide (attrib_accession i = "MS:1000129") then true else flags.2))
        (false, false) sp_cv.

Definition derived_polarity (sp_cv : list cvParam) : string :=
  let '(pos, neg) := polarity_flags sp_cv in
  if pos && neg then "positive/negative"
  else if pos then "positive"
  else if neg then "negative"
  else "Not determined".

(** A Python float: a finite number, given by its exact rational value,
    the negative zero, an infinity or a NaN. *)
Inductive pyfloat : Type :=
  | Fin (q : Q)
  | NegZero
  | PInf
  | NInf
  | NaN.

Definition finite_value (x : pyfloat) : option Q :=
  match x with
  | Fin q => Some q
  | NegZero => Some 0%Q
  | PInf | NInf | NaN => None
  end.

(** [x < y] on floats: false whenever a NaN is involved. *)
Definition float_lt (x y : pyfloat) : bool :=
  match x, y with
  | NaN, _ | _, NaN => false
  | PInf, _ | _, NInf => false
  | NInf, _ | _, PInf => true
  | Fin a, Fin b => if Qlt_le_dec a b then true else false
  | Fin a, NegZero => if Qlt_le_dec a 0 then true else false
  | NegZero, Fin b => if Qlt_le_dec 0 b then true else false
  | NegZero, NegZero => false
  end.

(** [min(l)] and [max(l)] on floats: the running extreme is replaced by
    an item that is smaller (larger); ValueError on an empty list. *)
Definition py_min (l : list pyfloat) : res pyfloat :=
  match l with
  | [] => Raise ValueError
  | x :: l' => Ok (foldl (λ m y, if float_lt y m then y else m) x l')
  end.

Definition py_max (l : list pyfloat) : res pyfloat :=
  match l with
  | [] => Raise ValueError
  | x :: l' => Ok (foldl (λ m y, if float_lt m y then y else m) x l')
  end.

(** Truncation of a rational toward zero. *)
Definition py_trunc (q : Q) : Z := Z.quot (Qnum q) (Zpos (Qden q)).

(** [int(x)] on a float: truncation toward zero; OverflowError on an
    infinity, ValueError on a NaN. *)
Definition py_int (x : pyfloat) : res Z :=
  match x with
  | Fin q => Ok (py_trunc q)
  | NegZero => Ok 0%Z
  | PInf | NInf => Raise OverflowError
  | NaN => Raise ValueError
  end.

(** The parts of the document [derived] reads: the spectrum-level
    cvParams, the scan-window and scan cvParams, and the results of the
    three attribute queries; [in_file] is the path of the mzML file. *)
Record run : Type := Run {
  sp_cv : list cvParam;
  scan_window_cv : list cvParam;
  scan_cv : list cvParam;
  spectrumList_count : list string;
  cv_id : list string;
  sourceFile_name : list string;
  in_file : string
}.

Section DerivedFields.

(** Functions of the standard library: [float(s)] (ValueError on a
    malformed string), [str(round(x, 4))], [int(s)],
    [os.path.basename(p)] and [os.path.splitext(p)[0]]. *)
Variable float : string → res pyfloat.
Variable str_round4 : pyfloat → string.
Variable int : string → res Z.
Variable basename : string → string.
Variable splitext0 : string → string.

(** [float(i.attrib['value'])]: KeyError without a 'value' attribute. *)
Definition attrib_float (i : cvParam) : res pyfloat :=
  v ← or_raise KeyError (attrib_value i);
  float v.

(** Lines 295-303 of [derived]: the lists [minmz_l] and [maxmz_l]. *)
Definition scan_window_limits (scan_window_cv : list cvParam)
    : res (list pyfloat * list pyfloat) :=
  for_each (λ l i,
      minmz_l ← (if decide (attrib_accession i = "MS:1000501")
                 then x ← attrib_float i; Ok (l.1 ++ [x])
                 else Ok l.1);
      maxmz_l ← (if decide (attrib_accession i = "MS:1000500")
                 then x ← attrib_float i; Ok (l.2 ++ [x])
                 else Ok l.2);
      Ok (minmz_l, maxmz_l))
    ([], []) scan_window_cv.

(** Lines 295-307 of [derived]; the result is what line 340 stores as the
    value of 'Scan m/z range'. *)
Definition derived_mzrange (scan_window_cv : list cvParam) : res string :=
  l ← scan_window_limits scan_window_cv;
  lo ← py_min l.1;
  minmz ← py_int lo;
  hi ← py_max l.2;
  maxmz ← py_int hi;
  Ok (pretty minmz +:+ " - " +:+ pretty maxmz).

(** [derived()]: the fields it adds to [self.meta]. *)
Definition derived (r : run) (meta : record) : res record :=
  let polarity := derived_polarity (sp_cv r) in
  mzrange ← derived_mzrange (scan_window_cv r);
  time ← mapM attrib_float
            (filter (λ i, attrib_accession i = "MS:1000016") (scan_cv r));
  minrt ← py_min time;
  maxrt ← py_max time;
  let timerange := str_round4 minrt +:+ " - " +:+ str_round4 maxrt in
  scan_num ← Py.getitem 0 (spectrumList_count r);
  cv ← Py.getitem 0 (cv_id r);
  if negb (Py.contains "MS" cv) then Ok meta
  else
    let meta := dict_set "term_source" (value_of "MS") meta in
    raw_file ← Py.getitem 0 (sourceFile_name r);
    let meta := dict_set "Raw Spectral Data File" (value_of raw_file) meta in
    let meta := dict_set "MS Assay Name" (value_of (splitext0 (basename raw_file))) meta in
    n ← int scan_num;
    let meta := dict_set "Number of scans" (value_of (pretty n)) meta in
    let meta := dict_set "Scan m/z range" (value_of mzrange) meta in
    let meta := dict_set "Scan polarity" (value_of polarity) meta in
    let meta := dict_set "Time range" (value_of timerange) meta in
    Ok (dict_set "Derived Spectral Data File" (value_of (basename (in_file r))) meta).

End DerivedFields.

(** ** ISA-Tab compatible names *)

Definition keep : list string :=
  [ "data transformation"; "data transformation software version";
    "data transformation software"; "term_source"; "Raw Spectral Data File";
    "MS Assay Name" ].

Definition isa_name (meta_name : string) : string :=
  if bool_decide (meta_name ∈ keep) then meta_name
  else "Parameter Value[" +:+ meta_name +:+ "]".

(** [isa_tab_compatible]: [self.meta_isa] built from [self.meta]. *)
Definition isa_tab_compatible (meta : record) : record :=
  foldl (λ meta_isa f, dict_set (isa_name f.1) f.2 meta_isa) [] meta.

(** ** Instrument *)

(** A referenceable parameter group: its 'id' and its cvParam children. *)
Record paramGroup : Type := ParamGroup {
  pg_id : string;
  pg_cvParam : list cvParam
}.

Section WithOntology.

Variable softwareList : list software_elem.

(** The ontology, defined outside these sources: the descendant closure
    [self.obo.getDescendents(k)], the parents [self.obo.terms[k]['p']] and
    children [self.obo.terms[k]['c']] of a term (KeyError on an unknown
    term), and the name [translator[k]] of a term. *)
Variable getDescendents : string → list string.
Variable terms_p : string → res (list string).
Variable terms_c : string → res (list string).
Variable translator : string → res string.

(** The loop [for i in range(n)] of [instrument]: the first parent is
    followed upward until it is a direct child of the instrument model
    term; [None] when the loop runs out. *)
Fixpoint manufacturer_walk (n : nat) (direct_c : list string) (parent : list string)
    : res (option string) :=
  match n with
  | 0 => Ok None
  | S n' =>
      p0 ← Py.getitem 0 parent;
      if bool_decide (p0 ∈ direct_c) then Ok (Some p0)
      else
        parent' ← terms_p p0;
        manufacturer_walk n' direct_c parent'
  end.

(** The term reached from [parent] by following the first parent [k]
    times: [parent[0]] after [k] rounds of
    [parent = self.obo.terms[parent[0]]['p']]. *)
Fixpoint nth_first_parent (k : nat) (parent : list string) : res string :=
  match k with
  | 0 => Py.getitem 0 parent
  | S k' =>
      p0 ← Py.getitem 0 parent;
      parent' ← terms_p p0;
      nth_first_parent k' parent'
  end.

(** The body of the loop over the cvParams of the instrument group. *)
Definition instrument_cvParam (meta : record) (ie : cvParam) : res record :=
  if bool_decide (attrib_accession ie ∈ getDescendents "MS:1000031") then
    let meta := dict_set "Instrument" (Plain (entry_of ie)) meta in
    direct_c ← terms_c "MS:1000031";
    parent ← terms_p (attrib_accession ie);
    found ← manufacturer_walk 10 direct_c parent;
    match found with
    | Some p0 =>
        n ← translator p0;
        Ok (dict_set "Instrument manufacturer"
              (Plain (Annotation (Some n) (Some p0) None)) meta)
    | None => Ok meta
    end
  else if decide (attrib_accession ie = "MS:1000529") then
    v ← or_raise KeyError (attrib_value ie);
    Ok (dict_set "Instrument serial number" (value_of v) meta)
  else Ok meta.

(** [instrument()]: [ic_refs] and [soft_refs] are the results of the two
    attribute queries on the instrument configurations, [groups] the
    referenceable parameter groups. *)
Definition instrument (ic_refs : list string) (groups : list paramGroup)
    (soft_refs : list string) (meta : record) : res record :=
  ic_ref ← Py.getitem 0 ic_refs;
  meta ← for_each (λ meta e,
            if decide (pg_id e = ic_ref)
            then for_each instrument_cvParam meta (pg_cvParam e)
            else Ok meta) meta groups;
  soft_ref ← Py.getitem 0 soft_refs;
  Ok (software softwareList soft_ref "Instrument" meta).

End WithOntology.

End Extractor.

(* ===================================================================== *)
(** * The legacy script: src/isa_mzML.py *)
(* ===================================================================== *)

Module Legacy.

Import Extractor.

Section WithDocument.

Variable softwareList : list software_elem.
Variable getDescendents : string → list string.

(** [software(soft_ref, name)] of the legacy [mzMLmeta]. *)
Definition software (soft_ref name : string) (meta : record) : record :=
  foldl (λ meta e,
    if decide (sw_id e = soft_ref) then
      let meta :=
        if decide (sw_version e = EmptyString) then meta
        else dict_set (name +:+ "_software_version")
                      (Plain (Annotation None None (Some (sw_version e)))) meta in
      foldl (λ meta ie,
               dict_set (name +:+ "_software")
                        (Plain (Annotation (Some ie.2) (Some ie.1) None)) meta)
            meta (sw_cvParam e)
    else meta) meta softwareList.

(** The four-way choice of the field key, with the counter it leaves. *)
Definition meta_name_of (info : term_info) (e : cvParam) (c : nat) : string * nat :=
  if attribute info && plus1 info then (tag e +:+ pretty c, S c)
  else if attribute info then (tag e, c)
  else if plus1 info then (name info +:+ pretty c, S c)
  else (name info, c).

(** The body of the legacy [cvParam_loop] for a matching element. *)
Definition cvParam_match (info : term_info) (e : cvParam)
    (st : record * nat) : res (record * nat) :=
  let '(meta, c) := st in
  let '(meta_name, c) := meta_name_of info e c in
  let meta1 := dict_set meta_name (Plain (entry_of e)) meta in
  meta2 ← (if value info then
             v ← or_raise KeyError (attrib_value e);
             Ok (dict_set meta_name (Plain (with_value v (entry_of e))) meta1)
           else Ok meta1);
  if soft info then
    soft_ref ← or_raise KeyError (parent_softwareRef e);
    Ok (software soft_ref meta_name meta2, c)
  else Ok (meta2, c).

Definition cvParam_loop (elements : list cvParam) (rules : dict string term_info)
    (meta : record) : res record :=
  fst <$> for_each (λ st e,
            for_each (λ st rule,
              if bool_decide (attrib_accession e ∈ getDescendents rule.1)
              then cvParam_match rule.2 e st
              else Ok st) st rules)
          (meta, 1) elements.

End WithDocument.

(** ** class isa_assay_file *)

(** The six index variables of [__init__]; [None] is a name that was
    never bound. *)
Record columns : Type := Columns {
  polarity_idx : option nat;
  mzrange_idx : option nat;
  instrument_idx : option nat;
  ionsource_idx : option nat;
  detector_idx : option nat;
  raw_data_idx : option nat
}.

(** The [try] block of lines 322-330: six lookups in a row, the first
    ValueError leaves the block. The second component is what
    [print e] reports: the header that was not found. *)
Definition locate (head_short : list string) (adj : nat) : columns * option string :=
  let idx h := (λ i, i + adj) <$> Py.index h head_short in
  match idx "Parameter Value[Scan polarity]" with
  | None => (Columns None None None None None None, Some "Parameter Value[Scan polarity]")
  | Some p =>
  match idx "Parameter Value[Scan m/z range]" with
  | None => (Columns (Some p) None None None None None,
             Some "Parameter Value[Scan m/z range]")
  | Some m =>
  match idx "Parameter Value[Instrument]" with
  | None => (Columns (Some p) (Some m) None None None None,
             Some "Parameter Value[Instrument]")
  | Some i =>
  match idx "Parameter Value[Ion source]" with
  | None => (Columns (Some p) (Some m) (Some i) None None None,
             Some "Parameter Value[Ion source]")
  | Some s =>
  match idx "Parameter Value[Mass analyzer]" with
  | None => (Columns (Some p) (Some m) (Some i) (Some s) None None,
             Some "Parameter Value[Mass analyzer]")
  | Some d =>
  match idx "Raw Spectral Data File" with
  | None => (Columns (Some p) (Some m) (Some i) (Some s) (Some d) None,
             Some "Raw Spectral Data File")
  | Some r => (Columns (Some p) (Some m) (Some i) (Some s) (Some d) (Some r), None)
  end end end end end end.

(** [file[k][a]] for [a] one of 'name', 'accession', 'value'. *)
Definition item (k : string) (a : annotation → option string) (file : record) : res string :=
  f ← or_raise KeyError (dict_get k file);
  match f with
  | Plain ann => or_raise KeyError (a ann)
  | EntryList _ => Raise KeyError
  end.

(** [current_row[var + off] = file[k][a]]: the right-hand side is
    evaluated first, then the variable is read, then the cell is set. *)
Definition assign (var : option nat) (off : nat) (k : string)
    (a : annotation → option string) (file : record)
    (current_row : list string) : res (list string) :=
  v ← item k a file;
  i ← or_raise NameError var;
  Py.setitem (i + off) v current_row.

(** The body of the loop of lines 339-357 up to [writerow]. As
    [current_row = standard_row] binds the same list, the row is carried
    from one record to the next. *)
Definition update_row (cols : columns) (file : record) (row : list string)
    : res (list string) :=
  row ← assign (polarity_idx cols) 0 "polarity" cv_value file row;
  row ← assign (mzrange_idx cols) 0 "mzrange" cv_value file row;
  row ← assign (instrument_idx cols) 0 "instrument_manufacturer" cv_name file row;
  row ← assign (instrument_idx cols) 1 "term_source" cv_value file row;
  row ← assign (instrument_idx cols) 2 "instrument_manufacturer" cv_accession file row;
  row ← assign (ionsource_idx cols) 0 "ionization_type" cv_name file row;
  row ← assign (ionsource_idx cols) 1 "term_source" cv_value file row;
  row ← assign (ionsource_idx cols) 2 "ionization_type" cv_accession file row;
  row ← assign (detector_idx cols) 0 "detector_type" cv_name file row;
  row ← assign (detector_idx cols) 1 "term_source" cv_value file row;
  row ← assign (detector_idx cols) 2 "detector_type" cv_accession file row;
  assign (raw_data_idx cols) 0 "raw_data_file" cv_value file row.

(** What a run leaves behind: the diagnostic printed, the rows written to
    the new file, and the exception that ended the run, if any. *)
Record outcome : Type := Outcome {
  printed : option string;
  written : list (list string);
  raised : option exn
}.

(** The loop over [metalist]: each row is written as soon as it is
    complete, and the first exception ends the run. *)
Fixpoint update_rows (cols : columns) (metalist : list record) (row : list string)
    (out : list (list string)) : list (list string) * option exn :=
  match metalist with
  | [] => (out, None)
  | file :: rest =>
      match update_row cols file row with
      | Ok row' => update_rows cols rest row' (out ++ [row'])
      | Raise e => (out, Some e)
      end
  end.

(** [isa_assay_file.__init__], from the first two lines of the assay
    file. *)
Definition isa_assay_file (line0 line1 : string) (metalist : list record) : outcome :=
  let headers_l := Py.split Py.TAB (Py.remove_char Py.QUOTE line0) in
  let standard_row := Py.split Py.TAB (Py.remove_char Py.QUOTE line1) in
  match Py.index "Mass spectrometry" standard_row with
  | None => Outcome None [] (Some ValueError)
  | Some mass_protocol_idx =>
      let adj := mass_protocol_idx + 1 in
      let head_short := Py.slice_from (mass_protocol_idx + 1) headers_l in
      let '(cols, report) := locate head_short adj in
      let '(rows, e) := update_rows cols metalist standard_row [headers_l] in
      Outcome report rows e
  end.

End Legacy.

(* ===================================================================== *)
(** * The ISA-Tab generator: src/mzml2isa/isa.py, class ISA_Tab *)
(* ===================================================================== *)

Module Generator.

(** [l.pop()]: the last element and the list without it. *)
Definition pop {A} (l : list A) : option (A * list A) :=
  match rev l with
  | [] => None
  | x :: r => Some (x, rev r)
  end.

(** [update_row(main, meta_val)]; the list is [self.new_mass_row]. *)
Definition update_row (main : nat) (meta_val : annotation)
    (new_mass_row : list string) : res (list string) :=
  st ← match cv_name meta_val with
       | None => Ok (new_mass_row, main)
       | Some name =>
           row ← Py.setitem main name new_mass_row;
           Ok (row, main + 1)
       end;
  st ← match cv_accession meta_val with
       | None => Ok st
       | Some accession =>
           row ← Py.setitem st.2 "MS" st.1;
           row ← Py.setitem (st.2 + 1) accession row;
           Ok (row, st.2 + 2)
       end;
  match cv_value meta_val with
  | None => Ok st.1
  | Some value => Py.setitem st.2 value st.1
  end.

(** The cells an annotation occupies from its target column on, in the
    layout name / term source ref / accession / value. *)
Definition annotation_cells (a : annotation) : list string :=
  match cv_name a with Some n => [n] | None => [] end ++
  match cv_accession a with Some acc => ["MS"; acc] | None => [] end ++
  match cv_value a with Some v => [v] | None => [] end.

(** The variables the loop of [create_assay] changes. *)
Record state : Type := State {
  pre_row : list string;
  new_mass_row : list string;
  sample_names : list string;
  full_row : list (list string)
}.

(** The loop over [list_item.items()]: each entry takes the next
    available column; once none is left the entries are passed over. *)
Fixpoint consume (indices : list nat) (items : list (nat * annotation))
    (row : list string) : res (list string) :=
  match items with
  | [] => Ok row
  | item :: items' =>
      match pop indices with
      | None => consume indices items' row
      | Some (main, indices') =>
          row' ← update_row main item.2 row;
          consume indices' items' row'
      end
  end.

Section Template.

Variable sample_name_idx : nat.
Variable mass_headers : list string.
Variable post_row : list string.

(** The body of the loop over [file_meta.items()]. *)
Definition field_step (st : state) (kv : string * field) : res state :=
  let '(key, value) := kv in
  st ← (if decide (key = "Sample Name") then
          v ← match value with
              | Plain a => or_raise KeyError (cv_value a)
              | EntryList _ => Raise KeyError
              end;
          pre ← Py.setitem sample_name_idx v (pre_row st);
          Ok (State pre (new_mass_row st) (sample_names st ++ [v]) (full_row st))
        else Ok st);
  match value with
  | EntryList list_item =>
      let indices := rev (Py.indices_of key mass_headers) in
      row ← consume indices list_item (new_mass_row st);
      Ok (State (pre_row st) row (sample_names st) (full_row st))
  | Plain a =>
      match Py.index key mass_headers with
      | None => Ok st
      | Some main =>
          row ← update_row main a (new_mass_row st);
          Ok (State (pre_row st) row (sample_names st) (full_row st))
      end
  end.

(** The body of the loop over [metalist]. *)
Definition record_step (st : state) (file_meta : record) : res state :=
  st ← for_each field_step st file_meta;
  Ok (State (pre_row st) (new_mass_row st) (sample_names st)
            (full_row st ++ [pre_row st ++ new_mass_row st ++ post_row])).

End Template.

(** The sample name a field contributes: the value of a 'Sample Name'
    field. *)
Definition sample_name_of (kv : string * field) : option string :=
  if decide (kv.1 = "Sample Name") then
    match kv.2 with
    | Plain a => cv_value a
    | EntryList _ => None
    end
  else None.

(** The invariant of the loop over the records: the two segments keep
    their lengths [a] and [b], and every row built so far has the full
    length. *)
Definition well_shaped (post_row : list string) (a b : nat) (st : state) : Prop :=
  length (pre_row st) = a ∧ length (new_mass_row st) = b ∧
  Forall (λ row, length row = a + b + length post_row) (full_row st).

(** The first loop of [remove_blank_columns]: the columns to delete. *)
Definition blank_columns (start end_ : nat) (full_row : list (list string))
    : res (list nat) :=
  for_each (λ delete_cols i,
    column ← mapM (Py.getitem i) full_row;
    if decide (length (filter (λ c, c = EmptyString) column) = length full_row)
    then Ok (delete_cols ++ [i])
    else Ok delete_cols) [] (Py.range start (end_ - 3)).

(** [remove_blank_columns(start, end, full_row, headers_row)] *)
Definition remove_blank_columns (start end_ : nat) (full_row : list (list string))
    (headers_row : list string) : res (list string * list (list string)) :=
  delete_cols ← blank_columns start end_ full_row;
  Ok (Py.without delete_cols headers_row, Py.without delete_cols <$> full_row).

(** The positions [create_assay] reads off the template. *)
Record layout : Type := Layout {
  sample_name_idx : nat;
  mass_protocol_idx : nat;
  mass_end_idx : nat;
  polarity_idx : nat
}.

(** Lines 228-231. *)
Definition locate (headers_row standard_row : list string) : res layout :=
  s ← or_raise ValueError (Py.index "Sample Name" headers_row);
  p ← or_raise ValueError (Py.index "Mass spectrometry" standard_row);
  e ← or_raise ValueError (Py.index "Metabolite identification" standard_row);
  pol ← or_raise ValueError (Py.index "Parameter Value[Scan polarity]" headers_row);
  Ok (Layout s p e pol).

(** Lines 233-287: the rows, one per record. *)
Definition build_rows (lay : layout) (headers_row standard_row : list string)
    (metalist : list record) : res state :=
  let mass_headers :=
    Py.slice (mass_protocol_idx lay + 1) (mass_end_idx lay) headers_row in
  let pre_row := Py.slice_to (mass_protocol_idx lay + 1) standard_row in
  let post_row := Py.slice_from (mass_end_idx lay) standard_row in
  for_each (record_step (sample_name_idx lay) mass_headers post_row)
           (State pre_row (replicate (length mass_headers) EmptyString) [] [])
           metalist.

(** An assay file as written: its name, header and rows. A later file of
    the same name replaces an earlier one. *)
Record assay_file : Type := AssayFile {
  file_name : string;
  file_header : list string;
  file_rows : list (list string)
}.

(** The file names of [self.isa_env] for a study [name] (free of
    braces, so that [format] leaves it alone). *)
Definition assay_file_name (name : string) : string :=
  "a_" +:+ name +:+ "_metabolite_profiling_mass_spectrometry.txt".

Definition assay_polar_file_name (name suffix : string) : string :=
  "a_" +:+ name +:+ "_metabolite_profiling_mass_spectrometry_" +:+ suffix +:+ ".txt".

(** Writing the rows of one file: in [all_rows], the rows selected by
    [sel] get their data-transformation cell set (in place) and are
    written. Returns the rows written and the list after the update. *)
Definition write_rows (headers_row : list string) (sel : list string → bool)
    (all_rows : list (list string))
    : res (list (list string) * list (list string)) :=
  i ← or_raise ValueError (Py.index "Derived Spectral Data File" headers_row);
  let data_tran_idx := (Z.of_nat i - 2)%Z in
  marked ← mapM (λ row,
              if sel row then
                row' ← Py.setitem_z data_tran_idx "Data transformation" row;
                Ok (true, row')
              else Ok (false, row)) all_rows;
  Ok ((filter (λ m, m.1 = true) marked).*2, marked.*2).

(** Lines 297-331: the polarity split and the files. *)
Definition write_assays (name : string) (polarity_idx : nat) (separate_polarity : bool)
    (headers_row : list string) (full_row : list (list string))
    : res (list assay_file) :=
  cells ← mapM (Py.getitem polarity_idx) full_row;
  let polarities := Py.distinct cells in
  if bool_decide (length polarities = 1) || negb separate_polarity then
    w ← write_rows headers_row (λ _, true) full_row;
    Ok [AssayFile (assay_file_name name) headers_row w.1]
  else
    snd <$> for_each (λ st polarity,
               w ← write_rows headers_row
                     (λ x, bool_decide (x !! polarity_idx = Some polarity)) st.1;
               Ok (w.2, st.2 ++ [AssayFile
                      (assay_polar_file_name name (Py.upper (Py.prefix 3 polarity)))
                      headers_row w.1]))
            (full_row, []) polarities.

(** Lines 297-331 with the iteration order of the set as a parameter:
    [set_iter cells] lists the elements of [set(cells)] in the order in
    which Python iterates the set, an order that depends on the hashes of
    the strings. [write_assays] is the instance at the order of first
    occurrence. *)
Definition write_assays_iter (set_iter : list string → list string)
    (name : string) (polarity_idx : nat) (separate_polarity : bool)
    (headers_row : list string) (full_row : list (list string))
    : res (list assay_file) :=
  cells ← mapM (Py.getitem polarity_idx) full_row;
  let polarities := set_iter cells in
  if bool_decide (length polarities = 1) || negb separate_polarity then
    w ← write_rows headers_row (λ _, true) full_row;
    Ok [AssayFile (assay_file_name name) headers_row w.1]
  else
    snd <$> for_each (λ st polarity,
               w ← write_rows headers_row
                     (λ x, bool_decide (x !! polarity_idx = Some polarity)) st.1;
               Ok (w.2, st.2 ++ [AssayFile
                      (assay_polar_file_name name (Py.upper (Py.prefix 3 polarity)))
                      headers_row w.1]))
            (full_row, []) polarities.

(** What [create_assay] leaves in [self] and on disk. *)
Record assay_output : Type := AssayOutput {
  out_sample_names : list string;
  written_assays : list string;
  files : list assay_file
}.

(** [create_assay(metalist, separate_polarity)] on the two rows of the
    default assay template. *)
Definition create_assay (name : string) (headers_row standard_row : list string)
    (metalist : list record) (separate_polarity : bool) : res assay_output :=
  lay ← locate headers_row standard_row;
  st ← build_rows lay headers_row standard_row metalist;
  pruned ← remove_blank_columns (mass_protocol_idx lay) (mass_end_idx lay)
             (full_row st) headers_row;
  fs ← write_assays name (polarity_idx lay) separate_polarity pruned.1 pruned.2;
  Ok (AssayOutput (sample_names st) (file_name <$> fs) fs).

(** Lines 225-226: every line of the template is right-stripped, loses
    its double quotes and is split at the tabs; the result is unpacked
    into two names. *)
Definition read_template (isa_default : list string) : res (list string * list string) :=
  match (λ x, Py.split Py.TAB (Py.remove_char Py.QUOTE (Py.rstrip x))) <$> isa_default with
  | [headers_row; standard_row] => Ok (headers_row, standard_row)
  | _ => Raise ValueError
  end.

Section Rendering.

(** The placeholder substitution of the standard library: [format] is
    [l.format] applied to the entries of [self.isa_env] and
    [self.usermeta] (and once more to nothing); [format_sample] is
    [default_line.format] applied to the sample name and the entries of
    [self.usermeta]. *)
Variable format : string → res string.
Variable format_sample : string → string → res string.

(** Lines 170-179: the treatment of a 'Study Assay' line. *)
Definition expand_study_assay (written_assays : list string) (l : string) : res string :=
  if bool_decide (Py.prefix 11 l = "Study Assay")
     && negb (bool_decide (length written_assays = 1))
  then
    let assay_row := Py.split Py.TAB l in
    first ← Py.getitem 0 assay_row;
    l' ← (if decide (first = "Study Assay File Name") then
            Ok (foldl (λ l assay,
                         l +:+ String Py.TAB (String Py.QUOTE assay)
                           +:+ String Py.QUOTE EmptyString)
                      first written_assays)
          else
            second ← Py.getitem 1 assay_row;
            Ok (first +:+ String Py.TAB
                  (Py.join (String Py.TAB EmptyString)
                     (replicate (length written_assays) (Py.strip second)))));
    Ok (l' +:+ String Py.NL EmptyString)
  else Ok l.

(** [create_investigation]: the lines written, from the lines [i_in] of
    the template. *)
Definition create_investigation (written_assays : list string) (i_in : list string)
    : res (list string) :=
  mapM (λ l, l' ← expand_study_assay written_assays l; format l') i_in.

(** [create_study]: the rows written, from the lines of the template. *)
Definition create_study (isa_default : list string) (sample_names : list string)
    : res (list (list string)) :=
  match (λ x, Py.remove_char Py.QUOTE (Py.rstrip x)) <$> isa_default with
  | [headers_line; default_line] =>
      rows ← mapM (λ sample_name,
                     l ← format_sample default_line sample_name;
                     Ok (Py.split Py.TAB l)) sample_names;
      Ok (Py.split Py.TAB headers_line :: rows)
  | _ => Raise ValueError
  end.

End Rendering.

(** ** Platform summary *)

Inductive warning : Type :=
  | NoInstrument         (* "No instrument was found in the source file." *)
  | SeveralInstruments   (* "More than one instrument platform used. ..." *).

(** [l.count(x)] *)
Definition count (x : string) (l : list string) : nat :=
  length (filter (λ y, y = x) l).

(** [max(set(l), key=l.count)]: the first element, in the iteration order
    of the set, whose count no other element exceeds; ValueError on an
    empty list. *)
Definition most_common (l : list string) : res string :=
  match Py.distinct l with
  | [] => Raise ValueError
  | x :: xs => Ok (foldl (λ m y, if decide (count m l < count y l) then y else m) x xs)
  end.

(** The body of the loop of [check_assay_name]; the state is the lists
    [instruments] and [accession] and the warnings issued. The name is
    appended before the accession is looked up. *)
Definition collect_instrument (st : list string * list string * list warning)
    (meta : record) : list string * list string * list warning :=
  let '(instruments, accession, warnings) := st in
  match dict_get "Parameter Value[Instrument]" meta with
  | Some (Plain a) =>
      match cv_name a with
      | Some n =>
          match cv_accession a with
          | Some acc => (instruments ++ [n], accession ++ [acc], warnings)
          | None => (instruments ++ [n], accession, warnings ++ [NoInstrument])
          end
      | None => (instruments, accession, warnings ++ [NoInstrument])
      end
  | _ => (instruments, accession, warnings ++ [NoInstrument])
  end.

(** The instrument name a record contributes to [instruments], and the
    accession it contributes to [accession] (only after a name). *)
Definition instrument_name_of (meta : record) : option string :=
  match dict_get "Parameter Value[Instrument]" meta with
  | Some (Plain a) => cv_name a
  | _ => None
  end.

Definition instrument_accession_of (meta : record) : option string :=
  match dict_get "Parameter Value[Instrument]" meta with
  | Some (Plain a) =>
      match cv_name a with
      | Some _ => cv_accession a
      | None => None
      end
  | _ => None
  end.

(** [self.isa_env['platform']] *)
Record platform : Type := Platform {
  platform_name : string;
  platform_accession : string;
  platform_ref : string
}.

(** [check_assay_name(metalist)]: the platform and the warnings. *)
Definition check_assay_name (metalist : list record) : platform * list warning :=
  let '(instruments, accession, warnings) := foldl collect_instrument ([], [], []) metalist in
  let warnings :=
    if decide (1 < length (Py.distinct instruments))
    then warnings ++ [SeveralInstruments] else warnings in
  let '(c_name, c_accession) :=
    match most_common instruments with
    | Ok n =>
        match most_common accession with
        | Ok a => (n, a)
        | Raise _ => (EmptyString, EmptyString)
        end
    | Raise _ => (EmptyString, EmptyString)
    end in
  (Platform c_name c_accession
     (match Py.split ":"%char c_accession with
      | ref :: _ => ref
      | [] => EmptyString
      end),
   warnings).

(** ** The constructor *)

(** The three files of a bundle, with the platform and warnings. *)
Record bundle : Type := Bundle {
  bundle_platform : platform;
  bundle_warnings : list warning;
  bundle_assays : list assay_file;
  bundle_investigation : list string;
  bundle_study : list (list string)
}.

Section Constructor.

(** The placeholder substitution of [create_investigation], which reads
    the platform out of [self.isa_env], and that of [create_study]. *)
Variable format : platform → string → res string.
Variable format_sample : string → string → res string.

(** [ISA_Tab.__init__] after the set-up of the environment: the assay
    template as its two rows, the other two templates as their lines. *)
Definition ISA_Tab (name : string) (headers_row standard_row : list string)
    (i_in s_in : list string) (metalist : list record) (separate_polarity : bool)
    : res bundle :=
  let '(p, warnings) := check_assay_name metalist in
  out ← create_assay name headers_row standard_row metalist separate_polarity;
  inv ← create_investigation (format p) (written_assays out) i_in;
  study ← create_study format_sample s_in (out_sample_names out);
  Ok (Bundle p warnings (files out) inv study).

End Constructor.

End Generator.

(* ===================================================================== *)
(** * Sample inputs *)
(* ===================================================================== *)

Module Sample.

Import Extractor.

Definition blank : string := EmptyString.

(** A small assay template: the MS block is columns 2 to 11, its last
    three columns are the data-transformation ones. *)
Definition headers_row : list string :=
  [ "Sample Name"; "Protocol REF"; "Parameter Value[Instrument]"; "Term Source REF";
    "Term Accession Number"; "Parameter Value[Scan polarity]";
    "Parameter Value[Scan m/z range]"; "MS Assay Name"; "Raw Spectral Data File";
    "Protocol REF"; "Normalization Name"; "Derived Spectral Data File";
    "Protocol REF"; "Metabolite Assignment File" ].

Definition standard_row : list string :=
  [ "sample"; "Mass spectrometry"; blank; blank; blank; blank; blank; blank; blank;
    "Data transformation"; blank; blank; "Metabolite identification"; blank ].

Definition val (v : string) : field := value_of v.

Definition cvParam_tag : string := "{http://psi.hupo.org/ms/mzml}cvParam".

(** Raw metadata of three runs, as [derived] and [instrument] leave them;
    only the first run names its instrument. *)
Definition meta_a : record :=
  [ ("Instrument", Plain (Annotation (Some "Q Exactive") (Some "MS:1001911") None));
    ("Raw Spectral Data File", val "a.raw");
    ("Scan polarity", val "positive") ].

Definition meta_b : record :=
  [ ("Raw Spectral Data File", val "b.raw");
    ("Scan polarity", val "positive") ].

Definition meta_c : record :=
  [ ("Raw Spectral Data File", val "c.raw");
    ("Scan polarity", val "negative") ].

Definition meta_d : record :=
  [ ("Raw Spectral Data File", val "d.raw");
    ("Scan polarity", val "positive") ].

(** [float] on the literals of the sample documents: the exact values
    of the doubles Python reads, and the infinity it reads from 1e400. *)
Definition float (s : string) : res pyfloat :=
  if decide (s = "50.0") then Ok (Fin (50 # 1))
  else if decide (s = "55.2") then Ok (Fin (3884354678607053 # 70368744177664))
  else if decide (s = "500.7") then Ok (Fin (8808407552439091 # 17592186044416))
  else if decide (s = "499.9") then Ok (Fin (4397166901801779 # 8796093022208))
  else if decide (s = "0.0023") then Ok (Fin (662929865148937 # 288230376151711744))
  else if decide (s = "12.9996") then Ok (Fin (7318124214495687 # 562949953421312))
  else if decide (s = "1e400") then Ok PInf
  else Raise ValueError.

Definition scan_cvParam (accession name value : string) : cvParam :=
  CvParam cvParam_tag accession name (Some value) None.

(** A run with one positive spectrum, the scan window 50.0 - 500.7 in one
    spectrum and 55.2 - 499.9 in another. *)
Definition run_a : run :=
  {| sp_cv := [ CvParam cvParam_tag "MS:1000511" "ms level" (Some "1") None;
                CvParam cvParam_tag "MS:1000130" "positive scan" None None ];
     scan_window_cv :=
       [ scan_cvParam "MS:1000501" "scan window lower limit" "50.0";
         scan_cvParam "MS:1000500" "scan window upper limit" "500.7";
         scan_cvParam "MS:1000501" "scan window lower limit" "55.2";
         scan_cvParam "MS:1000500" "scan window upper limit" "499.9" ];
     scan_cv := [ scan_cvParam "MS:1000016" "scan start time" "0.0023";
                  scan_cvParam "MS:1000016" "scan start time" "12.9996" ];
     spectrumList_count := ["2"];
     cv_id := ["MS"; "UO"];
     sourceFile_name := ["a.raw"];
     in_file := "a.mzML" |}.


(** An ionization cvParam and a checksum cvParam. *)

Definition source_attr : cvParam :=
  CvParam cvParam_tag "MS:1000486" "source potential" (Some "3500") None.

Definition checksum : cvParam :=
  CvParam cvParam_tag "MS:1000569" "SHA-1" (Some "71be39fb") None.

Definition rule_source_attribute : term_info :=
  TermInfo true "source_attribute" true true false.

Definition rule_checksum : term_info :=
  TermInfo false "Raw data file checksum type" true true false.

(** The first two lines of a hand-written assay file for the legacy
    updater, without an ion-source column. *)
Definition tabbed (cells : list string) : string :=
  Py.join (String Py.TAB EmptyString) cells.

Definition quoted (cell : string) : string :=
  String Py.QUOTE cell +:+ String Py.QUOTE EmptyString.

Definition legacy_header : string :=
  tabbed (quoted <$>
    [ "Sample Name"; "Protocol REF"; "Parameter Value[Scan polarity]";
      "Parameter Value[Scan m/z range]"; "Parameter Value[Instrument]";
      "Term Source REF"; "Term Accession Number";
      "Parameter Value[Mass analyzer]"; "Term Source REF";
      "Term Accession Number"; "Raw Spectral Data File"; "Protocol REF" ])
  +:+ String Py.NL EmptyString.

Definition legacy_row : string :=
  tabbed (quoted <$>
    [ "s1"; "Mass spectrometry"; "p"; "r"; "i"; "MS"; "a"; "d"; "MS"; "a"; "f";
      "Data transformation" ])
  +:+ String Py.NL EmptyString.

Definition legacy_meta : record :=
  [ ("polarity", val "positive");
    ("mzrange", val "50 - 500");
    ("instrument_manufacturer",
       Plain (Annotation (Some "Thermo") (Some "MS:1000494") None));
    ("term_source", val "MS");
    ("ionization_type",
       Plain (Annotation (Some "electrospray ionization") (Some "MS:1000073") None));
    ("detector_type", Plain (Annotation (Some "orbitrap") (Some "MS:1000484") None));
    ("raw_data_file", val "a.raw") ].

(** A fragment of the instrument branch of the ontology: Q Exactive under
    Thermo Scientific instrument model under Thermo Fisher Scientific
    instrument model, a direct child of the instrument model term. *)
Definition obo_parents (k : string) : res (list string) :=
  if decide (k = "MS:1001911") then Ok ["MS:1000494"]
  else if decide (k = "MS:1000494") then Ok ["MS:1000483"]
  else if decide (k = "MS:1000483") then Ok ["MS:1000031"]
  else Raise KeyError.

Definition obo_children (k : string) : res (list string) :=
  if decide (k = "MS:1000031") then Ok ["MS:1000121"; "MS:1000483"]
  else Raise KeyError.

Definition obo_descendents (k : string) : list string :=
  if decide (k = "MS:1000031")
  then ["MS:1000121"; "MS:1000483"; "MS:1000494"; "MS:1001911"]
  else [].

Definition obo_name (k : string) : res string :=
  if decide (k = "MS:1000483") then Ok "Thermo Fisher Scientific instrument model"
  else Raise KeyError.

(** A header row of the legacy assay file with all six columns, and its
    standard row. *)
Definition legacy_full_header : list string :=
  [ "Sample Name"; "Protocol REF"; "Parameter Value[Scan polarity]";
    "Parameter Value[Scan m/z range]"; "Parameter Value[Instrument]";
    "Term Source REF"; "Term Accession Number";
    "Parameter Value[Ion source]"; "Term Source REF"; "Term Accession Number";
    "Parameter Value[Mass analyzer]"; "Term Source REF";
    "Term Accession Number"; "Raw Spectral Data File" ].

End Sample.

(* ===================================================================== *)
(** * General lemmas: results, loops, dictionaries, strings *)
(* ===================================================================== *)

Lemma bind_Ok {A B} (m : res A) (k : A → res B) (b : B) :
  m ≫= k = Ok b → ∃ a, m = Ok a ∧ k a = Ok b.
Proof. destruct m as [a|e]; simpl; [eauto | discriminate]. Qed.

Lemma fmap_Ok {A B} (f : A → B) (m : res A) (b : B) :
  f <$> m = Ok b → ∃ a, m = Ok a ∧ b = f a.
Proof. destruct m as [a|e]; simpl; [intros [= <-]; eauto | discriminate]. Qed.

Lemma or_raise_Ok {A} (e : exn) (o : option A) (a : A) :
  or_raise e o = Ok a → o = Some a.
Proof. destruct o; simpl; congruence. Qed.

(** Takes a hypothesis [H : ... = Ok _] apart along the binds. *)
Ltac res_inv H :=
  lazymatch type of H with
  | (_ ≫= _) = Ok _ =>
      let a := fresh "a" in let Ha := fresh "Ha" in
      apply bind_Ok in H as (a & Ha & H); res_inv H
  | (_ <$> _) = Ok _ =>
      let a := fresh "a" in let Ha := fresh "Ha" in
      apply fmap_Ok in H as (a & Ha & H)
  | Ok _ = Ok _ => injection H as H
  | Raise _ = Ok _ => discriminate H
  | _ => idtac
  end.

(** An invariant of the state is kept by a loop whose body keeps it. *)
Lemma for_each_inv {A S} (P : S → Prop) (body : S → A → res S) l s s' :
  (∀ s x s', P s → x ∈ l → body s x = Ok s' → P s') →
  P s → for_each body s l = Ok s' → P s'.
Proof.
  revert s. induction l as [|x l IH]; intros s Hbody Hs H; simpl in H.
  - by injection H as <-.
  - apply bind_Ok in H as (s1 & H1 & H).
    apply (IH s1); [| |done].
    + intros t y t' Ht Hy. apply Hbody; [done|by right].
    + eapply Hbody; [done|by left|done].
Qed.

Lemma mapM_Ok {A B} (f : A → res B) l k :
  mapM f l = Ok k → Forall2 (λ x y, f x = Ok y) l k.
Proof.
  revert k. induction l as [|x l IH]; intros k H; simpl in H.
  - injection H as <-. constructor.
  - apply bind_Ok in H as (y & Hy & H). apply bind_Ok in H as (k' & Hk & H).
    injection H as <-. constructor; auto.
Qed.

Lemma mapM_total {A B} (f : A → res B) l :
  Forall (λ x, ∃ y, f x = Ok y) l → ∃ k, mapM f l = Ok k.
Proof.
  induction 1 as [|x l [y Hy] _ [k Hk]]; simpl; [by eexists|].
  rewrite Hy. simpl. rewrite Hk. simpl. by eexists.
Qed.

Section Dict.

Context {K V : Type} `{EqDecision K}.
Implicit Types (d : dict K V) (k : K) (v : V).

Lemma dict_get_set_eq d k v : dict_get k (dict_set k v d) = Some v.
Proof.
  unfold dict_get. induction d as [|[k' v'] d IH]; simpl.
  - by rewrite bool_decide_eq_true_2.
  - destruct (decide (k' = k)) as [->|Hne]; simpl.
    + by rewrite bool_decide_eq_true_2.
    + by rewrite bool_decide_eq_false_2.
Qed.

Lemma dict_get_set_ne d k k' v :
  k ≠ k' → dict_get k (dict_set k' v d) = dict_get k d.
Proof.
  intros Hne. unfold dict_get. induction d as [|[k1 v1] d IH]; simpl.
  - by rewrite bool_decide_eq_false_2.
  - destruct (decide (k1 = k')) as [->|Hne1]; simpl.
    + by rewrite !bool_decide_eq_false_2.
    + destruct (bool_decide (k1 = k)); [done|apply IH].
Qed.

Lemma keys_dict_set d k v k' : k' ∈ keys (dict_set k v d) → k' = k ∨ k' ∈ keys d.
Proof.
  unfold keys. induction d as [|[k1 v1] d IH]; simpl.
  - intros ?%list_elem_of_singleton. by left.
  - destruct (decide (k1 = k)) as [->|Hne]; simpl.
    + intros [->|?]%elem_of_cons; [by left|right; by right].
    + intros [->|?]%elem_of_cons; [right; by left|].
      destruct IH as [?|?]; [done|by left|right; by right].
Qed.

End Dict.

(** A string differs from itself followed by something. *)
Lemma append_ne (s t : string) : t ≠ EmptyString → s ≠ s +:+ t.
Proof.
  intros Ht. induction s as [|c s IH]; simpl.
  - intros H. by apply Ht.
  - intros [= H]. by apply IH.
Qed.

(* ===================================================================== *)
(** * Derived fields of the extractor *)
(* ===================================================================== *)

Section Derived.

Import Extractor.


Section DerivedRecords.

Variable float : string → res pyfloat.
Variable str_round4 : pyfloat → string.
Variable int : string → res Z.
Variable basename : string → string.
Variable splitext0 : string → string.



(** Comparison of finite floats is comparison of their values. *)
Lemma float_lt_finite (x y : pyfloat) (a b : Q) :
  finite_value x = Some a → finite_value y = Some b →
  float_lt x y = if Qlt_le_dec a b then true else false.
Proof.
  destruct x, y; simpl; try discriminate; by intros [= <-] [= <-].
Qed.

(** [min] of finite floats is a finite float whose value is below all the
    others, [max] one whose value is above. *)
Lemma py_min_spec (l : list pyfloat) (qs : list Q) :
  Forall2 (λ x q, finite_value x = Some q) l qs → qs ≠ [] →
  ∃ x m, py_min l = Ok x ∧ finite_value x = Some m ∧
         m ∈ qs ∧ ∀ q, q ∈ qs → (m <= q)%Q.
Proof.
  intros Hl Hne. destruct Hl as [|x0 q0 l qs Hx0 Hl]; [done|]. clear Hne. simpl.
  revert x0 q0 Hx0. induction Hl as [|y q l qs Hy _ IH]; intros x0 q0 Hx0; simpl.
  - exists x0, q0. split; [done|]. split; [done|]. split; [left|].
    intros q ->%list_elem_of_singleton. apply Qle_refl.
  - rewrite (float_lt_finite y x0 q q0) by done.
    destruct (Qlt_le_dec q q0) as [Hlt|Hle].
    + destruct (IH y q Hy) as (x & m & Hx & Hm & Hin & Hmin).
      exists x, m. split; [done|]. split; [done|]. split.
      * by right.
      * intros q' [->|Hq']%elem_of_cons; [|by apply Hmin].
        eapply Qle_trans; [apply Hmin; left|]. by apply Qlt_le_weak.
    + destruct (IH x0 q0 Hx0) as (x & m & Hx & Hm & Hin & Hmin).
      exists x, m. split; [done|]. split; [done|]. split.
      * apply elem_of_cons in Hin as [->|Hin]; [left|right; by right].
      * intros q' [->|[->|Hq']%elem_of_cons]%elem_of_cons.
        -- apply Hmin. left.
        -- eapply Qle_trans; [apply Hmin; left|done].
        -- apply Hmin. by right.
Qed.

Lemma py_max_spec (l : list pyfloat) (qs : list Q) :
  Forall2 (λ x q, finite_value x = Some q) l qs → qs ≠ [] →
  ∃ x m, py_max l = Ok x ∧ finite_value x = Some m ∧
         m ∈ qs ∧ ∀ q, q ∈ qs → (q <= m)%Q.
Proof.
  intros Hl Hne. destruct Hl as [|x0 q0 l qs Hx0 Hl]; [done|]. clear Hne. simpl.
  revert x0 q0 Hx0. induction Hl as [|y q l qs Hy _ IH]; intros x0 q0 Hx0; simpl.
  - exists x0, q0. split; [done|]. split; [done|]. split; [left|].
    intros q ->%list_elem_of_singleton. apply Qle_refl.
  - rewrite (float_lt_finite x0 y q0 q) by done.
    destruct (Qlt_le_dec q0 q) as [Hlt|Hle].
    + destruct (IH y q Hy) as (x & m & Hx & Hm & Hin & Hmax).
      exists x, m. split; [done|]. split; [done|]. split.
      * by right.
      * intros q' [->|Hq']%elem_of_cons; [|by apply Hmax].
        eapply Qle_trans; [|apply Hmax; left]. by apply Qlt_le_weak.
    + destruct (IH x0 q0 Hx0) as (x & m & Hx & Hm & Hin & Hmax).
      exists x, m. split; [done|]. split; [done|]. split.
      * apply elem_of_cons in Hin as [->|Hin]; [left|right; by right].
      * intros q' [->|[->|Hq']%elem_of_cons]%elem_of_cons.
        -- apply Hmax. left.
        -- eapply Qle_trans; [done|apply Hmax; left].
        -- apply Hmax. by right.
Qed.

(** [int] of a finite float is the truncation of its value. *)
Lemma py_int_finite (x : pyfloat) (q : Q) :
  finite_value x = Some q → py_int x = Ok (py_trunc q).
Proof. destruct x; simpl; try discriminate; by intros [= <-]. Qed.


(** The two lists the loop over the scan-window cvParams builds hold the
    floats of the lower-limit and of the upper-limit elements, in
    document order. *)
Lemma scan_window_limits_loop (cv : list cvParam) (lo0 hi0 lo hi : list pyfloat) :
  for_each (λ l i,
      minmz_l ← (if decide (attrib_accession i = "MS:1000501")
                 then x ← attrib_float float i; Ok (l.1 ++ [x])
                 else Ok l.1);
      maxmz_l ← (if decide (attrib_accession i = "MS:1000500")
                 then x ← attrib_float float i; Ok (l.2 ++ [x])
                 else Ok l.2);
      Ok (minmz_l, maxmz_l)) (lo0, hi0) cv = Ok (lo, hi)
  ↔ ∃ lo1 hi1,
      lo = lo0 ++ lo1 ∧ hi = hi0 ++ hi1 ∧
      Forall2 (λ i x, attrib_float float i = Ok x)
        (filter (λ i, attrib_accession i = "MS:1000501") cv) lo1 ∧
      Forall2 (λ i x, attrib_float float i = Ok x)
        (filter (λ i, attrib_accession i = "MS:1000500") cv) hi1.
Proof.
  revert lo0 hi0. induction cv as [|i cv IH]; intros lo0 hi0.
  - simpl. split.
    + intros [= <- <-]. exists [], []. rewrite !app_nil_r. by repeat split.
    + intros (lo1 & hi1 & -> & -> & ->%Forall2_nil_inv_l & ->%Forall2_nil_inv_l).
      by rewrite !app_nil_r.
  - cbn [for_each]. rewrite !filter_cons. simpl.
    destruct (decide (attrib_accession i = "MS:1000501")) as [E1|E1];
      destruct (decide (attrib_accession i = "MS:1000500")) as [E2|E2];
      try (rewrite E1 in E2; discriminate E2).
    + destruct (attrib_float float i) as [x|e] eqn:Hx; simpl.
      * rewrite IH. split.
        -- intros (lo1 & hi1 & -> & -> & H1 & H2). exists (x :: lo1), hi1.
           rewrite <- app_assoc. repeat split; try done. by constructor.
        -- intros (lo1 & hi1 & -> & -> & H1 & H2).
           apply Forall2_cons_inv_l in H1 as (y & lo2 & Hy & H1 & ->).
           rewrite Hx in Hy. injection Hy as <-.
           exists lo2, hi1. rewrite <- app_assoc. by repeat split.
      * split; [discriminate|].
        intros (lo1 & hi1 & _ & _ & H1 & _).
        apply Forall2_cons_inv_l in H1 as (y & lo2 & Hy & _).
        rewrite Hx in Hy. discriminate Hy.
    + destruct (attrib_float float i) as [x|e] eqn:Hx; simpl.
      * rewrite IH. split.
        -- intros (lo1 & hi1 & -> & -> & H1 & H2). exists lo1, (x :: hi1).
           rewrite <- app_assoc. repeat split; try done. by constructor.
        -- intros (lo1 & hi1 & -> & -> & H1 & H2).
           apply Forall2_cons_inv_l in H2 as (y & hi2 & Hy & H2 & ->).
           rewrite Hx in Hy. injection Hy as <-.
           exists lo1, hi2. rewrite <- app_assoc. by repeat split.
      * split; [discriminate|].
        intros (lo1 & hi1 & _ & _ & _ & H2).
        apply Forall2_cons_inv_l in H2 as (y & hi2 & Hy & _).
        rewrite Hx in Hy. discriminate Hy.
    + apply IH.
Qed.

Lemma scan_window_limits_spec (cv : list cvParam) (lo hi : list pyfloat) :
  scan_window_limits float cv = Ok (lo, hi)
  ↔ Forall2 (λ i x, attrib_float float i = Ok x)
      (filter (λ i, attrib_accession i = "MS:1000501") cv) lo ∧
    Forall2 (λ i x, attrib_float float i = Ok x)
      (filter (λ i, attrib_accession i = "MS:1000500") cv) hi.
Proof.
  unfold scan_window_limits. rewrite scan_window_limits_loop. simpl. split.
  - by intros (lo1 & hi1 & -> & -> & H1 & H2).
  - intros [H1 H2]. by exists lo, hi.
Qed.

(** Elements whose values are finite numbers, and the floats read from
    them. *)
Lemma finite_floats (els : list cvParam) (qs : list Q) :
  Forall2 (λ i q, ∃ x, attrib_float float i = Ok x ∧ finite_value x = Some q) els qs →
  ∃ xs, Forall2 (λ i x, attrib_float float i = Ok x) els xs ∧
        Forall2 (λ x q, finite_value x = Some q) xs qs.
Proof.
  intros H. induction H as [|i q els qs (x & Hx & Hq) _ (xs & IH1 & IH2)].
  - exists []. split; constructor.
  - exists (x :: xs). split; by constructor.
Qed.



End DerivedRecords.




End Derived.

(* ===================================================================== *)
(** * The field key of a matched element *)
(* ===================================================================== *)

Lemma foldl_inv {A B} (P : A → Prop) (f : A → B → A) (l : list B) (a : A) :
  (∀ a x, P a → P (f a x)) → P a → P (foldl f a l).
Proof. intros Hf. revert a. induction l; simpl; auto. Qed.

Section FieldKey.

Import Extractor.

Variable softwareList : list software_elem.

(** Resolving the software leaves the field of the term itself alone. *)
Lemma software_keeps (soft_ref key : string) (meta : record) :
  dict_get key (Extractor.software softwareList soft_ref key meta) = dict_get key meta.
Proof.
  unfold Extractor.software.
  apply (foldl_inv (λ m, dict_get key m = dict_get key meta)); [|done].
  intros m e Hm. destruct (decide (sw_id e = soft_ref)); [|done].
  apply (foldl_inv (λ m, dict_get key m = dict_get key meta)).
  - intros m' ie Hm'. rewrite dict_get_set_ne; [done|]. by apply append_ne.
  - destruct (decide (sw_version e = EmptyString)); [done|].
    rewrite dict_get_set_ne; [done|]. by apply append_ne.
Qed.

Lemma legacy_software_keeps (soft_ref key : string) (meta : record) :
  dict_get key (Legacy.software softwareList soft_ref key meta) = dict_get key meta.
Proof.
  unfold Legacy.software.
  apply (foldl_inv (λ m, dict_get key m = dict_get key meta)); [|done].
  intros m e Hm. destruct (decide (sw_id e = soft_ref)); [|done].
  apply (foldl_inv (λ m, dict_get key m = dict_get key meta)).
  - intros m' ie Hm'. rewrite dict_get_set_ne; [done|]. by apply append_ne.
  - destruct (decide (sw_version e = EmptyString)); [done|].
    rewrite dict_get_set_ne; [done|]. by apply append_ne.
Qed.

(** C3 (amended). Field key of a match. In the revised extractor the key
    is the raw tag name for an attribute rule and the rule's display name
    otherwise; a rule that allows multiple matches puts the annotation in
    the 'entry_list' map of that key under the running counter, any other
    rule stores the annotation itself. In the legacy extractor the key is
    the raw tag name (attribute rule) or the display name (otherwise),
    followed by the running counter when the rule allows multiple
    matches, and the annotation itself is stored. *)
Theorem field_key_of_match (info : term_info) (e : cvParam) (meta : record) (c : nat) :
  (∀ meta' c',
     Extractor.cvParam_match softwareList info e (meta, c) = Ok (meta', c') →
     let key := if attribute info then tag e else name info in
     if plus1 info then
       ∃ es, dict_get key meta' = Some (EntryList es) ∧
             dict_get c es = Some (recorded info e) ∧ c' = S c
     else dict_get key meta' = Some (Plain (recorded info e)) ∧ c' = c) ∧
  (∀ meta' c',
     Legacy.cvParam_match softwareList info e (meta, c) = Ok (meta', c') →
     let key :=
       if attribute info
       then (if plus1 info then tag e +:+ pretty c else tag e)
       else (if plus1 info then name info +:+ pretty c else name info) in
     dict_get key meta' = Some (Plain (recorded info e)) ∧
     c' = if plus1 info then S c else c).
Proof.
  split.
  - intros meta' c' H key. unfold Extractor.cvParam_match in H. fold key in H.
    apply bind_Ok in H as ([meta1 c1] & Hst & H).
    assert (dict_get key meta' = dict_get key meta1 ∧ c' = c1) as [-> ->].
    { destruct (soft info); [|by injection H as <- <-].
      apply bind_Ok in H as (ref & _ & H). injection H as <- <-.
      simpl. by rewrite software_keeps. }
    clear H. unfold recorded. destruct (plus1 info).
    + apply bind_Ok in Hst as (meta2 & H2 & Hst). injection Hst as <- <-.
      assert (∃ es1, match dict_get key meta with
                     | Some (EntryList es) =>
                         dict_set key (EntryList (dict_set c (entry_of e) es)) meta
                     | _ => dict_set key (EntryList [(c, entry_of e)]) meta
                     end = dict_set key (EntryList es1) meta
                     ∧ dict_get c es1 = Some (entry_of e)) as (es1 & Hmeta1 & Hes1).
      { destruct (dict_get key meta) as [[a|es]|].
        - eexists. split; [done|]. apply (dict_get_set_eq []).
        - eexists. split; [done|]. apply dict_get_set_eq.
        - eexists. split; [done|]. apply (dict_get_set_eq []). }
      rewrite Hmeta1 in H2. clear Hmeta1.
      destruct (value info).
      * apply bind_Ok in H2 as (v & Hv & H2). apply or_raise_Ok in Hv. rewrite Hv.
        unfold set_entry_value in H2. rewrite dict_get_set_eq in H2.
        apply bind_Ok in H2 as (a' & Ha' & H2). injection H2 as <-.
        apply or_raise_Ok in Ha'. rewrite Hes1 in Ha'. injection Ha' as <-.
        eexists. rewrite dict_get_set_eq. split; [done|].
        by rewrite dict_get_set_eq.
      * injection H2 as <-. eexists. rewrite dict_get_set_eq. by split.
    + apply bind_Ok in Hst as (meta2 & H2 & Hst). injection Hst as <- <-.
      destruct (value info).
      * apply bind_Ok in H2 as (v & Hv & H2). apply or_raise_Ok in Hv. rewrite Hv.
        injection H2 as <-. by rewrite dict_get_set_eq.
      * injection H2 as <-. by rewrite dict_get_set_eq.
  - intros meta' c' H key. unfold Legacy.cvParam_match, Legacy.meta_name_of in H.
    assert (∃ c1, (if attribute info && plus1 info then (tag e +:+ pretty c, S c)
                   else if attribute info then (tag e, c)
                   else if plus1 info then (name info +:+ pretty c, S c)
                   else (name info, c)) = (key, c1)
                  ∧ c1 = if plus1 info then S c else c) as (c1 & Hkey & Hc1).
    { subst key. destruct (attribute info), (plus1 info); simpl; by eexists. }
    rewrite Hkey in H. rewrite <- Hc1. clear Hkey Hc1.
    apply bind_Ok in H as (meta2 & H2 & H).
    assert (dict_get key meta' = dict_get key meta2 ∧ c' = c1) as [-> ->].
    { destruct (soft info); [|by injection H as <- <-].
      apply bind_Ok in H as (ref & _ & H). injection H as <- <-.
      by rewrite legacy_software_keeps. }
    split; [|done]. unfold recorded. destruct (value info).
    + apply bind_Ok in H2 as (v & Hv & H2). apply or_raise_Ok in Hv. rewrite Hv.
      injection H2 as <-. by rewrite dict_get_set_eq.
    + injection H2 as <-. by rewrite dict_get_set_eq.
Qed.

End FieldKey.

(** A checksum element under the rule of MS:1000561, which allows multiple
    matches and is no attribute rule. *)
Lemma field_key_of_match_witness :
  let ann := Annotation (Some "SHA-1") (Some "MS:1000569") (Some "71be39fb") in
  (∃ es, dict_get "Raw data file checksum type"
           [("Raw data file checksum type", EntryList [(1, ann)])]
         = Some (EntryList es) ∧ dict_get 1 es = Some ann ∧ 2 = 2) ∧
  (dict_get "Raw data file checksum type1"
     [("Raw data file checksum type1", Plain ann)] = Some (Plain ann) ∧ 2 = 2).
Proof.
  split.
  - exact (proj1 (field_key_of_match [] Sample.rule_checksum Sample.checksum [] 1)
             _ _ eq_refl).
  - exact (proj2 (field_key_of_match [] Sample.rule_checksum Sample.checksum [] 1)
             _ _ eq_refl).
Defined.

(** C3 (as stated) fails in both extractors. For an attribute rule that
    allows multiple matches the revised extractor uses the raw tag name as
    the key, without a counter; for a rule that allows multiple matches and
    is no attribute rule the legacy extractor stores the annotation under
    the display name followed by the counter, with no 'entry_list'. *)
Lemma field_key_claim_fails :
  (∃ meta',
     Extractor.cvParam_match [] Sample.rule_source_attribute Sample.source_attr ([], 1)
       = Ok (meta', 2) ∧
     keys meta' = [Sample.cvParam_tag] ∧
     dict_get (Sample.cvParam_tag +:+ pretty 1) meta' = None) ∧
  (∃ meta',
     Legacy.cvParam_match [] Sample.rule_checksum Sample.checksum ([], 1)
       = Ok (meta', 2) ∧
     keys meta' = ["Raw data file checksum type1"] ∧
     dict_get "Raw data file checksum type" meta' = None ∧
     ∀ k es, dict_get k meta' ≠ Some (EntryList es)).
Proof.
  split; eexists; (split; [vm_compute; reflexivity|]).
  - by vm_compute.
  - split; [by vm_compute|]. split; [by vm_compute|].
    intros k es. unfold dict_get. simpl.
    destruct (bool_decide _); simpl; congruence.
Qed.

(* ===================================================================== *)
(** * Column pruning *)
(* ===================================================================== *)

Section Pruning.

Import Generator.

Lemma filter_length_all {A} (P : A → Prop) `{∀ x, Decision (P x)} (l : list A) :
  length (filter P l) = length l ↔ Forall P l.
Proof.
  induction l as [|x l IH]; simpl.
  - split; [constructor|done].
  - rewrite filter_cons. destruct (decide (P x)) as [HP|HP]; simpl.
    + rewrite Forall_cons. split.
      * intros [= Hlen]. split; [done|by apply IH].
      * intros [_ Hl]. f_equal. by apply IH.
    + split.
      * intros Hlen. pose proof (length_filter P l). lia.
      * intros [? _]%Forall_cons. done.
Qed.

(** The column [i] read off all rows, and when it counts as empty. *)
Lemma column_blank (i : nat) (full_row : list (list string)) (column : list string) :
  mapM (Py.getitem i) full_row = Ok column →
  length (filter (λ c, c = EmptyString) column) = length full_row
  ↔ ∀ row, row ∈ full_row → row !! i = Some EmptyString.
Proof.
  intros H%mapM_Ok. rewrite (Forall2_length _ _ _ H), filter_length_all.
  induction H as [|row c rows cs Hc _ IH].
  - split; [intros _ ? []%elem_of_nil|constructor].
  - apply or_raise_Ok in Hc. rewrite Forall_cons, IH. split.
    + intros [-> Hall] r [->|Hr]%elem_of_cons; auto.
    + intros Hall. split.
      * specialize (Hall row (list_elem_of_here _ _)). congruence.
      * intros r Hr. apply Hall. by right.
Qed.

Lemma column_total (i : nat) (full_row : list (list string)) :
  Forall (λ row, i < length row) full_row →
  ∃ column, mapM (Py.getitem i) full_row = Ok column.
Proof.
  intros H. apply mapM_total. eapply Forall_impl; [exact H|].
  intros row Hlt. simpl in Hlt. destruct (lookup_lt_is_Some_2 row i Hlt) as [c Hc].
  exists c. unfold Py.getitem. by rewrite Hc.
Qed.

(** The loop that collects the columns to delete, from any start value
    of [delete_cols]. *)
Lemma blank_columns_loop (full_row : list (list string)) (cols acc r : list nat) :
  for_each (λ delete_cols i,
    column ← mapM (Py.getitem i) full_row;
    if decide (length (filter (λ c, c = EmptyString) column) = length full_row)
    then Ok (delete_cols ++ [i])
    else Ok delete_cols) acc cols = Ok r →
  ∀ i, i ∈ r ↔
       i ∈ acc ∨ (i ∈ cols ∧ ∀ row, row ∈ full_row → row !! i = Some EmptyString).
Proof.
  revert acc. induction cols as [|j cols IH]; intros acc H i; simpl in H.
  - injection H as <-. rewrite elem_of_nil. tauto.
  - apply bind_Ok in H as (acc' & Hstep & H).
    apply bind_Ok in Hstep as (column & Hcol & Hstep).
    rewrite (IH _ H i), elem_of_cons. pose proof (column_blank _ _ _ Hcol) as Hb.
    destruct (decide _) as [Hall|Hnot]; injection Hstep as <-.
    + rewrite elem_of_app, list_elem_of_singleton. rewrite Hb in Hall.
      intuition (subst; auto).
    + rewrite Hb in Hnot. intuition (subst; auto; done).
Qed.

Lemma blank_columns_loop_total (full_row : list (list string)) (cols acc : list nat) :
  Forall (λ i, Forall (λ row, i < length row) full_row) cols →
  ∃ r, for_each (λ delete_cols i,
         column ← mapM (Py.getitem i) full_row;
         if decide (length (filter (λ c, c = EmptyString) column) = length full_row)
         then Ok (delete_cols ++ [i])
         else Ok delete_cols) acc cols = Ok r.
Proof.
  intros H. revert acc. induction H as [|j cols Hj _ IH]; intros acc; simpl.
  - by eexists.
  - destruct (column_total _ _ Hj) as [column ->]. simpl.
    destruct (decide _); simpl; apply IH.
Qed.

Lemma elem_of_range (a b i : nat) : i ∈ Py.range a b ↔ a ≤ i < b.
Proof. unfold Py.range. rewrite list_elem_of_In, in_seq. lia. Qed.

(** The columns [blank_columns] returns. *)
Lemma blank_columns_spec (start end_ : nat) (full_row : list (list string))
    (delete_cols : list nat) :
  blank_columns start end_ full_row = Ok delete_cols →
  ∀ i, i ∈ delete_cols ↔
       start ≤ i < end_ - 3 ∧ ∀ row, row ∈ full_row → row !! i = Some EmptyString.
Proof.
  intros H i. unfold blank_columns in H.
  rewrite (blank_columns_loop _ _ _ _ H i), elem_of_nil, elem_of_range. tauto.
Qed.

Lemma blank_columns_total (start end_ : nat) (full_row : list (list string)) :
  Forall (λ row, end_ - 3 ≤ length row) full_row →
  ∃ delete_cols, blank_columns start end_ full_row = Ok delete_cols.
Proof.
  intros H. apply blank_columns_loop_total. apply Forall_forall.
  intros i Hi%elem_of_range. eapply Forall_impl; [exact H|]. simpl. lia.
Qed.

(** C8 (amended). Column pruning: on rows that reach up to the MS block's
    last 3 columns, pruning succeeds and deletes, from the header and from
    every row, exactly the columns at an index i with start <= i < end - 3
    whose cell is the empty string in every row, where start is the index
    of the 'Mass spectrometry' protocol column and end the index of
    'Metabolite identification'; every other column is retained. The
    candidates are the protocol column itself and the MS-block columns
    except the block's last 3, and with no rows at all every candidate is
    empty in every row. *)
Theorem remove_blank_columns_spec (start end_ : nat) (full_row : list (list string))
    (headers_row : list string) :
  Forall (λ row, end_ - 3 ≤ length row) full_row →
  ∃ delete_cols,
    remove_blank_columns start end_ full_row headers_row
      = Ok (Py.without delete_cols headers_row, Py.without delete_cols <$> full_row) ∧
    ∀ i, i ∈ delete_cols ↔
         start ≤ i < end_ - 3 ∧
         ∀ row, row ∈ full_row → row !! i = Some EmptyString.
Proof.
  intros H. destruct (blank_columns_total start end_ full_row H) as [d Hd].
  exists d. split.
  - unfold remove_blank_columns. by rewrite Hd.
  - by apply blank_columns_spec.
Qed.

End Pruning.

(** What [without] keeps: the cells at the indices outside [cols]. *)
Lemma elem_of_without {A} (cols : list nat) (l : list A) (x : A) :
  x ∈ Py.without cols l ↔ ∃ i, (i ∉ cols) ∧ l !! i = Some x.
Proof.
  unfold Py.without. rewrite list_elem_of_fmap. split.
  - intros ([i y] & -> & [Hi Hin]%list_elem_of_filter).
    apply elem_of_lookup_imap in Hin as (j & z & [= -> ->] & Hz). eauto.
  - intros (i & Hi & Hx). exists (i, x). split; [done|].
    apply list_elem_of_filter. split; [done|].
    apply elem_of_lookup_imap. eauto.
Qed.

(** The rows of [Sample.meta_a] and [Sample.meta_c] before pruning. *)
Lemma remove_blank_columns_spec_witness :
  let rows :=
    [ [ "sample"; "Mass spectrometry"; "Q Exactive"; "MS"; "MS:1001911"; "positive";
        Sample.blank; Sample.blank; "a.raw"; Sample.blank; Sample.blank; Sample.blank;
        "Metabolite identification"; Sample.blank ];
      [ "sample"; "Mass spectrometry"; "Q Exactive"; "MS"; "MS:1001911"; "negative";
        Sample.blank; Sample.blank; "c.raw"; Sample.blank; Sample.blank; Sample.blank;
        "Metabolite identification"; Sample.blank ] ] in
  ∃ delete_cols,
    Generator.remove_blank_columns 1 12 rows Sample.headers_row
      = Ok (Py.without delete_cols Sample.headers_row, Py.without delete_cols <$> rows) ∧
    ∀ i, i ∈ delete_cols ↔
         1 ≤ i < 12 - 3 ∧ ∀ row, row ∈ rows → row !! i = Some EmptyString.
Proof.
  intros rows. apply (remove_blank_columns_spec 1 12 rows Sample.headers_row).
  repeat constructor; simpl; lia.
Defined.

(** C8 (as stated) fails when no row was built: the 'Mass spectrometry'
    protocol column, which is not inside the MS block, is deleted with all
    the other candidates. *)
Lemma pruning_claim_fails :
  ∃ delete_cols,
    Generator.blank_columns 1 12 [] = Ok delete_cols ∧
    Generator.remove_blank_columns 1 12 [] Sample.headers_row
      = Ok ([ "Sample Name"; "Protocol REF"; "Normalization Name";
              "Derived Spectral Data File"; "Protocol REF";
              "Metabolite Assignment File" ], []) ∧
    ((λ out, Generator.file_header <$> Generator.files out) <$>
       Generator.create_assay "X" Sample.headers_row Sample.standard_row [] false)
      = Ok [ [ "Sample Name"; "Protocol REF"; "Normalization Name";
               "Derived Spectral Data File"; "Protocol REF";
               "Metabolite Assignment File" ] ] ∧
    ¬ (∀ i, i ∈ delete_cols ↔
            (1 < i < 12 ∧ i < 12 - 3 ∧
             ∀ row : list string, row ∈ [] → row !! i = Some EmptyString)).
Proof.
  exists [1; 2; 3; 4; 5; 6; 7; 8]. split; [by vm_compute|].
  split; [by vm_compute|]. split; [by vm_compute|].
  intros H. destruct (H 1) as [H1 _]. destruct H1 as [? _]; [left|lia].
Qed.

(* ===================================================================== *)
(** * Assay rows and their header *)
(* ===================================================================== *)

Section RowLengths.

Import Generator.

Lemma index_lt {A} `{EqDecision A} (x : A) (l : list A) (i : nat) :
  Py.index x l = Some i → i < length l.
Proof.
  revert i. induction l as [|y l IH]; intros i; simpl; [discriminate|].
  destruct (decide (y = x)).
  - intros [= <-]. lia.
  - destruct (Py.index x l) as [j|]; simpl; [|discriminate].
    intros [= <-]. specialize (IH j eq_refl). lia.
Qed.

Lemma setitem_length {A} (i : nat) (v : A) (l l' : list A) :
  Py.setitem i v l = Ok l' → length l' = length l.
Proof.
  unfold Py.setitem. destruct (decide _); [|discriminate].
  intros [= <-]. apply length_insert.
Qed.

Lemma setitem_z_length {A} (i : Z) (v : A) (l l' : list A) :
  Py.setitem_z i v l = Ok l' → length l' = length l.
Proof.
  unfold Py.setitem_z. destruct (Py.wrap_index _ _); [|discriminate].
  intros [= <-]. apply length_insert.
Qed.

Lemma update_row_length (main : nat) (meta_val : annotation) (row row' : list string) :
  update_row main meta_val row = Ok row' → length row' = length row.
Proof.
  unfold update_row. intros H.
  apply bind_Ok in H as ([r1 m1] & H1 & H).
  apply bind_Ok in H as ([r2 m2] & H2 & H). simpl in *.
  assert (length r1 = length row) as E1.
  { destruct (cv_name meta_val); [|by injection H1 as <- _].
    apply bind_Ok in H1 as (r & Hr & H1). injection H1 as <- _.
    by eapply setitem_length. }
  assert (length r2 = length r1) as E2.
  { destruct (cv_accession meta_val); [|by injection H2 as <- _].
    apply bind_Ok in H2 as (r & Hr & H2). apply bind_Ok in H2 as (r' & Hr' & H2).
    injection H2 as <- _. apply setitem_length in Hr, Hr'. congruence. }
  destruct (cv_value meta_val).
  - apply setitem_length in H. congruence.
  - injection H as <-. congruence.
Qed.

Lemma consume_length (indices : list nat) (items : list (nat * annotation))
    (row row' : list string) :
  consume indices items row = Ok row' → length row' = length row.
Proof.
  revert indices row. induction items as [|item items IH]; intros indices row; simpl.
  - by intros [= <-].
  - destruct (pop indices) as [[main indices']|].
    + intros H. apply bind_Ok in H as (r & Hr & H).
      apply update_row_length in Hr. apply IH in H. congruence.
    + apply IH.
Qed.

(** A field changes cells only, and no earlier row. *)
Lemma field_step_shape (idx : nat) (mass_headers : list string) (st st' : state)
    (kv : string * field) :
  field_step idx mass_headers st kv = Ok st' →
  length (pre_row st') = length (pre_row st) ∧
  length (new_mass_row st') = length (new_mass_row st) ∧
  full_row st' = full_row st.
Proof.
  destruct kv as [key value]. unfold field_step. intros H.
  apply bind_Ok in H as (st1 & H1 & H).
  assert (length (pre_row st1) = length (pre_row st) ∧
          new_mass_row st1 = new_mass_row st ∧
          full_row st1 = full_row st) as (E1 & E2 & E3).
  { destruct (decide (key = "Sample Name")); [|by injection H1 as <-].
    apply bind_Ok in H1 as (v & _ & H1). apply bind_Ok in H1 as (pre & Hpre & H1).
    injection H1 as <-. simpl. by apply setitem_length in Hpre. }
  rewrite <- E1, <- E2, <- E3. clear H1 E1 E2 E3.
  destruct value as [a|list_item].
  - destruct (Py.index key mass_headers) as [main|]; [|by injection H as <-].
    apply bind_Ok in H as (row & Hrow & H). injection H as <-. simpl.
    by apply update_row_length in Hrow.
  - apply bind_Ok in H as (row & Hrow & H). injection H as <-. simpl.
    by apply consume_length in Hrow.
Qed.

(** A field other than 'Sample Name' leaves the sample names alone. *)
Lemma field_step_sample_names (idx : nat) (mass_headers : list string) (st st' : state)
    (kv : string * field) :
  kv.1 ≠ "Sample Name" →
  field_step idx mass_headers st kv = Ok st' → sample_names st' = sample_names st.
Proof.
  destruct kv as [key value]. simpl. intros Hkey. unfold field_step.
  destruct (decide (key = "Sample Name")); [done|]. simpl.
  destruct value as [a|list_item].
  - destruct (Py.index key mass_headers) as [main|]; [|by intros [= <-]].
    intros H. apply bind_Ok in H as (row & _ & H). by injection H as <-.
  - intros H. apply bind_Ok in H as (row & _ & H). by injection H as <-.
Qed.

Section Loop.

Variable idx : nat.
Variable mass_headers post_row : list string.
Variables a b : nat.

Lemma record_step_shape (st st' : state) (file_meta : record) :
  well_shaped post_row a b st →
  record_step idx mass_headers post_row st file_meta = Ok st' →
  well_shaped post_row a b st'.
Proof.
  intros Hst H. unfold record_step in H. apply bind_Ok in H as (st1 & H1 & H).
  assert (well_shaped post_row a b st1) as (Ea & Eb & Erows).
  { revert H1. apply for_each_inv; [|done].
    intros s kv s' (Ea & Eb & Erows) _ Hs.
    apply field_step_shape in Hs as (E1 & E2 & E3).
    unfold well_shaped. rewrite E1, E2, E3. done. }
  injection H as <-. unfold well_shaped. simpl. split; [done|]. split; [done|].
  apply Forall_app. split; [done|]. constructor; [|constructor].
  rewrite !length_app. lia.
Qed.

Lemma record_step_sample_names (st st' : state) (file_meta : record) :
  "Sample Name" ∉ keys file_meta →
  record_step idx mass_headers post_row st file_meta = Ok st' →
  sample_names st' = sample_names st.
Proof.
  intros Hkeys H. unfold record_step in H. apply bind_Ok in H as (st1 & H1 & H).
  injection H as <-. simpl. revert H1.
  apply (for_each_inv (λ s, sample_names s = sample_names st)); [|done].
  intros s kv s' Hs Hkv Hstep. rewrite <- Hs.
  eapply field_step_sample_names; [|done].
  intros Heq. apply Hkeys. unfold keys. rewrite <- Heq.
  by apply list_elem_of_fmap_2.
Qed.

End Loop.

Lemma without_length_from {A B} (cols : list nat) (g : nat → nat)
    (l : list A) (k : list B) :
  length l = length k →
  length (filter (λ p, p.1 ∉ cols) (imap (λ i v, (g i, v)) l))
  = length (filter (λ p, p.1 ∉ cols) (imap (λ i v, (g i, v)) k)).
Proof.
  revert k g. induction l as [|x l IH]; intros [|y k] g; simpl; try done.
  intros [= Hlen]. rewrite !filter_cons. simpl.
  destruct (decide (g 0 ∉ cols)); simpl; [f_equal|]; exact (IH k (g ∘ S) Hlen).
Qed.

(** Deleting columns from two lists of the same length leaves two lists
    of the same length. *)
Lemma without_length {A B} (cols : list nat) (l : list A) (k : list B) :
  length l = length k → length (Py.without cols l) = length (Py.without cols k).
Proof.
  intros Hlen. unfold Py.without. rewrite !length_fmap.
  by apply (without_length_from cols (λ i, i)).
Qed.

Lemma write_rows_length (n : nat) (headers_row : list string) (sel : list string → bool)
    (all_rows written rows' : list (list string)) :
  Forall (λ row, length row = n) all_rows →
  write_rows headers_row sel all_rows = Ok (written, rows') →
  Forall (λ row, length row = n) written ∧ Forall (λ row, length row = n) rows'.
Proof.
  intros Hall H. unfold write_rows in H.
  apply bind_Ok in H as (i & _ & H). apply bind_Ok in H as (marked & Hm & H).
  injection H as <- <-. apply mapM_Ok in Hm.
  assert (Forall (λ m : bool * list string, length m.2 = n) marked) as Hmarked.
  { induction Hm as [|row m rows ms Hrow _ IH]; [constructor|].
    apply Forall_cons in Hall as [Hr Hall]. constructor; [|by apply IH].
    destruct (sel row).
    - apply bind_Ok in Hrow as (row' & Hrow' & Hrow). injection Hrow as <-.
      simpl. apply setitem_z_length in Hrow'. congruence.
    - by injection Hrow as <-. }
  split.
  - apply Forall_fmap, Forall_forall. intros m [_ Hin]%list_elem_of_filter.
    by apply (proj1 (Forall_forall _ _) Hmarked).
  - by apply Forall_fmap.
Qed.

(** Every file has the header it was given and rows of the given length. *)
Lemma write_assays_length (n : nat) (name : string) (pol : nat) (separate_polarity : bool)
    (headers_row : list string) (full_row : list (list string)) (fs : list assay_file) :
  Forall (λ row, length row = n) full_row →
  write_assays name pol separate_polarity headers_row full_row = Ok fs →
  Forall (λ f, file_header f = headers_row ∧
               Forall (λ row, length row = n) (file_rows f)) fs.
Proof.
  intros Hall H. unfold write_assays in H.
  apply bind_Ok in H as (cells & _ & H).
  destruct (_ || _).
  - apply bind_Ok in H as ([w rows'] & Hw & H). injection H as <-.
    apply (write_rows_length n) in Hw as [Hw _]; [|done].
    constructor; [|constructor]. by split.
  - apply fmap_Ok in H as ([rows fs'] & H & ->). simpl.
    cut (Forall (λ row, length row = n) rows ∧
         Forall (λ f, file_header f = headers_row ∧
                      Forall (λ row, length row = n) (file_rows f)) fs').
    { by intros [_ ?]. }
    revert H.
    apply (for_each_inv (λ st : list (list string) * list assay_file,
             Forall (λ row, length row = n) st.1 ∧
             Forall (λ f, file_header f = headers_row ∧
                          Forall (λ row, length row = n) (file_rows f)) st.2));
      [|by split].
    intros [rows1 fs1] polarity [rows2 fs2] [Hrows Hfs] _ Hstep. simpl in *.
    apply bind_Ok in Hstep as ([w rows'] & Hw & Hstep). injection Hstep as <- <-.
    apply (write_rows_length n) in Hw as [Hw Hrows']; [|done].
    split; [done|]. apply Forall_app. split; [done|].
    constructor; [|constructor]. by split.
Qed.

End RowLengths.

Section AssayInvariant.

Import Generator.

Variables headers_row standard_row : list string.
Variable lay : layout.

Hypothesis same_length : length headers_row = length standard_row.
Hypothesis located : locate headers_row standard_row = Ok lay.
Hypothesis block : mass_protocol_idx lay < mass_end_idx lay.

Lemma located_end : mass_end_idx lay < length standard_row.
Proof using located.
  clear same_length block. pose proof located as H. unfold locate in H.
  apply bind_Ok in H as (s & _ & H). apply bind_Ok in H as (p & _ & H).
  apply bind_Ok in H as (e & He & H). apply bind_Ok in H as (pol & _ & H).
  injection H as <-. simpl. apply or_raise_Ok in He. by eapply index_lt.
Qed.

Lemma build_rows_length (metalist : list record) (st : state) :
  build_rows lay headers_row standard_row metalist = Ok st →
  Forall (λ row, length row = length headers_row) (full_row st).
Proof using same_length located block.
  pose proof located_end as Hend. unfold build_rows. intros H.
  set (post_row := Py.slice_from (mass_end_idx lay) standard_row) in *.
  set (mass_headers :=
         Py.slice (mass_protocol_idx lay + 1) (mass_end_idx lay) headers_row) in *.
  assert (well_shaped post_row (mass_protocol_idx lay + 1) (length mass_headers) st)
    as (_ & _ & Hrows).
  { revert H. apply for_each_inv.
    - intros s file_meta s' Hs _. by apply record_step_shape.
    - split; [|split; [|constructor]]; simpl.
      + unfold Py.slice_to. rewrite length_take. lia.
      + apply length_replicate. }
  eapply Forall_impl; [exact Hrows|]. intros row ->.
  unfold mass_headers, post_row, Py.slice, Py.slice_from.
  rewrite length_take, !length_drop. lia.
Qed.

Lemma pruned_length (full_row : list (list string))
    (pruned : list string * list (list string)) :
  Forall (λ row, length row = length headers_row) full_row →
  remove_blank_columns (mass_protocol_idx lay) (mass_end_idx lay) full_row headers_row
    = Ok pruned →
  Forall (λ row, length row = length pruned.1) pruned.2.
Proof.
  intros Hrows H. unfold remove_blank_columns in H.
  apply bind_Ok in H as (delete_cols & _ & H). injection H as <-. simpl.
  apply Forall_fmap. eapply Forall_impl; [exact Hrows|].
  intros row Hrow. simpl. by apply without_length.
Qed.

(** C9. Row/header length invariant: on a template whose header and
    default row have the same number of cells and whose
    'Mass spectrometry' cell comes before its 'Metabolite identification'
    cell, every row has as many cells as the header after row
    construction, every row has as many cells as the pruned header after
    column pruning, and every written assay file has rows of the length
    of its written header. *)
Theorem assay_rows_match_header (name : string) (metalist : list record)
    (separate_polarity : bool) :
  (∀ st, build_rows lay headers_row standard_row metalist = Ok st →
     Forall (λ row, length row = length headers_row) (full_row st)) ∧
  (∀ st pruned,
     build_rows lay headers_row standard_row metalist = Ok st →
     remove_blank_columns (mass_protocol_idx lay) (mass_end_idx lay)
       (full_row st) headers_row = Ok pruned →
     Forall (λ row, length row = length pruned.1) pruned.2) ∧
  (∀ out,
     create_assay name headers_row standard_row metalist separate_polarity = Ok out →
     Forall (λ f, Forall (λ row, length row = length (file_header f)) (file_rows f))
            (files out)).
Proof using same_length located block.
  split; [|split].
  - apply build_rows_length.
  - intros st pruned Hst. apply pruned_length. by eapply build_rows_length.
  - intros out H. unfold create_assay in H. rewrite located in H. simpl in H.
    apply bind_Ok in H as (st & Hst & H). apply bind_Ok in H as (pruned & Hp & H).
    apply bind_Ok in H as (fs & Hfs & H). injection H as <-. simpl.
    apply build_rows_length in Hst. apply (pruned_length _ _ Hst) in Hp.
    apply (write_assays_length _ _ _ _ _ _ _ Hp) in Hfs.
    eapply Forall_impl; [exact Hfs|]. intros f [-> Hf]. exact Hf.
Qed.

End AssayInvariant.

(** The three sample runs, split by polarity. *)
Lemma assay_rows_match_header_witness :
  ∃ out,
    Generator.create_assay "X" Sample.headers_row Sample.standard_row
      (Extractor.isa_tab_compatible <$> [Sample.meta_a; Sample.meta_b; Sample.meta_c])
      true = Ok out ∧
    length (Generator.files out) = 2 ∧
    Forall (λ f, Forall (λ row, length row = length (Generator.file_header f))
                        (Generator.file_rows f))
           (Generator.files out).
Proof.
  eexists. split; [vm_compute; reflexivity|]. split; [reflexivity|].
  apply (proj2 (proj2
    (assay_rows_match_header Sample.headers_row Sample.standard_row
       (Generator.Layout 0 1 12 5) eq_refl eq_refl ltac:(simpl; lia) "X"
       (Extractor.isa_tab_compatible <$> [Sample.meta_a; Sample.meta_b; Sample.meta_c])
       true))).
  vm_compute. reflexivity.
Defined.

(* ===================================================================== *)
(** * Sample names *)
(* ===================================================================== *)

Section SampleNames.

Import Extractor Generator.

Lemma isa_name_not_sample (meta_name : string) : isa_name meta_name ≠ "Sample Name".
Proof.
  unfold isa_name. destruct (bool_decide (meta_name ∈ keep)) eqn:Hkeep.
  - apply bool_decide_eq_true_1 in Hkeep. unfold keep in Hkeep.
    repeat (apply elem_of_cons in Hkeep as [->|Hkeep]; [discriminate|]).
    by apply elem_of_nil in Hkeep.
  - discriminate.
Qed.

Lemma isa_tab_compatible_keys (meta : record) (k : string) :
  k ∈ keys (isa_tab_compatible meta) → ∃ meta_name, k = isa_name meta_name.
Proof.
  unfold isa_tab_compatible. revert k.
  apply (foldl_inv (λ d : record, ∀ k, k ∈ keys d → ∃ m, k = isa_name m)).
  - intros d f Hd k [->|Hk]%keys_dict_set; eauto.
  - intros k []%elem_of_nil.
Qed.

Lemma build_rows_sample_names (lay : layout) (headers_row standard_row : list string)
    (metalist : list record) (st : state) :
  Forall (λ file_meta, "Sample Name" ∉ keys file_meta) metalist →
  build_rows lay headers_row standard_row metalist = Ok st →
  sample_names st = [].
Proof.
  intros Hkeys. unfold build_rows.
  apply (for_each_inv (λ s, sample_names s = [])); [|done].
  intros s file_meta s' Hs Hin Hstep. rewrite <- Hs.
  eapply record_step_sample_names; [|exact Hstep].
  by apply (proj1 (Forall_forall _ _) Hkeys).
Qed.

(** C10. The ISA-renamed projection of a record never has a field keyed
    'Sample Name': every key is one of the six names kept verbatim or has
    the form 'Parameter Value[<name>]'. Hence, whenever the generator
    builds the assay from records projected by the extractor, the list of
    sample names it leaves is empty, and the study file written from a
    two-line template holds the header row and no sample row. *)
Theorem no_sample_name_from_extractor (metas : list record) :
  (∀ meta k, k ∈ keys (isa_tab_compatible meta) →
     k ≠ "Sample Name" ∧
     (k ∈ keep ∨ ∃ meta_name, k = "Parameter Value[" +:+ meta_name +:+ "]")) ∧
  (∀ name headers_row standard_row separate_polarity out,
     create_assay name headers_row standard_row
       (isa_tab_compatible <$> metas) separate_polarity = Ok out →
     out_sample_names out = [] ∧
     ∀ format_sample headers_line default_line,
       create_study format_sample [headers_line; default_line] (out_sample_names out)
       = Ok [Py.split Py.TAB (Py.remove_char Py.QUOTE (Py.rstrip headers_line))]).
Proof.
  split.
  - intros meta k [m ->]%isa_tab_compatible_keys.
    split; [apply isa_name_not_sample|]. unfold isa_name.
    destruct (bool_decide (m ∈ keep)) eqn:Hkeep.
    + left. by apply bool_decide_eq_true_1 in Hkeep.
    + right. by exists m.
  - intros name headers_row standard_row separate_polarity out H.
    unfold create_assay in H. apply bind_Ok in H as (lay & _ & H).
    apply bind_Ok in H as (st & Hst & H). apply bind_Ok in H as (pruned & _ & H).
    apply bind_Ok in H as (fs & _ & H). injection H as <-. simpl.
    apply build_rows_sample_names in Hst as ->; [done|].
    apply Forall_fmap, Forall_forall. intros meta _ Hin. simpl in Hin.
    apply isa_tab_compatible_keys in Hin as [m Hm].
    by apply (isa_name_not_sample m).
Qed.

End SampleNames.

(** The three sample runs: the study file is its header row. *)
Lemma no_sample_name_from_extractor_witness :
  ∃ out,
    Generator.create_assay "X" Sample.headers_row Sample.standard_row
      (Extractor.isa_tab_compatible <$> [Sample.meta_a; Sample.meta_b; Sample.meta_c])
      true = Ok out ∧
    Generator.out_sample_names out = [] ∧
    Generator.create_study (λ l _, Ok l)
      [ Sample.tabbed ["Sample Name"; "Protocol REF"];
        Sample.tabbed ["{name}"; "Sample collection"] ]
      (Generator.out_sample_names out)
    = Ok [["Sample Name"; "Protocol REF"]].
Proof.
  destruct (Generator.create_assay "X" Sample.headers_row Sample.standard_row
              (Extractor.isa_tab_compatible <$>
                 [Sample.meta_a; Sample.meta_b; Sample.meta_c]) true)
    as [out|e] eqn:Hout; [|vm_compute in Hout; discriminate Hout].
  exists out. split; [reflexivity|].
  destruct (proj2 (no_sample_name_from_extractor
                     [Sample.meta_a; Sample.meta_b; Sample.meta_c])
              "X" Sample.headers_row Sample.standard_row true out Hout) as [Hs Hstudy].
  split; [exact Hs|]. rewrite Hstudy. vm_compute. reflexivity.
Defined.

(* ===================================================================== *)
(** * The generator and the legacy updater on the sample inputs *)
(* ===================================================================== *)

(** C1. On two records of which only the first names its instrument, the
    row of the second record still carries the instrument cells of the
    first, although the second record alone leaves these cells empty: the
    MS-block row is set up once, before the loop over the records. *)
Theorem earlier_values_persist :
  let lay := Generator.Layout 0 1 12 5 in
  let rec_a := Extractor.isa_tab_compatible Sample.meta_a in
  let rec_c := Extractor.isa_tab_compatible Sample.meta_c in
  dict_get "Parameter Value[Instrument]" rec_c = None ∧
  (∃ st row_c,
     Generator.build_rows lay Sample.headers_row Sample.standard_row [rec_a; rec_c]
       = Ok st ∧
     Generator.full_row st !! 1 = Some row_c ∧
     row_c !! 2 = Some "Q Exactive" ∧ row_c !! 3 = Some "MS" ∧
     row_c !! 4 = Some "MS:1001911") ∧
  (∃ st row_c,
     Generator.build_rows lay Sample.headers_row Sample.standard_row [rec_c] = Ok st ∧
     Generator.full_row st !! 0 = Some row_c ∧
     row_c !! 2 = Some EmptyString ∧ row_c !! 3 = Some EmptyString ∧
     row_c !! 4 = Some EmptyString).
Proof.
  split; [by vm_compute|].
  split; eexists; eexists; (split; [vm_compute; reflexivity|]); by vm_compute.
Qed.

(** C2. On three records without instrument, with polarities positive,
    positive and negative and with splitting enabled, pruning moves the
    'Parameter Value[Scan polarity]' column from index 5 to index 2, the
    generator still reads index 5 (found in the header before pruning),
    sees one value there, and writes a single assay file with all three
    rows. *)
Theorem polarity_read_at_stale_index :
  let metalist :=
    Extractor.isa_tab_compatible <$> [Sample.meta_b; Sample.meta_d; Sample.meta_c] in
  ∃ out f,
    Generator.create_assay "X" Sample.headers_row Sample.standard_row metalist true
      = Ok out ∧
    Generator.polarity_idx <$> Generator.locate Sample.headers_row Sample.standard_row
      = Ok 5 ∧
    Generator.files out = [f] ∧
    Generator.file_name f = "a_X_metabolite_profiling_mass_spectrometry.txt" ∧
    Py.index "Parameter Value[Scan polarity]" (Generator.file_header f) = Some 2 ∧
    (λ row, row !! 2) <$> Generator.file_rows f
      = [Some "positive"; Some "positive"; Some "negative"] ∧
    (λ row, row !! 5) <$> Generator.file_rows f
      = [Some EmptyString; Some EmptyString; Some EmptyString].
Proof.
  intros metalist. eexists. eexists. split; [vm_compute; reflexivity|].
  split; [by vm_compute|]. split; [reflexivity|]. by vm_compute.
Qed.

(** C4. On an assay file without the 'Parameter Value[Ion source]' column
    and one record, the missing column is reported, the two columns looked
    up after it ('Parameter Value[Mass analyzer]', 'Raw Spectral Data File')
    are present in the header but never located, and the run ends with a
    NameError at the first use of the ion-source index: the header is
    written and no row. *)
Theorem legacy_update_stops_at_missing_column :
  let headers_l := Py.split Py.TAB (Py.remove_char Py.QUOTE Sample.legacy_header) in
  Py.index "Parameter Value[Mass analyzer]" headers_l = Some 7 ∧
  Py.index "Raw Spectral Data File" headers_l = Some 10 ∧
  Legacy.locate (Py.slice_from 2 headers_l) 2
    = (Legacy.Columns (Some 2) (Some 3) (Some 4) None None None,
       Some "Parameter Value[Ion source]") ∧
  Legacy.isa_assay_file Sample.legacy_header Sample.legacy_row [Sample.legacy_meta]
    = Legacy.Outcome (Some "Parameter Value[Ion source]") [headers_l] (Some NameError).
Proof. by vm_compute. Qed.

(** C5. With no record and splitting enabled no assay file is written, and
    the 'Study Assay' lines of the investigation template are still
    rewritten: the file-name line loses its value cell, any other line
    keeps an empty one. *)
Theorem study_assay_lines_without_assay :
  let nl := String Py.NL EmptyString in
  let file_name_line :=
    Sample.tabbed ["Study Assay File Name"; "{assay_file_name}"] +:+ nl in
  let technology_line :=
    Sample.tabbed ["Study Assay Technology Type"; "mass spectrometry"] +:+ nl in
  Generator.written_assays <$>
    Generator.create_assay "X" Sample.headers_row Sample.standard_row [] true = Ok [] ∧
  Generator.expand_study_assay [] file_name_line = Ok ("Study Assay File Name" +:+ nl) ∧
  Generator.expand_study_assay [] file_name_line ≠ Ok file_name_line ∧
  Generator.expand_study_assay [] technology_line
    = Ok (Sample.tabbed ["Study Assay Technology Type"; Sample.blank] +:+ nl) ∧
  Generator.expand_study_assay [] technology_line ≠ Ok technology_line.
Proof. vm_compute. repeat split; discriminate. Qed.

(** The first three characters do not tell "positive" from
    "positive/negative": with these two polarities in the column that is
    read, both files get the same name, and the second replaces the
    first. *)
Lemma polarity_file_names_collide :
  let both : record :=
    [ ("Instrument", Plain (Annotation (Some "Q Exactive") (Some "MS:1001911") None));
      ("Scan polarity", value_of "positive/negative") ] in
  let metalist := Extractor.isa_tab_compatible <$> [Sample.meta_a; both] in
  Generator.written_assays <$>
    Generator.create_assay "X" Sample.headers_row Sample.standard_row metalist true
  = Ok [ "a_X_metabolite_profiling_mass_spectrometry_POS.txt";
         "a_X_metabolite_profiling_mass_spectrometry_POS.txt" ].
Proof. by vm_compute. Qed.

(* ===================================================================== *)
(** * Further properties of the generator *)
(* ===================================================================== *)

Section RowUpdate.

Import Generator.

Lemma setitem_lookup {A} (i : nat) (v : A) (l l' : list A) :
  Py.setitem i v l = Ok l' →
  i < length l ∧ ∀ j, l' !! j = if decide (j = i) then Some v else l !! j.
Proof.
  unfold Py.setitem. destruct (decide (i < length l)) as [Hi|]; [|discriminate].
  intros [= <-]. split; [done|]. intros j. destruct (decide (j = i)) as [->|Hne].
  - by apply list_lookup_insert_eq.
  - by apply list_lookup_insert_ne.
Qed.

Lemma setitem_Raise {A} (i : nat) (v : A) (l : list A) (e : exn) :
  Py.setitem i v l = Raise e → e = IndexError ∧ length l ≤ i.
Proof.
  unfold Py.setitem. destruct (decide (i < length l)); [discriminate|].
  intros [= <-]. split; [done|lia].
Qed.

Lemma setitem_Ok {A} (i : nat) (v : A) (l : list A) :
  i < length l → Py.setitem i v l = Ok (<[i := v]> l).
Proof. intros Hi. unfold Py.setitem. by destruct (decide (i < length l)). Qed.

Lemma lookup_insert_decide {A} (i j : nat) (v : A) (l : list A) :
  <[i := v]> l !! j = if decide (j = i ∧ i < length l) then Some v else l !! j.
Proof.
  destruct (decide (j = i ∧ i < length l)) as [[-> Hi]|Hne].
  - by apply list_lookup_insert_eq.
  - destruct (decide (i = j)) as [->|Hij].
    + rewrite list_insert_ge; [done|lia].
    + by apply list_lookup_insert_ne.
Qed.

(** X1. The row-update rule writes the cells of the annotation (name, "MS",
    accession, value, as far as present) into consecutive columns from
    the target column on and changes no other cell; it raises IndexError
    exactly when there is a cell to write and the row is too short for
    the cells. *)
Theorem update_row_cells (main : nat) (a : annotation) (row : list string) :
  if decide (annotation_cells a = [] ∨ main + length (annotation_cells a) ≤ length row)
  then ∃ row',
         update_row main a row = Ok row' ∧ length row' = length row ∧
         ∀ j, row' !! j =
              if decide (main ≤ j < main + length (annotation_cells a))
              then annotation_cells a !! (j - main) else row !! j
  else update_row main a row = Raise IndexError.
Proof.
  destruct (decide (annotation_cells a = [] ∨ _)) as [Hfit|Hshort].
  - destruct a as [[n|] [acc|] [v|]]; unfold update_row, annotation_cells in *;
      simpl in *; (destruct Hfit as [?|Hfit]; [try done|]).
    all: repeat (rewrite setitem_Ok by (rewrite ?length_insert; lia); simpl).
    all: eexists; (split; [reflexivity|]); (split; [by rewrite ?length_insert|]).
    all: intros j; rewrite ?lookup_insert_decide, ?length_insert.
    all: repeat case_decide; try lia; try done.
    all: try (by replace (j - main) with 0 by lia).
    all: try (by replace (j - main) with 1 by lia).
    all: try (by replace (j - main) with 2 by lia).
    all: try (by replace (j - main) with 3 by lia).
  - assert (annotation_cells a ≠ [] ∧ length row < main + length (annotation_cells a))
      as [Hne Hlt] by (split; [intros ?; apply Hshort; by left | lia]).
    clear Hshort.
    destruct a as [[n|] [acc|] [v|]]; unfold update_row, annotation_cells in *;
      simpl in *; try done.
    all: unfold Py.setitem; repeat (case_decide; simpl; try done);
      rewrite ?length_insert in *; lia.
Qed.

End RowUpdate.

Section Rows.

Import Generator.

Lemma for_each_app {A S} (body : S → A → res S) (s : S) (l1 l2 : list A) :
  for_each body s (l1 ++ l2) = s1 ← for_each body s l1; for_each body s1 l2.
Proof.
  revert s. induction l1 as [|x l1 IH]; intros s; simpl; [done|].
  destruct (body s x) as [s'|e]; simpl; [apply IH|done].
Qed.

Lemma pop_snoc {A} (l : list A) (x : A) : pop (l ++ [x]) = Some (x, l).
Proof. unfold pop. rewrite rev_unit. by rewrite rev_involutive. Qed.

Lemma consume_no_column (items : list (nat * annotation)) (row : list string) :
  consume [] items row = Ok row.
Proof. induction items as [|item items IH]; simpl; [done|apply IH]. Qed.

(** X2. The entries of an aggregate field go, in their order, into the
    columns of that header taken from left to right, one entry per column:
    entries beyond the last such column are passed over, and columns beyond
    the last entry stay as they are. *)
Theorem consume_pairs_columns (cols : list nat) (items : list (nat * annotation))
    (row : list string) :
  consume (rev cols) items row
  = for_each (λ r p, update_row p.1 p.2.2 r) row (zip cols items).
Proof.
  revert cols row. induction items as [|item items IH]; intros cols row.
  - by destruct cols.
  - destruct cols as [|c cols]; [apply consume_no_column|].
    simpl. rewrite pop_snoc. simpl.
    destruct (update_row c item.2 row) as [row'|e]; simpl; [apply IH|done].
Qed.

(** The loop over the records only appends rows. *)
Lemma record_loop_appends (idx : nat) (mass_headers post_row : list string)
    (metalist : list record) (st st' : state) :
  for_each (record_step idx mass_headers post_row) st metalist = Ok st' →
  ∃ rows, full_row st' = full_row st ++ rows ∧ length rows = length metalist.
Proof.
  revert st. induction metalist as [|m l IH]; intros st H; simpl in H.
  - injection H as <-. exists []. by rewrite app_nil_r.
  - apply bind_Ok in H as (st1 & H1 & H). apply IH in H as (rows & -> & Hlen).
    unfold record_step in H1. apply bind_Ok in H1 as (st0 & H0 & H1).
    injection H1 as <-. simpl.
    assert (full_row st0 = full_row st) as ->.
    { revert H0. apply (for_each_inv (λ s, full_row s = full_row st)); [|done].
      intros s kv s' Hs _ Hstep. apply field_step_shape in Hstep as (_ & _ & ->).
      done. }
    eexists. rewrite <- app_assoc. split; [done|]. simpl. by rewrite Hlen.
Qed.

(** X3. Row construction emits one row per record, and the rows of the
    earlier records are final: processing further records leaves them as
    they were. *)
Theorem build_rows_prefix (lay : layout) (headers_row standard_row : list string)
    (metalist more : list record) (st : state) :
  build_rows lay headers_row standard_row (metalist ++ more) = Ok st →
  length (full_row st) = length (metalist ++ more) ∧
  ∃ st1, build_rows lay headers_row standard_row metalist = Ok st1 ∧
         full_row st1 `prefix_of` full_row st.
Proof.
  intros H. split.
  - unfold build_rows in H. apply record_loop_appends in H as (rows & -> & <-). done.
  - unfold build_rows in *. rewrite for_each_app in H.
    apply bind_Ok in H as (st1 & H1 & H). exists st1. split; [done|].
    apply record_loop_appends in H as (rows & -> & _). by exists rows.
Qed.

End Rows.

Lemma build_rows_prefix_witness :
  ∃ st st1,
    Generator.build_rows (Generator.Layout 0 1 12 5) Sample.headers_row
      Sample.standard_row
      (Extractor.isa_tab_compatible <$> [Sample.meta_a; Sample.meta_c]) = Ok st ∧
    Generator.build_rows (Generator.Layout 0 1 12 5) Sample.headers_row
      Sample.standard_row
      (Extractor.isa_tab_compatible <$> [Sample.meta_a]) = Ok st1 ∧
    length (Generator.full_row st) = 2 ∧
    Generator.full_row st1 `prefix_of` Generator.full_row st.
Proof.
  destruct (Generator.build_rows (Generator.Layout 0 1 12 5) Sample.headers_row
              Sample.standard_row
              (Extractor.isa_tab_compatible <$> [Sample.meta_a; Sample.meta_c]))
    as [st|e] eqn:H; [|vm_compute in H; discriminate H].
  destruct (build_rows_prefix (Generator.Layout 0 1 12 5) Sample.headers_row
              Sample.standard_row [Extractor.isa_tab_compatible Sample.meta_a]
              [Extractor.isa_tab_compatible Sample.meta_c] st H)
    as (Hlen & st1 & H1 & Hpre).
  exists st, st1. split; [reflexivity|]. split; [exact H1|]. split; [exact Hlen|exact Hpre].
Defined.

Section SampleNameList.

Import Generator.

Lemma field_step_sample_name (idx : nat) (mass_headers : list string) (st st' : state)
    (kv : string * field) :
  field_step idx mass_headers st kv = Ok st' →
  sample_names st' = sample_names st ++ option_list (sample_name_of kv).
Proof.
  destruct kv as [key value]. unfold field_step, sample_name_of. simpl. intros H.
  apply bind_Ok in H as (st1 & H1 & H).
  assert (sample_names st' = sample_names st1) as ->.
  { destruct value as [a|list_item].
    - destruct (Py.index key mass_headers) as [main|]; [|by injection H as <-].
      apply bind_Ok in H as (row & _ & H). by injection H as <-.
    - apply bind_Ok in H as (row & _ & H). by injection H as <-. }
  destruct (decide (key = "Sample Name")).
  - apply bind_Ok in H1 as (v & Hv & H1). apply bind_Ok in H1 as (pre & _ & H1).
    injection H1 as <-. simpl. destruct value as [a|]; [|discriminate].
    apply or_raise_Ok in Hv. by rewrite Hv.
  - injection H1 as <-. simpl. by rewrite app_nil_r.
Qed.

Lemma build_rows_sample_name_list (lay : layout) (headers_row standard_row : list string)
    (metalist : list record) (st : state) :
  build_rows lay headers_row standard_row metalist = Ok st →
  sample_names st = omap sample_name_of (concat metalist).
Proof.
  unfold build_rows.
  set (body := record_step _ _ _). set (st0 := State _ _ _ _).
  change (omap sample_name_of (concat metalist))
    with (sample_names st0 ++ omap sample_name_of (concat metalist)).
  generalize st0. clear st0. revert st.
  induction metalist as [|m l IH]; intros st st0 H; simpl in H.
  - injection H as <-. simpl. by rewrite app_nil_r.
  - apply bind_Ok in H as (st1 & H1 & H). apply IH in H as ->.
    simpl. rewrite omap_app, app_assoc. f_equal.
    unfold body, record_step in H1. apply bind_Ok in H1 as (st2 & H2 & H1).
    injection H1 as <-. simpl. clear -H2. revert st0 H2.
    induction m as [|kv m IHm]; intros st0 H2; simpl in H2.
    + injection H2 as <-. simpl. by rewrite app_nil_r.
    + apply bind_Ok in H2 as (st3 & H3 & H2). apply IHm in H2 as ->.
      apply field_step_sample_name in H3 as ->. simpl.
      rewrite <- app_assoc. f_equal. by destruct (sample_name_of kv).
Qed.

(** X4. The running list of sample names holds, in order, the values of
    all 'Sample Name' fields of all records, and nothing else. *)
Theorem sample_names_listed (lay : layout) (headers_row standard_row : list string)
    (metalist : list record) (st : state) :
  build_rows lay headers_row standard_row metalist = Ok st →
  sample_names st = omap sample_name_of (concat metalist).
Proof. apply build_rows_sample_name_list. Qed.

End SampleNameList.

(** Two records with a sample name each. *)
Lemma sample_names_listed_witness :
  let named (n : string) : record :=
    [ ("Sample Name", value_of n); ("Parameter Value[Scan polarity]", value_of "positive") ] in
  ∃ st,
    Generator.build_rows (Generator.Layout 0 1 12 5) Sample.headers_row
      Sample.standard_row [named "s1"; named "s2"] = Ok st ∧
    Generator.sample_names st = ["s1"; "s2"].
Proof.
  intros named.
  destruct (Generator.build_rows (Generator.Layout 0 1 12 5) Sample.headers_row
              Sample.standard_row [named "s1"; named "s2"])
    as [st|e] eqn:H; [|vm_compute in H; discriminate H].
  exists st. split; [reflexivity|].
  rewrite (sample_names_listed _ _ _ _ _ H). reflexivity.
Defined.

Section PruningBounds.

Import Generator.

Lemma for_each_Ok_each {A S} (body : S → A → res S) (l : list A) (s s' : S) (x : A) :
  for_each body s l = Ok s' → x ∈ l → ∃ s1 s2, body s1 x = Ok s2.
Proof.
  revert s. induction l as [|y l IH]; intros s H Hx; [by apply elem_of_nil in Hx|].
  simpl in H. apply bind_Ok in H as (s1 & H1 & H).
  apply elem_of_cons in Hx as [->|Hx]; eauto.
Qed.

Lemma for_each_Raise {A S} (body : S → A → res S) (l : list A) (s : S) (e : exn) :
  for_each body s l = Raise e → ∃ s1 x, x ∈ l ∧ body s1 x = Raise e.
Proof.
  revert s. induction l as [|y l IH]; intros s H; [discriminate|].
  simpl in H. destruct (body s y) as [s1|e1] eqn:Hy; simpl in H.
  - apply IH in H as (s2 & x & Hx & H). exists s2, x. split; [by right|done].
  - injection H as <-. exists s, y. split; [left|done].
Qed.

Lemma mapM_Raise {A B} (f : A → res B) (l : list A) (e : exn) :
  mapM f l = Raise e → ∃ x, x ∈ l ∧ f x = Raise e.
Proof.
  induction l as [|y l IH]; [discriminate|]. simpl.
  destruct (f y) as [b|e1] eqn:Hy; simpl.
  - destruct (mapM f l) as [k|e2]; simpl; [discriminate|].
    intros [= <-]. destruct (IH eq_refl) as (x & Hx & H). exists x. split; [by right|done].
  - intros [= <-]. exists y. split; [left|done].
Qed.

(** An exception of column pruning is an IndexError, and some row ends
    before one of the candidate columns. *)
Lemma remove_blank_columns_Raise (start end_ : nat) (full_row : list (list string))
    (headers_row : list string) (e : exn) :
  remove_blank_columns start end_ full_row headers_row = Raise e →
  e = IndexError ∧ ∃ row i, row ∈ full_row ∧ start ≤ i < end_ - 3 ∧ length row ≤ i.
Proof.
  unfold remove_blank_columns.
  destruct (blank_columns start end_ full_row) as [d|e'] eqn:Hd; [discriminate|].
  simpl. intros [= ->]. unfold blank_columns in Hd.
  apply for_each_Raise in Hd as (acc & i & Hi%elem_of_range & Hstep).
  destruct (mapM (Py.getitem i) full_row) as [column|e'] eqn:Hcol; simpl in Hstep.
  { by destruct (decide _). }
  injection Hstep as ->.
  apply mapM_Raise in Hcol as (row & Hrow & Hget). unfold Py.getitem in Hget.
  destruct (row !! i) eqn:Hlook; [discriminate|]. injection Hget as <-.
  split; [done|]. exists row, i. split; [done|]. split; [done|].
  by apply lookup_ge_None.
Qed.

(** X5. Column pruning raises IndexError exactly when some row ends before
    one of the candidate columns; in every other case it returns the
    pruned header and rows. *)
Theorem remove_blank_columns_bounds (start end_ : nat) (full_row : list (list string))
    (headers_row : list string) :
  (remove_blank_columns start end_ full_row headers_row = Raise IndexError
   ↔ ∃ row i, row ∈ full_row ∧ start ≤ i < end_ - 3 ∧ length row ≤ i) ∧
  (¬ (∃ row i, row ∈ full_row ∧ start ≤ i < end_ - 3 ∧ length row ≤ i) →
   ∃ pruned, remove_blank_columns start end_ full_row headers_row = Ok pruned).
Proof.
  split; [split|].
  - by intros [_ H]%remove_blank_columns_Raise.
  - intros (row & i & Hrow & Hi & Hlen).
    destruct (remove_blank_columns start end_ full_row headers_row) as [pruned|e] eqn:H.
    + exfalso. unfold remove_blank_columns in H.
      apply bind_Ok in H as (d & Hd & _). unfold blank_columns in Hd.
      apply (for_each_Ok_each _ _ _ _ i) in Hd as (s1 & s2 & Hstep);
        [|by apply elem_of_range].
      apply bind_Ok in Hstep as (column & Hcol%mapM_Ok & _).
      apply list_elem_of_lookup in Hrow as [k Hk].
      destruct (Forall2_lookup_l _ _ _ _ _ Hcol Hk) as (c & _ & Hc).
      apply or_raise_Ok in Hc. apply lookup_lt_Some in Hc. lia.
    + by apply remove_blank_columns_Raise in H as [-> _].
  - intros Hno.
    destruct (remove_blank_columns start end_ full_row headers_row) as [pruned|e] eqn:H;
      [by exists pruned|].
    by apply remove_blank_columns_Raise in H as [_ H].
Qed.

Lemma without_from_app {A} (cols : list nat) (g : nat → nat) (l1 l2 : list A) :
  (filter (λ p, p.1 ∉ cols) (imap (λ i v, (g i, v)) (l1 ++ l2))).*2
  = (filter (λ p, p.1 ∉ cols) (imap (λ i v, (g i, v)) l1)).*2 ++
    (filter (λ p, p.1 ∉ cols) (imap (λ i v, (g (length l1 + i), v)) l2)).*2.
Proof. by rewrite imap_app, filter_app, fmap_app. Qed.

Lemma without_from_all {A} (cols : list nat) (g : nat → nat) (l : list A) :
  (∀ i, i < length l → g i ∉ cols) →
  (filter (λ p, p.1 ∉ cols) (imap (λ i v, (g i, v)) l)).*2 = l.
Proof.
  revert g. induction l as [|x l IH]; intros g Hg; [done|]. simpl.
  rewrite filter_cons_True by (apply (Hg 0); simpl; lia). simpl. f_equal.
  apply (IH (g ∘ S)). intros i Hi. apply Hg. simpl. lia.
Qed.

Lemma without_from_sublist {A} (cols : list nat) (g : nat → nat) (l : list A) :
  (filter (λ p, p.1 ∉ cols) (imap (λ i v, (g i, v)) l)).*2 `sublist_of` l.
Proof.
  revert g. induction l as [|x l IH]; intros g; [done|]. simpl.
  rewrite filter_cons. destruct (decide _); simpl.
  - apply sublist_skip, (IH (g ∘ S)).
  - apply sublist_cons, (IH (g ∘ S)).
Qed.

(** Deleting columns that all lie in [a, b) keeps the cells before [a] and
    from [b] on, and a part of the cells in between. *)
Lemma without_between {A} (cols : list nat) (a b : nat) (l : list A) :
  a ≤ b → (∀ i, i ∈ cols → a ≤ i < b) →
  ∃ mid, Py.without cols l = take a l ++ mid ++ drop b l ∧
         mid `sublist_of` take (b - a) (drop a l).
Proof.
  intros Hab Hcols.
  assert (take a l ++ take (b - a) (drop a l) ++ drop b l = l) as E.
  { replace b with (a + (b - a)) at 2 by lia.
    by rewrite <- drop_drop, (take_drop (b - a)), take_drop. }
  assert (Py.without cols l
          = Py.without cols (take a l ++ take (b - a) (drop a l) ++ drop b l)) as ->
    by (by rewrite E).
  unfold Py.without.
  rewrite (without_from_app cols (λ i, i)), without_from_app.
  rewrite (without_from_all cols (λ i, i)).
  2:{ intros i Hi Hin. apply Hcols in Hin. rewrite length_take in Hi. lia. }
  eexists. split; [|apply without_from_sublist].
  f_equal. f_equal.
  apply without_from_all. intros i Hi Hin. apply Hcols in Hin.
  rewrite length_drop in Hi. rewrite !length_take, length_drop in Hin. lia.
Qed.

(** X6. Column pruning touches the candidate span only: the header and
    every row keep their cells before the start column and from the
    MS block's last three columns on, and between them keep a part of
    their cells, in order. *)
Theorem pruning_keeps_outside (start end_ : nat) (full_row : list (list string))
    (headers_row : list string) (pruned : list string * list (list string)) :
  remove_blank_columns start end_ full_row headers_row = Ok pruned →
  let kept (l l' : list string) :=
    ∃ mid, l' = take start l ++ mid ++ drop (start `max` (end_ - 3)) l ∧
           mid `sublist_of` take (end_ - 3 - start) (drop start l) in
  kept headers_row pruned.1 ∧ Forall2 kept full_row pruned.2.
Proof.
  intros H kept. unfold remove_blank_columns in H.
  apply bind_Ok in H as (d & Hd & H). injection H as <-. simpl.
  assert (∀ l : list string, kept l (Py.without d l)) as Hkept.
  { intros l. unfold kept.
    destruct (without_between d start (start `max` (end_ - 3)) l) as (mid & -> & Hmid).
    - lia.
    - intros i Hi. apply (blank_columns_spec _ _ _ _ Hd) in Hi as [Hi _]. lia.
    - exists mid. split; [done|].
      by replace (end_ - 3 - start) with (start `max` (end_ - 3) - start) by lia. }
  split; [apply Hkept|]. apply Forall2_fmap_r, Forall_Forall2_diag, Forall_forall.
  intros row _. apply Hkept.
Qed.

End PruningBounds.

(** The rows of the three sample runs without instrument. *)
Lemma pruning_keeps_outside_witness :
  ∃ st pruned,
    Generator.build_rows (Generator.Layout 0 1 12 5) Sample.headers_row
      Sample.standard_row
      (Extractor.isa_tab_compatible <$> [Sample.meta_b; Sample.meta_c]) = Ok st ∧
    Generator.remove_blank_columns 1 12 (Generator.full_row st) Sample.headers_row
      = Ok pruned ∧
    ∃ mid, pruned.1 = take 1 Sample.headers_row ++ mid ++ drop 9 Sample.headers_row ∧
           mid `sublist_of` take 8 (drop 1 Sample.headers_row).
Proof.
  destruct (Generator.build_rows (Generator.Layout 0 1 12 5) Sample.headers_row
              Sample.standard_row
              (Extractor.isa_tab_compatible <$> [Sample.meta_b; Sample.meta_c]))
    as [st|e] eqn:Hst; [|vm_compute in Hst; discriminate Hst].
  destruct (Generator.remove_blank_columns 1 12 (Generator.full_row st)
              Sample.headers_row) as [pruned|e] eqn:Hp.
  2:{ vm_compute in Hst. injection Hst as <-. vm_compute in Hp. discriminate Hp. }
  exists st, pruned. split; [reflexivity|]. split; [exact Hp|].
  exact (proj1 (pruning_keeps_outside 1 12 _ _ _ Hp)).
Defined.

Section AssayFiles.

Import Generator.

(** What one call of [write_rows] writes and leaves: the selected rows,
    each with its data-transformation cell set, are written in order; the
    list keeps its other rows as they are. *)
Lemma write_rows_spec (headers_row : list string) (sel : list string → bool)
    (all_rows written rows' : list (list string)) :
  write_rows headers_row sel all_rows = Ok (written, rows') →
  ∃ i, Py.index "Derived Spectral Data File" headers_row = Some i ∧
       Forall2 (λ row row', Py.setitem_z (Z.of_nat i - 2) "Data transformation" row = Ok row')
               (filter (λ row, sel row = true) all_rows) written ∧
       Forall2 (λ row row',
                  if sel row
                  then Py.setitem_z (Z.of_nat i - 2) "Data transformation" row = Ok row'
                  else row' = row) all_rows rows'.
Proof.
  unfold write_rows. intros H. apply bind_Ok in H as (i & Hi%or_raise_Ok & H).
  apply bind_Ok in H as (marked & Hm%mapM_Ok & H). injection H as <- <-.
  exists i. split; [done|]. induction Hm as [|row m rows ms Hrow _ [IH1 IH2]].
  - split; constructor.
  - rewrite !fmap_cons, !filter_cons. destruct (sel row) eqn:Hsel.
    + apply bind_Ok in Hrow as (row' & Hrow' & Hrow). injection Hrow as <-.
      rewrite !decide_True by done. simpl.
      split; [by constructor | constructor; [by rewrite Hsel | done]].
    + injection Hrow as <-. rewrite !decide_False by done. simpl.
      split; [done | constructor; [by rewrite Hsel | done]].
Qed.

Lemma filter_all {A} (P : A → Prop) `{∀ x, Decision (P x)} (l : list A) :
  (∀ x, P x) → filter P l = l.
Proof.
  intros HP. induction l as [|x l IH]; [done|].
  rewrite filter_cons_True by done. by rewrite IH.
Qed.

Lemma unsplit_file (name : string) (polarity_idx : nat)
    (headers_row : list string) (full_row : list (list string)) (fs : list assay_file) :
  write_assays name polarity_idx false headers_row full_row = Ok fs →
  ∃ i rows,
    Py.index "Derived Spectral Data File" headers_row = Some i ∧
    fs = [AssayFile (assay_file_name name) headers_row rows] ∧
    Forall2 (λ row row',
               Py.setitem_z (Z.of_nat i - 2) "Data transformation" row = Ok row')
            full_row rows.
Proof.
  unfold write_assays. intros H. apply bind_Ok in H as (cells & _ & H).
  rewrite orb_true_r in H. apply bind_Ok in H as ([w rows'] & Hw & H).
  injection H as <-. apply write_rows_spec in Hw as (i & Hi & Hw & _).
  exists i, w. split; [done|]. split; [done|].
  rewrite filter_all in Hw; done.
Qed.

(** X7. With polarity splitting disabled, exactly one assay file is
    written, under the unsuffixed name and with the given header; it holds
    every row, in order, with the cell two columns before
    'Derived Spectral Data File' set to "Data transformation" and nothing
    else changed. *)
Theorem write_assays_unsplit (name : string) (polarity_idx : nat)
    (headers_row : list string) (full_row : list (list string)) (fs : list assay_file) :
  write_assays name polarity_idx false headers_row full_row = Ok fs →
  ∃ i rows,
    Py.index "Derived Spectral Data File" headers_row = Some i ∧
    fs = [AssayFile (assay_file_name name) headers_row rows] ∧
    Forall2 (λ row row',
               Py.setitem_z (Z.of_nat i - 2) "Data transformation" row = Ok row')
            full_row rows.
Proof. apply unsplit_file. Qed.



End AssayFiles.

(** The three sample runs, unsplit. *)
Lemma write_assays_unsplit_witness :
  ∃ rows fs,
    Generator.write_assays "X" 5 false Sample.headers_row
      [Sample.standard_row; Sample.standard_row] = Ok fs ∧
    fs = [Generator.AssayFile (Generator.assay_file_name "X") Sample.headers_row rows] ∧
    length rows = 2.
Proof.
  destruct (Generator.write_assays "X" 5 false Sample.headers_row
              [Sample.standard_row; Sample.standard_row]) as [fs|e] eqn:H;
    [|vm_compute in H; discriminate H].
  destruct (write_assays_unsplit _ _ _ _ _ H) as (i & rows & _ & Hfs & Hrows).
  exists rows, fs. split; [reflexivity|]. split; [exact Hfs|].
  symmetry. exact (Forall2_length _ _ _ Hrows).
Defined.


Section PolaritySplit.

Import Generator.

Lemma distinct_elem_of {A} `{EqDecision A} (l : list A) (x : A) :
  x ∈ Py.distinct l ↔ x ∈ l.
Proof.
  induction l as [|y l IH]; simpl; [done|].
  rewrite !elem_of_cons, list_elem_of_filter, IH.
  destruct (decide (x = y)); intuition.
Qed.

Lemma distinct_NoDup {A} `{EqDecision A} (l : list A) : NoDup (Py.distinct l).
Proof.
  induction l as [|y l IH]; simpl; constructor.
  - rewrite list_elem_of_filter. intros [? _]. done.
  - by apply NoDup_filter.
Qed.

Lemma setitem_z_other {A} (z : Z) (v : A) (l l' : list A) (j : nat) :
  Py.setitem_z z v l = Ok l' → Py.wrap_index (length l) z ≠ Some j → l' !! j = l !! j.
Proof.
  unfold Py.setitem_z. destruct (Py.wrap_index (length l) z) as [k|]; [|discriminate].
  intros [= <-] Hk. apply list_lookup_insert_ne. congruence.
Qed.

Variable polarity_idx : nat.
Variable z : Z.

(** A row of the list the loop over the polarities carries, against the
    row it started as: written (with its cell set) once its polarity has
    come up, untouched before. *)
Let carried (seen : list string) (row0 row : list string) : Prop :=
  (∃ q, q ∈ seen ∧ row0 !! polarity_idx = Some q ∧
        Py.setitem_z z "Data transformation" row0 = Ok row) ∨
  ((∀ q, q ∈ seen → row0 !! polarity_idx ≠ Some q) ∧ row = row0).

Lemma split_step (seen : list string) (p : string)
    (rows cur rows2 written : list (list string)) :
  p ∉ seen →
  Forall (λ row, Py.wrap_index (length row) z ≠ Some polarity_idx) rows →
  Forall2 (carried seen) rows cur →
  Forall2 (λ row row', Py.setitem_z z "Data transformation" row = Ok row')
    (filter (λ x, bool_decide (x !! polarity_idx = Some p) = true) cur) written →
  Forall2 (λ row row',
             if bool_decide (row !! polarity_idx = Some p)
             then Py.setitem_z z "Data transformation" row = Ok row'
             else row' = row) cur rows2 →
  Forall2 (λ row row', Py.setitem_z z "Data transformation" row = Ok row')
    (filter (λ row, row !! polarity_idx = Some p) rows) written ∧
  Forall2 (carried (seen ++ [p])) rows rows2.
Proof.
  intros Hp Hz Hcur Hw Hrows2.
  assert (∀ row0 row, row0 ∈ rows → carried seen row0 row →
            (row !! polarity_idx = Some p ↔ row0 !! polarity_idx = Some p) ∧
            (row0 !! polarity_idx = Some p → row = row0)) as Hsel.
  { intros row0 row Hin [(q & Hq & Hcell & Hset)|[_ ->]]; [|done].
    rewrite (setitem_z_other _ _ _ _ _ Hset)
      by (by apply (proj1 (Forall_forall _ _) Hz)).
    rewrite Hcell. split; [done|]. intros [= ->]. done. }
  split.
  - assert (filter (λ x, bool_decide (x !! polarity_idx = Some p) = true) cur
            = filter (λ row, row !! polarity_idx = Some p) rows) as <-; [|done].
    clear Hw Hrows2. induction Hcur as [|row0 row rows cur Hc _ IH]; [done|].
    apply Forall_cons in Hz as [Hz0 Hz].
    destruct (Hsel row0 row (list_elem_of_here _ _) Hc) as [Hiff Heq].
    rewrite !filter_cons.
    rewrite IH; [|done|intros r0 r Hin; apply Hsel; by right].
    destruct (decide (row0 !! polarity_idx = Some p)) as [H0|H0].
    + rewrite decide_True by (apply bool_decide_eq_true_2; by apply Hiff).
      by rewrite (Heq H0).
    + rewrite decide_False; [done|].
      intros H%bool_decide_eq_true_1. by apply H0, Hiff.
  - clear Hw. revert rows2 Hrows2.
    induction Hcur as [|row0 row rows cur Hc _ IH]; intros rows2 Hrows2.
    + inversion Hrows2. constructor.
    + inversion Hrows2 as [|? row2 ? rows2' H2 Hrest]; subst.
      apply Forall_cons in Hz as [Hz0 Hz].
      destruct (Hsel row0 row (list_elem_of_here _ _) Hc) as [Hiff Heq].
      constructor; [|apply IH; [done|intros r0 r Hin; apply Hsel; by right|done]].
      destruct (decide (row0 !! polarity_idx = Some p)) as [H0|H0].
      * rewrite bool_decide_eq_true_2 in H2 by (by apply Hiff).
        rewrite (Heq H0) in H2. left. exists p. split; [|done].
        apply elem_of_app. right. left.
      * rewrite bool_decide_eq_false_2 in H2 by (intros H; by apply H0, Hiff).
        subst row2. destruct Hc as [(q & Hq & Hcell & Hset)|[Hnone ->]].
        -- left. exists q. split; [|done]. apply elem_of_app. by left.
        -- right. split; [|done].
           intros q [Hq | ->%list_elem_of_singleton]%elem_of_app; [by apply Hnone|done].
Qed.

Lemma split_loop (name : string) (headers_row : list string) (i : nat)
    (rows : list (list string)) (todo seen : list string)
    (st st' : list (list string) * list assay_file) :
  z = (Z.of_nat i - 2)%Z →
  Py.index "Derived Spectral Data File" headers_row = Some i →
  Forall (λ row, Py.wrap_index (length row) z ≠ Some polarity_idx) rows →
  NoDup (seen ++ todo) →
  Forall2 (carried seen) rows st.1 →
  for_each (λ st polarity,
      w ← write_rows headers_row
            (λ x, bool_decide (x !! polarity_idx = Some polarity)) st.1;
      Ok (w.2, st.2 ++ [AssayFile
             (assay_polar_file_name name (Py.upper (Py.prefix 3 polarity)))
             headers_row w.1])) st todo = Ok st' →
  ∃ fs, st'.2 = st.2 ++ fs ∧
    Forall2 (λ p f,
               file_header f = headers_row ∧
               Forall2 (λ row row', Py.setitem_z z "Data transformation" row = Ok row')
                 (filter (λ row, row !! polarity_idx = Some p) rows) (file_rows f))
            todo fs.
Proof.
  intros Hzi Hi Hz. revert seen st.
  induction todo as [|p todo IH]; intros seen st Hnd Hcur H; simpl in H.
  - injection H as <-. exists []. split; [by rewrite app_nil_r|constructor].
  - apply bind_Ok in H as ([cur1 fs1] & H1 & H).
    apply bind_Ok in H1 as ([w rows2] & Hw & H1). injection H1 as <- <-.
    apply write_rows_spec in Hw as (i' & Hi' & Hw1 & Hw2).
    assert (i' = i) as -> by congruence. rewrite <- Hzi in Hw1, Hw2.
    destruct (split_step seen p rows st.1 rows2 w) as [Hfile Hcur']; try done.
    { apply NoDup_app in Hnd as (_ & Hnd & _). intros Hin.
      apply (Hnd p Hin). left. }
    apply (IH (seen ++ [p])) in H as (fs & Hfs & Hall); simpl.
    + simpl in Hfs. exists (AssayFile
        (assay_polar_file_name name (Py.upper (Py.prefix 3 p))) headers_row w :: fs).
      split; [by rewrite Hfs, <- app_assoc|]. constructor; [by split|done].
    + by rewrite <- app_assoc.
    + done.
Qed.

End PolaritySplit.

(** X9. With polarity splitting enabled and a number of distinct values in
    the polarity column other than one, provided the data-transformation
    cell is not the polarity cell, the files are written in the order in
    which the set of polarity values is iterated, whatever that order is;
    the file of each value holds exactly the rows with that value in the
    polarity column, in their order, each with its data-transformation
    cell set; every file has the given header. *)
Theorem write_assays_split_rows (set_iter : list string → list string)
    (name : string) (polarity_idx i : nat)
    (headers_row : list string) (full_row : list (list string))
    (fs : list Generator.assay_file) (cells : list string) :
  mapM (Py.getitem polarity_idx) full_row = Ok cells →
  NoDup (set_iter cells) →
  length (set_iter cells) ≠ 1 →
  Py.index "Derived Spectral Data File" headers_row = Some i →
  Forall (λ row, Py.wrap_index (length row) (Z.of_nat i - 2) ≠ Some polarity_idx)
         full_row →
  Generator.write_assays_iter set_iter name polarity_idx true headers_row full_row
    = Ok fs →
  Forall2 (λ p f,
             Generator.file_header f = headers_row ∧
             Forall2 (λ row row',
                        Py.setitem_z (Z.of_nat i - 2) "Data transformation" row = Ok row')
               (filter (λ row, row !! polarity_idx = Some p) full_row)
               (Generator.file_rows f))
          (set_iter cells) fs.
Proof.
  intros Hcells Hnd Hn Hi Hz. unfold Generator.write_assays_iter. rewrite Hcells. simpl.
  rewrite bool_decide_eq_false_2 by done. simpl. intros H.
  eapply fmap_Ok in H as (st' & H & ->).
  eapply (split_loop polarity_idx _ name headers_row i full_row _ []) in H
    as (fs & -> & Hall); try done.
  simpl. apply Forall_Forall2_diag, Forall_forall. intros row _. right.
  split; [|done]. intros q []%elem_of_nil.
Qed.

(** Three rows, positive, negative, positive in column 5, the set
    iterated in the reverse of the order of first occurrence: the file of
    the negative row comes first. *)
Lemma write_assays_split_rows_witness :
  let rows : list (list string) :=
    [ <[5 := "positive"]> Sample.standard_row;
      <[5 := "negative"]> Sample.standard_row;
      <[5 := "positive"]> (<[0 := "other"]> Sample.standard_row) ] in
  let set_iter (l : list string) := rev (Py.distinct l) in
  ∃ fs,
    Generator.write_assays_iter set_iter "X" 5 true Sample.headers_row rows = Ok fs ∧
    length <$> (Generator.file_rows <$> fs) = [1; 2].
Proof.
  intros rows set_iter.
  destruct (Generator.write_assays_iter set_iter "X" 5 true Sample.headers_row rows)
    as [fs|e] eqn:H; [|vm_compute in H; discriminate H].
  exists fs. split; [reflexivity|].
  pose proof (write_assays_split_rows set_iter "X" 5 11 Sample.headers_row rows fs
                ["positive"; "negative"; "positive"]
                ltac:(vm_compute; reflexivity)
                ltac:(vm_compute; repeat constructor;
                      repeat (intros [E|E']%elem_of_cons; [discriminate E|revert E']);
                      by intros ?%elem_of_nil)
                ltac:(vm_compute; lia)
                ltac:(vm_compute; reflexivity)
                ltac:(repeat constructor; vm_compute; discriminate) H) as Hall.
  clear H. change (set_iter ["positive"; "negative"; "positive"])
    with ["negative"; "positive"] in Hall.
  apply Forall2_cons_inv_l in Hall as (f1 & fs1 & [_ H1] & Hall & ->).
  apply Forall2_cons_inv_l in Hall as (f2 & fs2 & [_ H2] & Hall & ->).
  apply Forall2_nil_inv_l in Hall as ->.
  apply Forall2_length in H1, H2. simpl. rewrite <- H1, <- H2. reflexivity.
Defined.

(* ===================================================================== *)
(** * Lines, cells and the investigation and study files *)
(* ===================================================================== *)

Section Cells.

Variable sep : ascii.

(** [Py.split sep w = [w]] says that [w] is one cell: [sep] does not occur
    in it. *)
Lemma split_nonempty (s : string) : Py.split sep s ≠ [].
Proof.
  destruct s as [|c s]; simpl; [done|].
  destruct (decide (c = sep)); [done|]. by destruct (Py.split sep s).
Qed.

Lemma cell_cons (c : ascii) (w : string) :
  c ≠ sep → Py.split sep w = [w] → Py.split sep (String c w) = [String c w].
Proof. intros Hc Hw. simpl. rewrite decide_False by done. by rewrite Hw. Qed.

Lemma cell_cons_inv (c : ascii) (w : string) :
  Py.split sep (String c w) = [String c w] → c ≠ sep ∧ Py.split sep w = [w].
Proof.
  simpl. destruct (decide (c = sep)) as [->|Hc]; [discriminate|].
  destruct (Py.split sep w) as [|w' ws] eqn:Hw; [by apply split_nonempty in Hw|].
  by intros [= -> ->].
Qed.

Lemma split_cells (s w : string) : w ∈ Py.split sep s → Py.split sep w = [w].
Proof.
  revert w. induction s as [|c s IH]; intros w; simpl.
  - by intros ->%list_elem_of_singleton.
  - destruct (decide (c = sep)) as [->|Hc].
    + intros [->|Hw]%elem_of_cons; [done|by apply IH].
    + destruct (Py.split sep s) as [|w' ws] eqn:Hs.
      * intros ->%list_elem_of_singleton. by apply split_nonempty in Hs.
      * intros [->|Hw]%elem_of_cons.
        -- apply cell_cons; [done|]. apply IH. left.
        -- apply IH. by right.
Qed.

Lemma split_app_sep (a b : string) :
  Py.split sep a = [a] → Py.split sep (a +:+ String sep b) = a :: Py.split sep b.
Proof.
  induction a as [|c a IH].
  - intros _. change (Py.split sep (String sep b) = EmptyString :: Py.split sep b).
    simpl. by rewrite decide_True.
  - intros H. apply cell_cons_inv in H as [Hc Ha].
    change (Py.split sep (String c (a +:+ String sep b))
            = String c a :: Py.split sep b).
    simpl. rewrite decide_False by done. by rewrite (IH Ha).
Qed.

Lemma split_app_cell (a b : string) :
  Py.split sep a = [a] → Py.split sep b = [b] →
  Py.split sep (a +:+ b) = [a +:+ b].
Proof.
  intros Ha Hb. induction a as [|c a IH]; [done|].
  apply cell_cons_inv in Ha as [Hc Ha].
  change (Py.split sep (String c (a +:+ b)) = [String c (a +:+ b)]).
  simpl. rewrite decide_False by done. by rewrite (IH Ha).
Qed.

Lemma lstrip_cell (w : string) :
  Py.split sep w = [w] → Py.split sep (Py.lstrip w) = [Py.lstrip w].
Proof.
  induction w as [|c w IH]; simpl; [done|]. intros H.
  change (Py.split sep (String c w) = [String c w]) in H.
  destruct (Py.isspace c); [|done]. apply IH. by apply cell_cons_inv in H as [_ ?].
Qed.

Lemma rstrip_cell (w : string) :
  Py.split sep w = [w] → Py.split sep (Py.rstrip w) = [Py.rstrip w].
Proof.
  induction w as [|c w IH]; [done|]. intros H.
  apply cell_cons_inv in H as [Hc Hw]. specialize (IH Hw).
  cbn [Py.rstrip]. destruct (Py.rstrip w) as [|c' r].
  - destruct (Py.isspace c); [done|]. by apply cell_cons.
  - by apply cell_cons.
Qed.

Lemma strip_cell (w : string) :
  Py.split sep w = [w] → Py.split sep (Py.strip w) = [Py.strip w].
Proof. intros H. by apply lstrip_cell, rstrip_cell. Qed.

End Cells.

Lemma append_String (x : ascii) (a b : string) : String x a +:+ b = String x (a +:+ b).
Proof. reflexivity. Qed.

Lemma append_Empty (b : string) : EmptyString +:+ b = b.
Proof. reflexivity. Qed.

Lemma append_assoc (a b c : string) : (a +:+ b) +:+ c = a +:+ b +:+ c.
Proof.
  induction a as [|x a IH]; [done|]. rewrite !append_String. by f_equal.
Qed.

Ltac append_norm :=
  repeat (rewrite append_assoc || rewrite append_String || rewrite append_Empty).

(** Cells joined with tabs and followed by a tab-free end split back into
    the cells, the last one carrying the end. *)
Lemma split_join_cells (cells : list string) (c t : string) :
  Forall (λ w, Py.split Py.TAB w = [w]) cells →
  Py.split Py.TAB c = [c] → Py.split Py.TAB t = [t] →
  Py.split Py.TAB (Py.join (String Py.TAB EmptyString) (cells ++ [c]) +:+ t)
  = cells ++ [c +:+ t].
Proof.
  intros Hcells Hc Ht. induction Hcells as [|w ws Hw _ IH].
  - by apply split_app_cell.
  - rewrite <- app_comm_cons.
    destruct (ws ++ [c]) as [|w' ws'] eqn:E; [by destruct ws|].
    change (Py.join (String Py.TAB EmptyString) (w :: w' :: ws'))
      with (w +:+ String Py.TAB EmptyString
              +:+ Py.join (String Py.TAB EmptyString) (w' :: ws')).
    append_norm. rewrite split_app_sep by done. by rewrite IH.
Qed.

Section Investigation.

Import Generator.

(** X10. Expansion of a 'Study Assay' line other than the file-name line:
    with n written assay files, n at least 2, the line becomes its first
    cell followed by n copies of its stripped second cell, tab-separated
    and ended by a newline, so that it splits into 1 + n cells. *)
Theorem study_assay_value_cells (written : list string) (l first second : string)
    (rest : list string) :
  Py.prefix 11 l = "Study Assay" →
  Py.split Py.TAB l = first :: second :: rest →
  first ≠ "Study Assay File Name" →
  2 ≤ length written →
  ∃ l', expand_study_assay written l = Ok l' ∧
        Py.split Py.TAB l'
        = first :: replicate (length written - 1) (Py.strip second) ++
                   [Py.strip second +:+ String Py.NL EmptyString].
Proof.
  intros Hpre Hsplit Hfirst Hn. unfold expand_study_assay.
  rewrite bool_decide_eq_true_2 by done.
  rewrite (bool_decide_eq_false_2 (length written = 1)) by lia. simpl.
  rewrite Hsplit. simpl. rewrite decide_False by done. simpl.
  eexists. split; [reflexivity|].
  assert (Py.split Py.TAB first = [first]) as Hf
    by (apply (split_cells _ l); rewrite Hsplit; left).
  assert (Py.split Py.TAB (Py.strip second) = [Py.strip second]) as Hs.
  { apply strip_cell, (split_cells _ l). rewrite Hsplit. right. left. }
  append_norm. rewrite split_app_sep by done. f_equal.
  destruct (length written) as [|n] eqn:E; [lia|]. replace (S n - 1) with n by lia.
  rewrite replicate_S_end. apply split_join_cells; [|done|done].
  by apply Forall_replicate.
Qed.

Lemma append_Empty_r (a : string) : a +:+ EmptyString = a.
Proof. induction a as [|x a IH]; [done|]. rewrite append_String. by f_equal. Qed.

Lemma split_head_prefix (sep : ascii) (l first : string) (rest : list string) :
  Py.split sep l = first :: rest → ∃ tl, l = first +:+ tl.
Proof.
  revert first rest. induction l as [|c l IH]; intros first rest; simpl.
  - intros [= <- <-]. by exists EmptyString.
  - destruct (decide (c = sep)).
    + intros [= <- _]. by eexists.
    + destruct (Py.split sep l) as [|w ws] eqn:E; [by apply split_nonempty in E|].
      intros [= <- <-]. destruct (IH w ws eq_refl) as [tl ->]. by exists tl.
Qed.

(** The file-name line as the loop over the written assays builds it. *)
Lemma file_name_line (acc : string) (names : list string) :
  foldl (λ l assay, l +:+ String Py.TAB (String Py.QUOTE assay)
                      +:+ String Py.QUOTE EmptyString) acc names
  = acc +:+ foldr (λ a r, String Py.TAB (String Py.QUOTE a +:+ String Py.QUOTE EmptyString)
                            +:+ r) EmptyString names.
Proof.
  revert acc. induction names as [|a names IH]; intros acc; simpl.
  - by rewrite append_Empty_r.
  - rewrite IH. by append_norm.
Qed.

Lemma file_name_cells (acc t last : string) (init : list string) :
  Forall (λ a, Py.split Py.TAB a = [a]) (init ++ [last]) →
  Py.split Py.TAB t = [t] → Py.split Py.TAB acc = [acc] →
  Py.split Py.TAB
    ((acc +:+ foldr (λ a r, String Py.TAB (String Py.QUOTE a +:+ String Py.QUOTE EmptyString)
                              +:+ r) EmptyString (init ++ [last])) +:+ t)
  = acc :: ((λ a, String Py.QUOTE a +:+ String Py.QUOTE EmptyString) <$> init)
        ++ [(String Py.QUOTE last +:+ String Py.QUOTE EmptyString) +:+ t].
Proof.
  intros Hnames Ht.
  assert (∀ a, Py.split Py.TAB a = [a] →
            Py.split Py.TAB (String Py.QUOTE a +:+ String Py.QUOTE EmptyString)
            = [String Py.QUOTE a +:+ String Py.QUOTE EmptyString]) as Hq.
  { intros a Ha. rewrite append_String. apply (cell_cons Py.TAB); [done|].
    by apply split_app_cell. }
  apply Forall_app in Hnames as [Hinit Hlast].
  apply Forall_cons in Hlast as [Hlast _].
  revert acc. induction Hinit as [|a init Ha _ IH]; intros acc Hacc.
  - cbn [app foldr fmap list_fmap].
    rewrite append_Empty_r, append_assoc, (append_String Py.TAB).
    rewrite split_app_sep by done. f_equal. apply split_app_cell; [by apply Hq|done].
  - rewrite <- app_comm_cons. cbn [foldr].
    rewrite append_assoc, !(append_String Py.TAB).
    rewrite split_app_sep by done. rewrite fmap_cons, <- app_comm_cons. f_equal.
    apply IH. by apply Hq.
Qed.

(** X11. Expansion of the 'Study Assay File Name' line: with a number of
    written assay files other than one (none, or two and more) and no tab
    in a name, the line becomes the cell 'Study Assay File Name' followed
    by the written names, each in double quotes, in the order they were
    written, tab-separated and ended by a newline; with no written assay
    it is the first cell and the newline. *)
Theorem study_assay_file_name_cells (written : list string) (l : string)
    (rest : list string) :
  Py.split Py.TAB l = "Study Assay File Name" :: rest →
  length written ≠ 1 →
  Forall (λ a, Py.split Py.TAB a = [a]) written →
  ∃ body, expand_study_assay written l = Ok (body +:+ String Py.NL EmptyString) ∧
          Py.split Py.TAB body
          = "Study Assay File Name"
            :: ((λ a, String Py.QUOTE a +:+ String Py.QUOTE EmptyString) <$> written) ∧
          (written = [] → body = "Study Assay File Name").
Proof.
  intros Hsplit Hn Hcells. unfold expand_study_assay.
  destruct (split_head_prefix _ _ _ _ Hsplit) as [tl Hl].
  rewrite bool_decide_eq_true_2 by (by rewrite Hl).
  rewrite (bool_decide_eq_false_2 (length written = 1)) by done. simpl.
  rewrite Hsplit. simpl. eexists. split; [reflexivity|].
  rewrite file_name_line.
  destruct written as [|a written] using rev_ind; [done|]. clear IHwritten.
  split; [|by intros [_ [=]]%app_nil].
  pose proof (file_name_cells "Study Assay File Name" EmptyString a written
                Hcells eq_refl eq_refl) as H.
  rewrite !append_Empty_r in H. rewrite H, fmap_app. done.
Qed.

End Investigation.

(** Two written assays and the platform line of the template. *)
Lemma study_assay_value_cells_witness :
  ∃ l',
    Generator.expand_study_assay ["a_POS.txt"; "a_NEG.txt"]
      (Sample.tabbed ["Study Assay Technology Platform"; "{platform[name]} "]
       +:+ String Py.NL EmptyString) = Ok l' ∧
    Py.split Py.TAB l'
    = [ "Study Assay Technology Platform"; "{platform[name]}";
        "{platform[name]}" +:+ String Py.NL EmptyString ].
Proof.
  destruct (study_assay_value_cells ["a_POS.txt"; "a_NEG.txt"]
              (Sample.tabbed ["Study Assay Technology Platform"; "{platform[name]} "]
               +:+ String Py.NL EmptyString)
              "Study Assay Technology Platform"
              ("{platform[name]} " +:+ String Py.NL EmptyString) [])
    as (l' & Hl' & Hcells);
    [reflexivity | reflexivity | discriminate | simpl; lia |].
  exists l'. split; [exact Hl'|]. rewrite Hcells. reflexivity.
Defined.

(** Two written assays, and none. *)
Lemma study_assay_file_name_cells_witness :
  let l := Sample.tabbed ["Study Assay File Name"; Sample.quoted "{assay_file_name}"]
           +:+ String Py.NL EmptyString in
  (∃ body,
     Generator.expand_study_assay ["a_POS.txt"; "a_NEG.txt"] l
     = Ok (body +:+ String Py.NL EmptyString) ∧
     Py.split Py.TAB body
     = [ "Study Assay File Name"; Sample.quoted "a_POS.txt"; Sample.quoted "a_NEG.txt" ]) ∧
  Generator.expand_study_assay [] l
  = Ok ("Study Assay File Name" +:+ String Py.NL EmptyString).
Proof.
  intros l. split.
  - destruct (study_assay_file_name_cells ["a_POS.txt"; "a_NEG.txt"] l
                [Sample.quoted "{assay_file_name}" +:+ String Py.NL EmptyString])
      as (body & Hl' & Hcells & _);
      [reflexivity | discriminate | by repeat constructor |].
    exists body. split; [exact Hl'|]. rewrite Hcells. reflexivity.
  - destruct (study_assay_file_name_cells [] l
                [Sample.quoted "{assay_file_name}" +:+ String Py.NL EmptyString])
      as (body & Hl' & _ & Hbody);
      [reflexivity | discriminate | constructor |].
    rewrite Hl', (Hbody eq_refl). reflexivity.
Defined.

Section Bundle.

Import Generator.

Lemma mapM_ext_res {A B} (f g : A → res B) (l : list A) :
  (∀ x, f x = g x) → mapM f l = mapM g l.
Proof. intros Hfg. induction l as [|x l IH]; simpl; [done|]. by rewrite Hfg, IH. Qed.

Lemma mapM_length_res {A B} (f : A → res B) (l : list A) (k : list B) :
  mapM f l = Ok k → length k = length l.
Proof. intros H%mapM_Ok. symmetry. by eapply Forall2_length. Qed.

(** X12. The study file: a template that does not have exactly two lines
    raises ValueError; otherwise the rows written are the cells of the
    cleaned header line followed by one row per sample name, in order, each
    the cells of the default line formatted with that name. *)
Theorem create_study_rows (format_sample : string → string → res string)
    (isa_default : list string) (sample_names : list string) :
  (length isa_default ≠ 2 →
   create_study format_sample isa_default sample_names = Raise ValueError) ∧
  (∀ rows,
     create_study format_sample isa_default sample_names = Ok rows →
     ∃ headers_line default_line body,
       isa_default = [headers_line; default_line] ∧
       rows = Py.split Py.TAB (Py.remove_char Py.QUOTE (Py.rstrip headers_line)) :: body ∧
       Forall2 (λ sample_name row,
                  ∃ l, format_sample
                         (Py.remove_char Py.QUOTE (Py.rstrip default_line)) sample_name
                       = Ok l ∧ row = Py.split Py.TAB l)
               sample_names body).
Proof.
  unfold create_study. split.
  - intros Hlen. by destruct isa_default as [|h [|d [|x rest]]].
  - intros rows H. destruct isa_default as [|h [|d [|x rest]]]; try discriminate.
    simpl in H. apply bind_Ok in H as (body & Hbody%mapM_Ok & H). injection H as <-.
    exists h, d, body. split; [done|]. split; [done|].
    eapply Forall2_impl; [exact Hbody|]. intros n row Hrow. simpl in Hrow.
    apply bind_Ok in Hrow as (l & Hl & Hrow). injection Hrow as <-. by exists l.
Qed.

Lemma create_study_rows_witness :
  Generator.create_study (λ l n, Ok (n +:+ l)) ["h"] ["s1"] = Raise ValueError ∧
  ∃ rows,
    Generator.create_study (λ l n, Ok (n +:+ l))
      [ Sample.tabbed ["Sample Name"; "Protocol REF"] +:+ String Py.NL EmptyString;
        Sample.tabbed [":"; "Sample collection"] +:+ String Py.NL EmptyString ]
      ["s1"; "s2"] = Ok rows ∧
    length rows = 3.
Proof.
  split.
  - apply (proj1 (create_study_rows (λ l n, Ok (n +:+ l)) ["h"] ["s1"])). simpl. lia.
  - destruct (Generator.create_study (λ l n, Ok (n +:+ l))
      [ Sample.tabbed ["Sample Name"; "Protocol REF"] +:+ String Py.NL EmptyString;
        Sample.tabbed [":"; "Sample collection"] +:+ String Py.NL EmptyString ]
      ["s1"; "s2"]) as [rows|e] eqn:H; [|vm_compute in H; discriminate H].
    exists rows. split; [reflexivity|].
    destruct (proj2 (create_study_rows _ _ _) rows H) as (h & d & body & _ & -> & Hbody).
    apply Forall2_length in Hbody. simpl. by rewrite <- Hbody.
Defined.

Variable format : platform → string → res string.
Variable format_sample : string → string → res string.

(** X13. The constructor with polarity splitting disabled: whenever it
    returns, it has written one assay file under the unsuffixed name, the
    investigation file is the template formatted line by line with no
    'Study Assay' line expanded, and the study file has one row more than
    there are 'Sample Name' fields in the records. *)
Theorem ISA_Tab_unsplit (name : string) (headers_row standard_row : list string)
    (i_in s_in : list string) (metalist : list record) (b : bundle) :
  ISA_Tab format format_sample name headers_row standard_row i_in s_in metalist false
    = Ok b →
  (∃ rows, bundle_assays b = [AssayFile (assay_file_name name) rows.1 rows.2]) ∧
  mapM (format (bundle_platform b)) i_in = Ok (bundle_investigation b) ∧
  length (bundle_study b) = 1 + length (omap sample_name_of (concat metalist)).
Proof.
  unfold ISA_Tab. destruct (check_assay_name metalist) as [p warnings]. intros H.
  apply bind_Ok in H as (out & Hout & H). apply bind_Ok in H as (inv & Hinv & H).
  apply bind_Ok in H as (study & Hstudy & H). injection H as <-. simpl.
  unfold create_assay in Hout. apply bind_Ok in Hout as (lay & _ & Hout).
  apply bind_Ok in Hout as (st & Hst & Hout).
  apply bind_Ok in Hout as (pruned & _ & Hout).
  apply bind_Ok in Hout as (fs & Hfs & Hout). injection Hout as <-. simpl in *.
  apply unsplit_file in Hfs as (i & rows & _ & -> & _). simpl in Hinv.
  split; [by exists (pruned.1, rows)|]. split.
  - rewrite <- Hinv. unfold create_investigation. apply mapM_ext_res.
    intros l. unfold expand_study_assay. simpl. by rewrite andb_false_r.
  - apply build_rows_sample_name_list in Hst as <-.
    unfold create_study in Hstudy.
    destruct ((λ x, Py.remove_char Py.QUOTE (Py.rstrip x)) <$> s_in)
      as [|h [|d [|x rest]]]; try discriminate.
    apply bind_Ok in Hstudy as (body & Hbody%mapM_length_res & Hstudy).
    injection Hstudy as <-. simpl. by rewrite Hbody.
Qed.

End Bundle.

Lemma ISA_Tab_unsplit_witness :
  let metalist := Extractor.isa_tab_compatible <$> [Sample.meta_a; Sample.meta_c] in
  let i_in := [ Sample.tabbed ["Study Assay File Name"; "{assay_file_name}"] ] in
  let s_in := [ Sample.tabbed ["Sample Name"]; Sample.tabbed ["{name}"] ] in
  ∃ b,
    Generator.ISA_Tab (λ _ l, Ok l) (λ l _, Ok l) "X" Sample.headers_row
      Sample.standard_row i_in s_in metalist false = Ok b ∧
    Generator.bundle_investigation b = i_in ∧
    length (Generator.bundle_study b) = 1.
Proof.
  intros metalist i_in s_in.
  destruct (Generator.ISA_Tab (λ _ l, Ok l) (λ l _, Ok l) "X" Sample.headers_row
              Sample.standard_row i_in s_in metalist false) as [b|e] eqn:H;
    [|vm_compute in H; discriminate H].
  exists b. split; [reflexivity|].
  destruct (ISA_Tab_unsplit _ _ _ _ _ _ _ _ _ H) as (_ & Hinv & Hstudy).
  split; [|exact Hstudy].
  assert (mapM (λ l : string, Ok l) i_in = Ok i_in) as E by (vm_compute; reflexivity).
  cbv beta in Hinv. rewrite E in Hinv. by injection Hinv as <-.
Defined.

Section Platform.

Import Generator.

Lemma count_not_in (x : string) (l : list string) : x ∉ l → count x l = 0.
Proof.
  intros Hx. unfold count. induction l as [|y l IH]; [done|].
  apply not_elem_of_cons in Hx as [Hxy Hx].
  rewrite filter_cons_False by congruence. by apply IH.
Qed.

(** [max] with the count as key: an element of the list that occurs at
    least as often as any other. *)
Lemma most_common_spec (l : list string) (m : string) :
  most_common l = Ok m → m ∈ l ∧ ∀ x, count x l ≤ count m l.
Proof.
  unfold most_common. intros H.
  assert (m ∈ Py.distinct l ∧ ∀ x, x ∈ Py.distinct l → count x l ≤ count m l)
    as [Hm Hmax].
  { destruct (Py.distinct l) as [|x0 xs]; [discriminate|]. injection H as <-.
    revert x0. induction xs as [|y xs IH]; intros x0; simpl.
    - split; [left|]. by intros x ->%list_elem_of_singleton.
    - destruct (decide (count x0 l < count y l)) as [Hlt|Hge].
      + destruct (IH y) as [Hin Hall]. split.
        * apply elem_of_cons in Hin as [->|Hin]; [right; left|right; by right].
        * intros x [->|[->|Hx]%elem_of_cons]%elem_of_cons.
          -- etransitivity; [|apply Hall; left]. lia.
          -- apply Hall. left.
          -- apply Hall. by right.
      + destruct (IH x0) as [Hin Hall]. split.
        * apply elem_of_cons in Hin as [->|Hin]; [left|right; by right].
        * intros x [->|[->|Hx]%elem_of_cons]%elem_of_cons.
          -- apply Hall. left.
          -- etransitivity; [|apply Hall; left]. lia.
          -- apply Hall. by right. }
  split; [by apply distinct_elem_of|]. intros x.
  destruct (decide (x ∈ l)) as [Hx|Hx].
  - by apply Hmax, distinct_elem_of.
  - rewrite (count_not_in x l Hx). lia.
Qed.

Lemma most_common_nil (l : list string) :
  (∃ e, most_common l = Raise e) ↔ l = [].
Proof.
  unfold most_common. split.
  - intros [e H]. destruct l as [|x l]; [done|]. simpl in H. discriminate.
  - intros ->. by eexists.
Qed.

Lemma collected (metalist : list record) (st : list string * list string * list warning) :
  ∃ warnings,
    foldl collect_instrument st metalist
    = (st.1.1 ++ omap instrument_name_of metalist,
       st.1.2 ++ omap instrument_accession_of metalist, warnings).
Proof.
  revert st. induction metalist as [|meta l IH]; intros [[ins acc] ws].
  - exists ws. simpl. by rewrite !app_nil_r.
  - cbn [foldl]. assert (∃ w1, collect_instrument (ins, acc, ws) meta
                  = (ins ++ option_list (instrument_name_of meta),
                     acc ++ option_list (instrument_accession_of meta), w1))
      as [w1 ->].
    { unfold collect_instrument, instrument_name_of, instrument_accession_of.
      destruct (dict_get "Parameter Value[Instrument]" meta) as [[a|es]|];
        [destruct (cv_name a) as [n|]; [destruct (cv_accession a) as [c|]|]|..];
        eexists; simpl; by rewrite ?app_nil_r. }
    destruct (IH (ins ++ option_list (instrument_name_of meta),
                  acc ++ option_list (instrument_accession_of meta), w1)) as [w ->].
    exists w. simpl. rewrite <- !app_assoc.
    by destruct (instrument_name_of meta), (instrument_accession_of meta).
Qed.

(** X14. The platform summary: when no record has an instrument name, or
    none has a name together with an accession, name, accession and ref are
    all empty; otherwise the name is an instrument name that occurs at
    least as often as any other, and likewise the accession. *)
Theorem check_assay_name_majority (metalist : list record) :
  let names := omap instrument_name_of metalist in
  let accessions := omap instrument_accession_of metalist in
  let p := (check_assay_name metalist).1 in
  if decide (names = [] ∨ accessions = [])
  then p = Platform EmptyString EmptyString EmptyString
  else (platform_name p ∈ names ∧ ∀ x, count x names ≤ count (platform_name p) names) ∧
       (platform_accession p ∈ accessions ∧
        ∀ x, count x accessions ≤ count (platform_accession p) accessions).
Proof.
  intros names accessions p. subst p. unfold check_assay_name.
  destruct (collected metalist ([], [], [])) as [ws ->]. simpl.
  fold names. fold accessions.
  destruct (most_common names) as [n|e] eqn:Hn.
  - destruct (most_common accessions) as [a|e] eqn:Ha; simpl.
    + rewrite decide_False.
      * split; by apply most_common_spec.
      * intros [E|E]; [rewrite E in Hn|rewrite E in Ha]; discriminate.
    + rewrite decide_True; [done|]. right. apply most_common_nil. by eexists.
  - simpl. rewrite decide_True; [done|]. left. apply most_common_nil. by eexists.
Qed.

Lemma split_head (sep : ascii) (l first : string) (rest : list string) :
  Py.split sep l = first :: rest →
  (l = first ∧ rest = []) ∨ ∃ tl, l = first +:+ String sep tl.
Proof.
  revert first rest. induction l as [|c l IH]; intros first rest; simpl.
  - intros [= <- <-]. by left.
  - destruct (decide (c = sep)) as [->|Hc].
    + intros [= <- _]. right. by exists l.
    + destruct (Py.split sep l) as [|w ws] eqn:E; [by apply split_nonempty in E|].
      intros [= <- <-]. destruct (IH w ws eq_refl) as [[-> ->]|[tl ->]].
      * by left.
      * right. by exists tl.
Qed.

(** X15. The term-source ref of the platform is the part of its accession
    before the first colon: it holds no colon, and the accession is the
    ref itself or the ref followed by a colon and more. *)
Theorem platform_ref_prefix (metalist : list record) :
  let p := (check_assay_name metalist).1 in
  Py.split ":"%char (platform_ref p) = [platform_ref p] ∧
  (platform_accession p = platform_ref p ∨
   ∃ tl, platform_accession p = platform_ref p +:+ String ":"%char tl).
Proof.
  intros p. subst p. unfold check_assay_name.
  destruct (foldl collect_instrument _ metalist) as [[ins acc] ws].
  destruct (match most_common ins with Ok _ => _ | Raise _ => _ end) as [n a]. simpl.
  destruct (Py.split ":"%char a) as [|ref rest] eqn:E; [by apply split_nonempty in E|].
  split.
  - apply (split_cells _ a). rewrite E. left.
  - apply split_head in E as [[-> _]|[tl ->]]; [by left|right; by exists tl].
Qed.

End Platform.

(* ===================================================================== *)
(** * Further properties of the extractors *)
(* ===================================================================== *)

Section Matching.

Import Extractor.

Variable softwareList : list software_elem.
Variable getDescendents : string → list string.

(** The bucket a multiple match leaves under its key, whatever was there. *)
Lemma bucket_after_match (key : string) (c : nat) (a : annotation) (meta : record) :
  ∃ es, match dict_get key meta with
        | Some (EntryList es0) => dict_set key (EntryList (dict_set c a es0)) meta
        | _ => dict_set key (EntryList [(c, a)]) meta
        end = dict_set key (EntryList es) meta
        ∧ dict_get c es = Some a.
Proof.
  destruct (dict_get key meta) as [[a0|es0]|].
  - eexists. split; [done|]. apply (dict_get_set_eq []).
  - eexists. split; [done|]. apply dict_get_set_eq.
  - eexists. split; [done|]. apply (dict_get_set_eq []).
Qed.

(** X16. A match aborts with KeyError exactly when the rule has a value
    and the element has no value attribute, or the rule has software and
    the parent element has no softwareRef attribute; in every other case it
    is recorded. This holds for the revised and for the legacy
    extractor. *)
Theorem cvParam_match_raises (info : term_info) (e : cvParam) (st : record * nat) :
  if decide ((value info = true ∧ attrib_value e = None) ∨
             (soft info = true ∧ parent_softwareRef e = None))
  then Extractor.cvParam_match softwareList info e st = Raise KeyError ∧
       Legacy.cvParam_match softwareList info e st = Raise KeyError
  else (∃ st', Extractor.cvParam_match softwareList info e st = Ok st') ∧
       (∃ st', Legacy.cvParam_match softwareList info e st = Ok st').
Proof.
  destruct st as [meta c].
  unfold Extractor.cvParam_match, Legacy.cvParam_match, set_entry_value.
  destruct (Legacy.meta_name_of info e c) as [lname lc].
  set (key := if attribute info then tag e else name info).
  destruct (bucket_after_match key c (entry_of e) meta) as (es & -> & Hes).
  rewrite dict_get_set_eq, Hes.
  destruct (decide _) as [Hd|Hd].
  - destruct (value info), (attrib_value e) as [v|], (soft info),
      (parent_softwareRef e) as [ref|], (plus1 info); simpl; try done;
      exfalso; destruct Hd as [[? ?]|[? ?]]; congruence.
  - destruct (value info), (attrib_value e) as [v|], (soft info),
      (parent_softwareRef e) as [ref|], (plus1 info); simpl;
      try (split; by eauto); exfalso; apply Hd; by auto.
Qed.

(** X17. Elements whose accession lies in no rule's descendant closure are
    passed over: the metadata stays as it is. *)
Theorem cvParam_loop_no_match (elements : list cvParam) (rules : dict string term_info)
    (meta : record) :
  (∀ e rule, e ∈ elements → rule ∈ rules →
     attrib_accession e ∉ getDescendents rule.1) →
  Extractor.cvParam_loop softwareList getDescendents elements rules meta = Ok meta ∧
  Legacy.cvParam_loop softwareList getDescendents elements rules meta = Ok meta.
Proof.
  intros Hno.
  assert (∀ (body : term_info → cvParam → record * nat → res (record * nat)) st,
    for_each (λ st e,
      for_each (λ st rule,
        if bool_decide (attrib_accession e ∈ getDescendents rule.1)
        then body rule.2 e st else Ok st) st rules) st elements = Ok st) as Hloop.
  { intros body. induction elements as [|e els IH]; intros st; [done|]. simpl.
    assert (for_each (λ st rule,
              if bool_decide (attrib_accession e ∈ getDescendents rule.1)
              then body rule.2 e st else Ok st) st rules = Ok st) as ->.
    { assert (∀ rule, rule ∈ rules → attrib_accession e ∉ getDescendents rule.1)
        as He by (intros rule; apply Hno; left).
      clear -He. induction rules as [|rule rs IHr]; [done|]. simpl.
      rewrite bool_decide_eq_false_2 by (apply He; left). simpl.
      apply IHr. intros r Hr. apply He. by right. }
    simpl. apply IH. intros e' rule He'. apply Hno. by right. }
  unfold Extractor.cvParam_loop, Legacy.cvParam_loop.
  rewrite (Hloop (Extractor.cvParam_match softwareList)).
  by rewrite (Hloop (Legacy.cvParam_match softwareList)).
Qed.

End Matching.

Lemma cvParam_loop_no_match_witness :
  Extractor.cvParam_loop [] (λ k, [k]) [Sample.checksum]
    [("MS:1000561", Sample.rule_checksum)] [] = Ok [] ∧
  Legacy.cvParam_loop [] (λ k, [k]) [Sample.checksum]
    [("MS:1000561", Sample.rule_checksum)] [] = Ok [].
Proof.
  apply (cvParam_loop_no_match [] (λ k, [k]) [Sample.checksum]
           [("MS:1000561", Sample.rule_checksum)] []).
  intros e rule ->%list_elem_of_singleton ->%list_elem_of_singleton.
  simpl. intros H%list_elem_of_singleton. discriminate H.
Defined.

Section Buckets.

Import Extractor.

Lemma dict_set_fresh {K V} `{EqDecision K} (k : K) (v : V) (d : dict K V) :
  k ∉ keys d → dict_set k v d = d ++ [(k, v)].
Proof.
  unfold keys. induction d as [|[k' v'] d IH]; simpl; [done|].
  intros [Hne Hk]%not_elem_of_cons. rewrite decide_False by done. by rewrite IH.
Qed.

Lemma dict_set_last {K V} `{EqDecision K} (k : K) (v v' : V) (d : dict K V) :
  k ∉ keys d → dict_set k v' (d ++ [(k, v)]) = d ++ [(k, v')].
Proof.
  unfold keys. induction d as [|[k1 v1] d IH]; simpl.
  - intros _. by rewrite decide_True.
  - intros [Hne Hk]%not_elem_of_cons. rewrite decide_False by done. by rewrite IH.
Qed.

Lemma dict_set_set {K V} `{EqDecision K} (k : K) (v v' : V) (d : dict K V) :
  dict_set k v' (dict_set k v d) = dict_set k v' d.
Proof.
  induction d as [|[k1 v1] d IH]; simpl.
  - by rewrite decide_True.
  - destruct (decide (k1 = k)) as [->|Hne]; simpl.
    + by rewrite decide_True.
    + rewrite decide_False by done. by rewrite IH.
Qed.

Variable softwareList : list software_elem.
Variable getDescendents : string → list string.

Lemma software_other_keys (soft_ref name k : string) (meta : record) :
  k ≠ name +:+ " software version" → k ≠ name +:+ " software" →
  dict_get k (Extractor.software softwareList soft_ref name meta) = dict_get k meta.
Proof.
  intros Hv Hs. unfold Extractor.software.
  apply (foldl_inv (λ m, dict_get k m = dict_get k meta)); [|done].
  intros m e Hm. destruct (decide (sw_id e = soft_ref)); [|done].
  apply (foldl_inv (λ m, dict_get k m = dict_get k meta)).
  - intros m' ie Hm'. by rewrite dict_get_set_ne.
  - destruct (decide (sw_version e = EmptyString)); [done|].
    by rewrite dict_get_set_ne.
Qed.

(** A match stored under another key leaves the field of [k] as it is. *)
Lemma match_other_key (info : term_info) (e : cvParam) (k : string)
    (meta meta' : record) (c c' : nat) :
  field_key info e ≠ k →
  (soft info = true →
     field_key info e +:+ " software version" ≠ k ∧
     field_key info e +:+ " software" ≠ k) →
  Extractor.cvParam_match softwareList info e (meta, c) = Ok (meta', c') →
  dict_get k meta' = dict_get k meta ∧ c' = if plus1 info then S c else c.
Proof.
  intros Hk Hsoft H. unfold Extractor.cvParam_match in H.
  fold (field_key info e) in H. set (key := field_key info e) in *.
  apply bind_Ok in H as ([meta1 c1] & Hst & H).
  assert (dict_get k meta' = dict_get k meta1 ∧ c' = c1) as [-> ->].
  { destruct (soft info); [|by injection H as <- <-].
    apply bind_Ok in H as (ref & _ & H). injection H as <- <-.
    destruct (Hsoft eq_refl). simpl. by rewrite software_other_keys. }
  clear H. destruct (plus1 info).
  - apply bind_Ok in Hst as (meta2 & H2 & Hst). injection Hst as <- <-.
    split; [|done].
    destruct (bucket_after_match key c (entry_of e) meta) as (es & E & Hes).
    rewrite E in H2. clear E. destruct (value info).
    + apply bind_Ok in H2 as (v & _ & H2). unfold set_entry_value in H2.
      rewrite dict_get_set_eq in H2. apply bind_Ok in H2 as (a & _ & H2).
      injection H2 as <-. by rewrite !dict_get_set_ne.
    + injection H2 as <-. by rewrite dict_get_set_ne.
  - apply bind_Ok in Hst as (meta2 & H2 & Hst). injection Hst as <- <-.
    split; [|done]. destruct (value info).
    + apply bind_Ok in H2 as (v & _ & H2). injection H2 as <-.
      by rewrite !dict_get_set_ne.
    + injection H2 as <-. by rewrite dict_get_set_ne.
Qed.

(** A match under a rule that allows multiple matches, on an entry list
    whose numbers lie below the counter: the annotation goes to the end
    of the list, under the counter. *)
Lemma match_appends (info : term_info) (e : cvParam) (meta meta' : record) (c c' : nat)
    (es : list (nat * annotation)) :
  plus1 info = true →
  dict_get (field_key info e) meta = Some (EntryList es) ∨
    (es = [] ∧ ∀ es0, dict_get (field_key info e) meta ≠ Some (EntryList es0)) →
  Forall (λ n, n < c) (keys es) →
  Extractor.cvParam_match softwareList info e (meta, c) = Ok (meta', c') →
  c' = S c ∧
  dict_get (field_key info e) meta' = Some (EntryList (es ++ [(c, recorded info e)])).
Proof.
  intros Hplus Hget Hlt H. unfold Extractor.cvParam_match in H.
  fold (field_key info e) in H. set (key := field_key info e) in *.
  rewrite Hplus in H.
  assert (c ∉ keys es) as Hc.
  { intros Hin. apply (proj1 (Forall_forall _ _) Hlt) in Hin. lia. }
  assert (match dict_get key meta with
          | Some (EntryList es0) =>
              dict_set key (EntryList (dict_set c (entry_of e) es0)) meta
          | _ => dict_set key (EntryList [(c, entry_of e)]) meta
          end = dict_set key (EntryList (es ++ [(c, entry_of e)])) meta) as E.
  { destruct Hget as [->|[-> Hnone]].
    - by rewrite (dict_set_fresh c (entry_of e) es Hc).
    - destruct (dict_get key meta) as [[a|es0]|]; try done.
      by destruct (Hnone es0). }
  rewrite E in H. clear E.
  apply bind_Ok in H as ([meta1 c1] & Hst & H).
  assert (dict_get key meta' = dict_get key meta1 ∧ c' = c1) as [-> ->].
  { destruct (soft info); [|by injection H as <- <-].
    apply bind_Ok in H as (ref & _ & H). injection H as <- <-.
    simpl. by rewrite software_keeps. }
  clear H. apply bind_Ok in Hst as (meta2 & H2 & Hst). injection Hst as <- <-.
  split; [done|]. unfold recorded. destruct (value info).
  - apply bind_Ok in H2 as (v & Hv%or_raise_Ok & H2). rewrite Hv.
    unfold set_entry_value in H2. rewrite dict_get_set_eq in H2.
    apply bind_Ok in H2 as (a & Ha%or_raise_Ok & H2). injection H2 as <-.
    rewrite dict_get_set_eq, dict_set_last by done.
    rewrite <- (dict_set_fresh c (entry_of e)) in Ha by done.
    rewrite dict_get_set_eq in Ha. by injection Ha as <-.
  - injection H2 as <-. by rewrite dict_get_set_eq.
Qed.

Lemma entries_of_app (k : string) (c : nat) (ms1 ms2 : list (string * annotation)) :
  entries_of k c (ms1 ++ ms2)
  = entries_of k c ms1 ++ entries_of k (c + length ms1) ms2.
Proof.
  revert c. induction ms1 as [|m ms1 IH]; intros c; simpl.
  - by rewrite Nat.add_0_r.
  - rewrite IH, <- app_assoc. do 3 f_equal. lia.
Qed.

Lemma entries_of_keys (k : string) (c : nat) (ms : list (string * annotation)) :
  Forall (λ n, c ≤ n < c + length ms) (keys (entries_of k c ms)).
Proof.
  revert c. induction ms as [|m ms IH]; intros c; simpl; [constructor|].
  unfold keys. rewrite fmap_app, Forall_app. split.
  - destruct (decide _); repeat constructor; simpl; lia.
  - eapply Forall_impl; [apply IH|]. simpl. lia.
Qed.

Variable k : string.
Variable meta0 : record.
Hypothesis no_entry_list : ∀ es0, dict_get k meta0 ≠ Some (EntryList es0).

(** The field of [k] against the entries recorded so far. *)
Let bucket (meta : record) (es : list (nat * annotation)) : Prop :=
  if decide (es = []) then dict_get k meta = dict_get k meta0
  else dict_get k meta = Some (EntryList es).

(** The counted matches of one element. *)
Let matches_of (e : cvParam) (rules : list (string * term_info))
    : list (string * annotation) :=
  (λ rule, (field_key rule.2 e, recorded rule.2 e)) <$>
  filter (λ rule, attrib_accession e ∈ getDescendents rule.1 ∧ plus1 rule.2 = true)
         rules.

(** The loop over the rules, for one element. *)
Lemma rules_loop (e : cvParam) (rules : list (string * term_info))
    (meta meta' : record) (c c' : nat) (es : list (nat * annotation)) :
  (∀ rule, rule ∈ rules → attrib_accession e ∈ getDescendents rule.1 →
     (plus1 rule.2 = false → field_key rule.2 e ≠ k) ∧
     (soft rule.2 = true →
        field_key rule.2 e +:+ " software version" ≠ k ∧
        field_key rule.2 e +:+ " software" ≠ k)) →
  bucket meta es → Forall (λ n, n < c) (keys es) →
  for_each (λ st rule,
      if bool_decide (attrib_accession e ∈ getDescendents rule.1)
      then Extractor.cvParam_match softwareList rule.2 e st
      else Ok st) (meta, c) rules = Ok (meta', c') →
  bucket meta' (es ++ entries_of k c (matches_of e rules)) ∧
  c' = c + length (matches_of e rules).
Proof.
  unfold matches_of.
  revert meta c es. induction rules as [|rule rules IH]; intros meta c es Hok Hb Hlt H.
  - injection H as <- <-. simpl. by rewrite app_nil_r, Nat.add_0_r.
  - cbn [for_each] in H. apply bind_Ok in H as ([meta1 c1] & H1 & H).
    assert (∀ r, r ∈ rules → attrib_accession e ∈ getDescendents r.1 →
              (plus1 r.2 = false → field_key r.2 e ≠ k) ∧
              (soft r.2 = true →
                 field_key r.2 e +:+ " software version" ≠ k ∧
                 field_key r.2 e +:+ " software" ≠ k)) as Hok'
      by (intros r Hr; apply Hok; by right).
    rewrite filter_cons.
    destruct (decide (attrib_accession e ∈ getDescendents rule.1)) as [Hm|Hm].
    + rewrite bool_decide_eq_true_2 in H1 by done.
      destruct (Hok rule (list_elem_of_here _ _) Hm) as [Hplain Hsoft].
      destruct (plus1 rule.2) eqn:Hplus.
      * rewrite decide_True by done. rewrite fmap_cons. cbn [entries_of length fst snd].
        destruct (decide (field_key rule.2 e = k)) as [Hk|Hk].
        -- apply (match_appends _ _ _ _ _ _ es Hplus) in H1 as [-> Hget]; [| |done].
           ++ apply (IH _ _ (es ++ [(c, recorded rule.2 e)])) in H as [Hb' ->];
                [|done| |].
              ** split; [|lia]. by rewrite <- app_assoc in Hb'.
              ** unfold bucket. rewrite decide_False by (by destruct es).
                 by rewrite <- Hk.
              ** unfold keys. rewrite fmap_app, Forall_app. split.
                 --- eapply Forall_impl; [exact Hlt|]. simpl. lia.
                 --- repeat constructor.
           ++ rewrite Hk. unfold bucket in Hb. destruct (decide (es = [])) as [->|].
              ** right. split; [done|]. intros es0. rewrite Hb. apply no_entry_list.
              ** by left.
        -- apply (match_other_key _ _ k) in H1 as [Hget ->]; [|done|done].
           rewrite Hplus in H. apply (IH _ _ es) in H as [Hb' ->]; [|done| |].
           ++ split; [done|lia].
           ++ unfold bucket in *. destruct (decide (es = [])); by rewrite Hget.
           ++ eapply Forall_impl; [exact Hlt|]. simpl. lia.
      * rewrite decide_False by (intros [_ ?]; congruence).
        apply (match_other_key _ _ k) in H1 as [Hget ->]; [|by apply Hplain|done].
        rewrite Hplus in H. apply (IH _ _ es) in H as [Hb' ->]; [done|done| |done].
        unfold bucket in *. destruct (decide (es = [])); by rewrite Hget.
    + rewrite bool_decide_eq_false_2 in H1 by done. injection H1 as <- <-.
      rewrite decide_False by (by intros [? _]).
      by apply (IH _ _ es) in H.
Qed.

(** The loop over the elements. *)
Lemma elements_loop (elements : list cvParam) (rules : list (string * term_info))
    (meta meta' : record) (c c' : nat) (es : list (nat * annotation)) :
  (∀ e rule, e ∈ elements → rule ∈ rules →
     attrib_accession e ∈ getDescendents rule.1 →
     (plus1 rule.2 = false → field_key rule.2 e ≠ k) ∧
     (soft rule.2 = true →
        field_key rule.2 e +:+ " software version" ≠ k ∧
        field_key rule.2 e +:+ " software" ≠ k)) →
  bucket meta es → Forall (λ n, n < c) (keys es) →
  for_each (λ st e,
      for_each (λ st rule,
          if bool_decide (attrib_accession e ∈ getDescendents rule.1)
          then Extractor.cvParam_match softwareList rule.2 e st
          else Ok st) st rules) (meta, c) elements = Ok (meta', c') →
  bucket meta' (es ++ entries_of k c (counted_matches getDescendents elements rules)).
Proof.
  revert meta c es. induction elements as [|e els IH]; intros meta c es Hok Hb Hlt H.
  - injection H as <- <-. simpl. by rewrite app_nil_r.
  - cbn [for_each] in H. apply bind_Ok in H as ([meta1 c1] & H1 & H).
    apply (rules_loop e rules meta meta1 c c1 es) in H1 as [Hb1 ->]; [|by intros r Hr; apply Hok; [left|]|done|done].
    apply (IH _ _ (es ++ entries_of k c (matches_of e rules))) in H.
    + change (counted_matches getDescendents (e :: els) rules)
        with (matches_of e rules ++ counted_matches getDescendents els rules).
      by rewrite entries_of_app, app_assoc.
    + intros e' r He'. apply Hok. by right.
    + done.
    + unfold keys. rewrite fmap_app, Forall_app. split.
      * eapply Forall_impl; [exact Hlt|]. simpl. lia.
      * eapply Forall_impl; [apply entries_of_keys|]. simpl. lia.
Qed.

(** X18. The sequence numbers of a location come from one counter that
    all its rules share: the matches under rules that allow multiple
    matches are numbered 1, 2, 3, ... in the order of the loops (elements
    outside, rules inside), whatever their keys. The entry list of a key
    holds, in that order and under those numbers, the matches stored
    under the key, provided the field was no entry list before, no
    matching single-match rule uses the key and no software field of a
    matching rule has the key as its name; with no such match the field
    is as before. *)
Theorem entry_list_in_order (elements : list cvParam) (rules : list (string * term_info))
    (meta' : record) :
  (∀ e rule, e ∈ elements → rule ∈ rules →
     attrib_accession e ∈ getDescendents rule.1 →
     (plus1 rule.2 = false → field_key rule.2 e ≠ k) ∧
     (soft rule.2 = true →
        field_key rule.2 e +:+ " software version" ≠ k ∧
        field_key rule.2 e +:+ " software" ≠ k)) →
  Extractor.cvParam_loop softwareList getDescendents elements rules meta0 = Ok meta' →
  let entries := entries_of k 1 (counted_matches getDescendents elements rules) in
  if decide (entries = []) then dict_get k meta' = dict_get k meta0
  else dict_get k meta' = Some (EntryList entries).
Proof.
  intros Hok H. unfold Extractor.cvParam_loop in H.
  apply fmap_Ok in H as ([m c] & H & ->). simpl.
  apply (elements_loop elements rules meta0 m 1 c []) in H; [done|done| |constructor].
  unfold bucket. by rewrite decide_True.
Qed.

End Buckets.

(** The detector rules on a detector attribute, a detector mode, a second
    attribute and a second mode: the modes get the numbers 2 and 4. *)
Lemma entry_list_in_order_witness :
  let attr := Extractor.CvParam Sample.cvParam_tag "MS:1000028" "detector resolution"
                (Some "30000") None in
  let mode (acc nm : string) := Extractor.CvParam Sample.cvParam_tag acc nm None None in
  let getDescendents (acc : string) : list string :=
    if decide (acc = "MS:1000481") then ["MS:1000028"]
    else if decide (acc = "MS:1000027") then ["MS:1000117"; "MS:1000118"]
    else [] in
  let elements :=
    [ attr; mode "MS:1000117" "analog-digital converter"; attr;
      mode "MS:1000118" "pulse counting" ] in
  let rules :=
    [ ("MS:1000481", Extractor.TermInfo true "detector_attribute" true true false);
      ("MS:1000026", Extractor.TermInfo false "Detector" false false false);
      ("MS:1000027", Extractor.TermInfo false "Detector mode" true false false) ] in
  ∃ meta',
    Extractor.cvParam_loop [] getDescendents elements rules [] = Ok meta' ∧
    dict_get "Detector mode" meta'
    = Some (EntryList
        [ (2, Annotation (Some "analog-digital converter") (Some "MS:1000117") None);
          (4, Annotation (Some "pulse counting") (Some "MS:1000118") None) ]).
Proof.
  intros attr mode getDescendents elements rules.
  destruct (Extractor.cvParam_loop [] getDescendents elements rules [])
    as [meta'|e] eqn:H; [|vm_compute in H; discriminate H].
  exists meta'. split; [reflexivity|].
  pose proof (entry_list_in_order [] getDescendents "Detector mode" []
                ltac:(intros es0; discriminate) elements rules meta') as Hmeta.
  cbn zeta in Hmeta. rewrite decide_False in Hmeta by (by vm_compute).
  rewrite Hmeta; [vm_compute; reflexivity| |exact H].
  intros e rule _ Hrule _.
  apply elem_of_cons in Hrule as [->|Hrule];
    [|apply elem_of_cons in Hrule as [->|Hrule];
      [|apply elem_of_cons in Hrule as [->|Hrule]; [|by apply elem_of_nil in Hrule]]].
  - split; intros Hp; discriminate Hp.
  - split; [intros _; discriminate|intros Hs; discriminate Hs].
  - split; intros Hp; discriminate Hp.
Defined.

Section Software.

Import Extractor.

Lemma append_inj (s a b : string) : s +:+ a = s +:+ b → a = b.
Proof. induction s as [|c s IH]; [done|]. intros [= H]. by apply IH. Qed.

Lemma last_app_cases {A} (l1 l2 : list A) :
  last (l1 ++ l2) = match last l2 with Some x => Some x | None => last l1 end.
Proof.
  induction l2 as [|x l2 IH] using rev_ind.
  - by rewrite app_nil_r.
  - by rewrite app_assoc, !last_snoc.
Qed.

Variable softwareList : list software_elem.

(** X19. Software resolution writes the two fields '<name> software
    version' and '<name> software' and no other: every other field is
    kept; and '<name> software' ends up as the last cvParam child of the
    software elements with the referenced id, or is kept when they have
    none (in particular when no element has that id). *)
Theorem software_fields (soft_ref name : string) (meta : record) :
  let meta' := Extractor.software softwareList soft_ref name meta in
  (∀ k, k ≠ name +:+ " software version" → k ≠ name +:+ " software" →
        dict_get k meta' = dict_get k meta) ∧
  dict_get (name +:+ " software") meta'
  = match last (concat (sw_cvParam <$>
                          filter (λ e, sw_id e = soft_ref) softwareList)) with
    | Some ie => Some (Plain (Annotation (Some ie.2) (Some ie.1) None))
    | None => dict_get (name +:+ " software") meta
    end.
Proof.
  intros meta'. subst meta'. unfold Extractor.software. split.
  - intros k Hv Hs.
    apply (foldl_inv (λ m, dict_get k m = dict_get k meta)); [|done].
    intros m e Hm. destruct (decide (sw_id e = soft_ref)); [|done].
    apply (foldl_inv (λ m, dict_get k m = dict_get k meta)).
    + intros m' ie Hm'. by rewrite dict_get_set_ne.
    + destruct (decide (sw_version e = EmptyString)); [done|].
      by rewrite dict_get_set_ne.
  - assert (name +:+ " software" ≠ name +:+ " software version") as Hne
      by (intros H%append_inj; discriminate H).
    assert (∀ (cvs : list (string * string)) m,
      dict_get (name +:+ " software")
        (foldl (λ meta ie, dict_set (name +:+ " software")
                  (Plain (Annotation (Some ie.2) (Some ie.1) None)) meta) m cvs)
      = match last cvs with
        | Some ie => Some (Plain (Annotation (Some ie.2) (Some ie.1) None))
        | None => dict_get (name +:+ " software") m
        end) as Hcvs.
    { intros cvs. induction cvs as [|ie cvs IHc] using rev_ind; intros m; [done|].
      rewrite foldl_snoc, last_snoc. apply dict_get_set_eq. }
    revert meta. induction softwareList as [|e sl IH]; intros meta; [done|].
    cbn [foldl]. rewrite IH. rewrite filter_cons.
    destruct (decide (sw_id e = soft_ref)) as [He|He]; [|done].
    rewrite fmap_cons. cbn [concat]. rewrite last_app_cases.
    destruct (last (concat _)) as [ie|]; [done|].
    rewrite Hcvs. destruct (last (sw_cvParam e)); [done|].
    destruct (decide (sw_version e = EmptyString)); [done|].
    by rewrite dict_get_set_ne.
Qed.

End Software.

Section Renaming.

Import Extractor.

Lemma append_inj_end (a b : string) (x : ascii) :
  a +:+ String x EmptyString = b +:+ String x EmptyString → a = b.
Proof.
  revert b. induction a as [|c a IH]; intros [|d b]; try done.
  - intros [= _ H]. by destruct b.
  - intros [= _ H]. by destruct a.
  - intros [= -> H]. f_equal. by apply IH.
Qed.

Lemma isa_name_inj (a b : string) : isa_name a = isa_name b → a = b.
Proof.
  unfold isa_name.
  destruct (bool_decide (a ∈ keep)) eqn:Ha, (bool_decide (b ∈ keep)) eqn:Hb; try done.
  - apply bool_decide_eq_true_1 in Ha. unfold keep in Ha. intros ->.
    repeat (apply elem_of_cons in Ha as [Ha|Ha]; [discriminate Ha|]).
    by apply elem_of_nil in Ha.
  - apply bool_decide_eq_true_1 in Hb. unfold keep in Hb. intros <-.
    repeat (apply elem_of_cons in Hb as [Hb|Hb]; [discriminate Hb|]).
    by apply elem_of_nil in Hb.
  - intros H%append_inj. by apply append_inj_end in H.
Qed.

Lemma isa_loop (meta acc : record) :
  NoDup (keys acc ++ (isa_name <$> keys meta)) →
  foldl (λ meta_isa f, dict_set (isa_name f.1) f.2 meta_isa) acc meta
  = acc ++ ((λ f, (isa_name f.1, f.2)) <$> meta).
Proof.
  revert acc. induction meta as [|[k v] meta IH]; intros acc Hnd; simpl.
  - by rewrite app_nil_r.
  - simpl in Hnd. rewrite dict_set_fresh.
    + rewrite IH; [by rewrite <- app_assoc|].
      unfold keys in *. rewrite fmap_app, <- app_assoc. done.
    + apply NoDup_app in Hnd as (_ & Hnd & _). intros Hin. apply (Hnd _ Hin). left.
Qed.

(** X20. The ISA-Tab compatible record has the fields of the raw record in
    the same order and with the same values, each under its renamed key;
    so a raw field is found again under the renamed key, and two different
    raw keys never fall together. *)
Theorem isa_tab_compatible_renames (meta : record) :
  NoDup (keys meta) →
  isa_tab_compatible meta = (λ f, (isa_name f.1, f.2)) <$> meta ∧
  (∀ k, dict_get (isa_name k) (isa_tab_compatible meta) = dict_get k meta) ∧
  (∀ a b, isa_name a = isa_name b → a = b).
Proof.
  intros Hnd.
  assert (isa_tab_compatible meta = (λ f, (isa_name f.1, f.2)) <$> meta) as E.
  { unfold isa_tab_compatible. rewrite isa_loop; [done|]. simpl.
    apply NoDup_fmap_2; [|done]. intros a b. apply isa_name_inj. }
  split; [done|]. split; [|apply isa_name_inj].
  intros k. rewrite E. clear. unfold dict_get.
  induction meta as [|[k' v] meta IH]; [done|]. simpl.
  destruct (decide (k' = k)) as [->|Hne].
  - by rewrite !bool_decide_eq_true_2.
  - rewrite !bool_decide_eq_false_2; [done|done|].
    intros H%isa_name_inj. done.
Qed.

End Renaming.

Lemma isa_tab_compatible_renames_witness :
  Extractor.isa_tab_compatible Sample.meta_a
  = [ ("Parameter Value[Instrument]",
         Plain (Annotation (Some "Q Exactive") (Some "MS:1001911") None));
      ("Raw Spectral Data File", value_of "a.raw");
      ("Parameter Value[Scan polarity]", value_of "positive") ].
Proof.
  rewrite (proj1 (isa_tab_compatible_renames Sample.meta_a
                    ltac:(repeat constructor; vm_compute;
                          repeat (intros [H|H]%elem_of_cons; [discriminate H|revert H]);
                          by intros ?%elem_of_nil))).
  reflexivity.
Defined.

Section DerivedRun.

Import Extractor.

Variable float : string → res pyfloat.
Variable str_round4 : pyfloat → string.
Variable int : string → res Z.
Variable basename : string → string.
Variable splitext0 : string → string.

(** Without a lower limit, an upper limit or a start time [derived] does
    not return. *)
Lemma derived_raises (r : run) (meta : record) :
  filter (λ i, attrib_accession i = "MS:1000501") (scan_window_cv r) = [] ∨
  filter (λ i, attrib_accession i = "MS:1000500") (scan_window_cv r) = [] ∨
  filter (λ i, attrib_accession i = "MS:1000016") (scan_cv r) = [] →
  ∃ e, derived float str_round4 int basename splitext0 r meta = Raise e.
Proof.
  intros H. unfold derived, derived_mzrange.
  destruct (scan_window_limits float (scan_window_cv r)) as [[lo hi]|e] eqn:Hl;
    simpl; [|by eauto].
  apply scan_window_limits_spec in Hl as [H1 H2].
  destruct lo as [|x lo]; [by eauto|]. simpl.
  destruct (py_int _) as [minmz|e]; simpl; [|by eauto].
  destruct hi as [|y hi]; [by eauto|]. simpl.
  destruct (py_int _) as [maxmz|e]; simpl; [|by eauto].
  destruct H as [H|[H|H]].
  - rewrite H in H1. inversion H1.
  - rewrite H in H2. inversion H2.
  - rewrite H. simpl. by eauto.
Qed.

Lemma finite_limits (acc : string) (cv : list cvParam) :
  Forall (λ i, attrib_accession i = acc →
               ∃ x q, attrib_float float i = Ok x ∧ finite_value x = Some q) cv →
  ∃ qs, Forall2 (λ i q, ∃ x, attrib_float float i = Ok x ∧ finite_value x = Some q)
          (filter (λ i, attrib_accession i = acc) cv) qs.
Proof.
  induction 1 as [|i cv Hi _ [qs IH]]; [by exists []|].
  rewrite filter_cons. destruct (decide (attrib_accession i = acc)) as [E|E]; [|by exists qs].
  destruct (Hi E) as (x & q & Hx & Hq). exists (q :: qs). constructor; [by exists x|done].
Qed.

(** X21. A run without a scan-window lower limit (MS:1000501), without a
    scan-window upper limit (MS:1000500) or without a scan start time
    (MS:1000016) makes [derived] raise an exception; when the values of
    all scan-window limits are finite numbers, the exception is
    ValueError. *)
Theorem derived_needs_limits_and_times (r : run) (meta : record) :
  filter (λ i, attrib_accession i = "MS:1000501") (scan_window_cv r) = [] ∨
  filter (λ i, attrib_accession i = "MS:1000500") (scan_window_cv r) = [] ∨
  filter (λ i, attrib_accession i = "MS:1000016") (scan_cv r) = [] →
  (∃ e, derived float str_round4 int basename splitext0 r meta = Raise e) ∧
  (Forall (λ i, attrib_accession i = "MS:1000501" ∨ attrib_accession i = "MS:1000500" →
                ∃ x q, attrib_float float i = Ok x ∧ finite_value x = Some q)
          (scan_window_cv r) →
   derived float str_round4 int basename splitext0 r meta = Raise ValueError).
Proof.
  intros H. split; [by apply derived_raises|]. intros Hfin.
  destruct (finite_limits "MS:1000501" (scan_window_cv r)) as [lows Hlows].
  { eapply Forall_impl; [exact Hfin|]. simpl. intros i Hi E. apply Hi. by left. }
  destruct (finite_limits "MS:1000500" (scan_window_cv r)) as [highs Hhighs].
  { eapply Forall_impl; [exact Hfin|]. simpl. intros i Hi E. apply Hi. by right. }
  destruct (finite_floats float _ _ Hlows) as (lo & Hlo1 & Hlo2).
  destruct (finite_floats float _ _ Hhighs) as (hi & Hhi1 & Hhi2).
  unfold derived, derived_mzrange.
  rewrite (proj2 (scan_window_limits_spec float _ lo hi) (conj Hlo1 Hhi1)). simpl.
  destruct lows as [|q lows].
  { apply Forall2_nil_inv_r in Hlo2 as ->. done. }
  destruct (py_min_spec lo (q :: lows) Hlo2 ltac:(done)) as (x & m & -> & Hm & _).
  simpl. rewrite (py_int_finite x m Hm). simpl.
  destruct highs as [|q' highs].
  { apply Forall2_nil_inv_r in Hhi2 as ->. done. }
  destruct (py_max_spec hi (q' :: highs) Hhi2 ltac:(done)) as (y & M & -> & HM & _).
  simpl. rewrite (py_int_finite y M HM). simpl.
  destruct H as [H|[H|H]].
  - rewrite H in Hlows. inversion Hlows.
  - rewrite H in Hhighs. inversion Hhighs.
  - rewrite H. done.
Qed.

(** X22. When [derived] returns and the first CV id does not contain 'MS',
    the record is unchanged. Otherwise the record names the term source
    'MS', the first source file as raw data file, that name without
    directory and extension as assay name and the name of the mzML file
    as derived data file, and apart from the eight derived fields every
    field is as before. *)
Theorem derived_fields (r : run) (meta meta' : record) :
  derived float str_round4 int basename splitext0 r meta = Ok meta' →
  ∃ cv, cv_id r !! 0 = Some cv ∧
    if Py.contains "MS" cv then
      ∃ raw_file, sourceFile_name r !! 0 = Some raw_file ∧
        dict_get "term_source" meta' = Some (value_of "MS") ∧
        dict_get "Raw Spectral Data File" meta' = Some (value_of raw_file) ∧
        dict_get "MS Assay Name" meta'
          = Some (value_of (splitext0 (basename raw_file))) ∧
        dict_get "Derived Spectral Data File" meta'
          = Some (value_of (basename (in_file r))) ∧
        ∀ k, k ∉ [ "term_source"; "Raw Spectral Data File"; "MS Assay Name";
                   "Number of scans"; "Scan m/z range"; "Scan polarity";
                   "Time range"; "Derived Spectral Data File" ] →
             dict_get k meta' = dict_get k meta
    else meta' = meta.
Proof.
  unfold derived. intros H.
  apply bind_Ok in H as (mzrange & _ & H). apply bind_Ok in H as (time & _ & H).
  apply bind_Ok in H as (minrt & _ & H).
  apply bind_Ok in H as (maxrt & _ & H). apply bind_Ok in H as (scan_num & _ & H).
  apply bind_Ok in H as (cv & Hcv & H). apply or_raise_Ok in Hcv.
  exists cv. split; [done|].
  destruct (Py.contains "MS" cv); simpl in H; [|by injection H as <-].
  apply bind_Ok in H as (raw_file & Hraw & H). apply or_raise_Ok in Hraw.
  apply bind_Ok in H as (n & _ & H). injection H as <-.
  exists raw_file. split; [done|]. repeat split.
  - rewrite !(dict_get_set_ne _ "term_source") by discriminate. apply dict_get_set_eq.
  - rewrite !(dict_get_set_ne _ "Raw Spectral Data File") by discriminate.
    apply dict_get_set_eq.
  - rewrite !(dict_get_set_ne _ "MS Assay Name") by discriminate. apply dict_get_set_eq.
  - apply dict_get_set_eq.
  - intros k Hk. rewrite !not_elem_of_cons in Hk.
    destruct Hk as (?&?&?&?&?&?&?&?&_).
    by rewrite !dict_get_set_ne.
Qed.

End DerivedRun.

(** A run with scan start times and no scan window. *)
Lemma derived_needs_limits_and_times_witness :
  let r := {| Extractor.sp_cv := []; Extractor.scan_window_cv := [];
              Extractor.scan_cv := Extractor.scan_cv Sample.run_a;
              Extractor.spectrumList_count := ["1"]; Extractor.cv_id := ["MS"];
              Extractor.sourceFile_name := ["a.raw"]; Extractor.in_file := "a.mzML" |} in
  Extractor.derived Sample.float (λ _, "0.0") (λ _, Ok 1%Z) (λ p, p) (λ p, p) r []
  = Raise ValueError.
Proof.
  intros r.
  apply (derived_needs_limits_and_times Sample.float (λ _, "0.0") (λ _, Ok 1%Z)
           (λ p, p) (λ p, p) r []).
  - left. reflexivity.
  - constructor.
Defined.

(** The sample run: the instrument field of the record is kept. *)
Lemma derived_fields_witness :
  ∃ meta',
    Extractor.derived Sample.float (λ _, "0.0") (λ _, Ok 2%Z) (λ p, p) (λ p, p)
      Sample.run_a Sample.meta_a = Ok meta' ∧
    dict_get "term_source" meta' = Some (value_of "MS") ∧
    dict_get "Instrument" meta' = dict_get "Instrument" Sample.meta_a.
Proof.
  destruct (Extractor.derived Sample.float (λ _, "0.0") (λ _, Ok 2%Z) (λ p, p) (λ p, p)
              Sample.run_a Sample.meta_a) as [meta'|e] eqn:H;
    [|vm_compute in H; discriminate H].
  exists meta'. split; [reflexivity|].
  destruct (derived_fields _ _ _ _ _ _ _ _ H) as (cv & Hcv & Hf).
  injection Hcv as <-.
  destruct Hf as (raw & _ & Hts & _ & _ & _ & Hk). split; [exact Hts|].
  apply Hk. vm_compute.
  repeat (intros [E|E']%elem_of_cons; [discriminate E|revert E']).
  by intros ?%elem_of_nil.
Defined.

Section Manufacturer.

Import Extractor.

Variable getDescendents : string → list string.
Variable terms_p : string → res (list string).
Variable terms_c : string → res (list string).
Variable translator : string → res string.

(** What the upward walk of at most [n] rounds returns: the first term on
    the chain of first parents that is a direct child, or [None] when the
    first [n] terms of the chain are not. *)
Lemma manufacturer_walk_spec (n : nat) (direct_c parent : list string) (found : option string) :
  manufacturer_walk terms_p n direct_c parent = Ok found →
  match found with
  | Some p =>
      ∃ k, k < n ∧ nth_first_parent terms_p k parent = Ok p ∧ p ∈ direct_c ∧
           ∀ j, j < k → ∃ q, nth_first_parent terms_p j parent = Ok q ∧ q ∉ direct_c
  | None =>
      ∀ j, j < n → ∃ q, nth_first_parent terms_p j parent = Ok q ∧ q ∉ direct_c
  end.
Proof.
  revert parent. induction n as [|n IH]; intros parent; simpl.
  - intros [= <-]. intros j Hj. lia.
  - intros H. apply bind_Ok in H as (p0 & Hp0 & H).
    destruct (bool_decide (p0 ∈ direct_c)) eqn:Hin.
    + injection H as <-. apply bool_decide_eq_true_1 in Hin.
      exists 0. repeat split; [lia|done|done|]. intros j Hj. lia.
    + apply bool_decide_eq_false_1 in Hin.
      apply bind_Ok in H as (parent' & Hp' & H). apply IH in H.
      destruct found as [p|].
      * destruct H as (k & Hk & Hnth & Hp & Hbelow). exists (S k).
        repeat split; [lia| |done|].
        -- simpl. by rewrite Hp0; simpl; rewrite Hp'.
        -- intros [|j] Hj; [by exists p0|].
           destruct (Hbelow j ltac:(lia)) as (q & Hq & Hnq). exists q.
           split; [|done]. simpl. by rewrite Hp0; simpl; rewrite Hp'.
      * intros [|j] Hj; [by exists p0|].
        destruct (H j ltac:(lia)) as (q & Hq & Hnq). exists q.
        split; [|done]. simpl. by rewrite Hp0; simpl; rewrite Hp'.
Qed.

(** X23. For a cvParam of the instrument group whose accession descends
    from the instrument model term MS:1000031, the record gets the
    'Instrument' field of that cvParam, and as 'Instrument manufacturer'
    the nearest term on its chain of first parents that is a direct child
    of MS:1000031, with its translated name, when there is one among the
    first ten; otherwise no manufacturer is written. *)
Theorem instrument_manufacturer_nearest (meta meta' : record) (ie : cvParam) :
  attrib_accession ie ∈ getDescendents "MS:1000031" →
  instrument_cvParam getDescendents terms_p terms_c translator meta ie = Ok meta' →
  let meta1 := dict_set "Instrument" (Plain (entry_of ie)) meta in
  ∃ direct_c parent,
    terms_c "MS:1000031" = Ok direct_c ∧
    terms_p (attrib_accession ie) = Ok parent ∧
    ((∃ k p n,
        k < 10 ∧ nth_first_parent terms_p k parent = Ok p ∧ p ∈ direct_c ∧
        (∀ j, j < k → ∃ q, nth_first_parent terms_p j parent = Ok q ∧ q ∉ direct_c) ∧
        translator p = Ok n ∧
        meta' = dict_set "Instrument manufacturer"
                  (Plain (Annotation (Some n) (Some p) None)) meta1)
     ∨ ((∀ j, j < 10 → ∃ q, nth_first_parent terms_p j parent = Ok q ∧ q ∉ direct_c) ∧
        meta' = meta1)).
Proof.
  intros Hdesc H meta1. unfold instrument_cvParam in H.
  rewrite bool_decide_eq_true_2 in H by done.
  apply bind_Ok in H as (direct_c & Hc & H). apply bind_Ok in H as (parent & Hp & H).
  apply bind_Ok in H as (found & Hwalk & H).
  exists direct_c, parent. split; [done|]. split; [done|].
  apply manufacturer_walk_spec in Hwalk. destruct found as [p|].
  - apply bind_Ok in H as (n & Hn & H). injection H as <-.
    destruct Hwalk as (k & Hk & Hnth & Hin & Hbelow). left. by exists k, p, n.
  - injection H as <-. by right.
Qed.

End Manufacturer.

(** A Q Exactive: two steps up the chain is the Thermo Fisher Scientific
    instrument model, a direct child of the instrument model term. *)
Lemma instrument_manufacturer_nearest_witness :
  let ie := Extractor.CvParam Sample.cvParam_tag "MS:1001911" "Q Exactive" None None in
  Extractor.instrument_cvParam Sample.obo_descendents Sample.obo_parents
    Sample.obo_children Sample.obo_name [] ie
  = Ok [ ("Instrument", Plain (Annotation (Some "Q Exactive") (Some "MS:1001911") None));
         ("Instrument manufacturer",
            Plain (Annotation (Some "Thermo Fisher Scientific instrument model")
                     (Some "MS:1000483") None)) ].
Proof.
  intros ie.
  destruct (Extractor.instrument_cvParam Sample.obo_descendents Sample.obo_parents
              Sample.obo_children Sample.obo_name [] ie) as [meta'|e] eqn:H;
    [|vm_compute in H; discriminate H].
  destruct (instrument_manufacturer_nearest Sample.obo_descendents Sample.obo_parents
              Sample.obo_children Sample.obo_name [] meta' ie
              ltac:(vm_compute; do 3 right; left) H)
    as (direct_c & parent & Hc & Hp & [(k & p & n & Hk & Hnth & Hin & Hbelow & Hn & ->)|[Hno _]]).
  - injection Hc as <-. injection Hp as <-.
    destruct k as [|[|k]].
    + injection Hnth as <-. exfalso. revert Hin. vm_compute.
      repeat (intros [E|E']%elem_of_cons; [discriminate E|revert E']).
      by intros ?%elem_of_nil.
    + injection Hnth as <-. injection Hn as <-. reflexivity.
    + destruct (Hbelow 1 ltac:(lia)) as (q & Hq & Hnq). injection Hq as <-.
      exfalso. apply Hnq. vm_compute. right. left.
  - injection Hc as <-. injection Hp as <-.
    destruct (Hno 1 ltac:(lia)) as (q & Hq & Hnq). injection Hq as <-.
    exfalso. apply Hnq. vm_compute. right. left.
Defined.

Section LegacyRun.

Import Legacy.

Lemma index_lookup {A} `{EqDecision A} (x : A) (l : list A) (i : nat) :
  Py.index x l = Some i → l !! i = Some x ∧ ∀ j, j < i → l !! j ≠ Some x.
Proof.
  revert i. induction l as [|y l IH]; intros i; simpl; [discriminate|].
  destruct (decide (y = x)) as [->|Hne].
  - intros [= <-]. split; [done|]. intros j Hj. lia.
  - destruct (Py.index x l) as [i'|]; [|discriminate]. intros [= <-].
    destruct (IH i' eq_refl) as [Hi Hbelow]. split; [done|].
    intros [|j] Hj; simpl; [congruence|]. apply Hbelow. lia.
Qed.

(** An index found in the part of the header after the protocol column,
    shifted by [adj], is the first position of the header from [adj] on
    that holds the name. *)
Lemma shifted_index (h : string) (headers_l : list string) (adj i : nat) :
  (λ i, i + adj) <$> Py.index h (Py.slice_from adj headers_l) = Some i →
  adj ≤ i ∧ headers_l !! i = Some h ∧ ∀ j, adj ≤ j < i → headers_l !! j ≠ Some h.
Proof.
  destruct (Py.index h _) as [i'|] eqn:Hi; [|discriminate]. intros [= <-].
  apply index_lookup in Hi as [Hi Hbelow]. unfold Py.slice_from in *.
  rewrite lookup_drop in Hi. split; [lia|]. split.
  - by rewrite Nat.add_comm.
  - intros j Hj. specialize (Hbelow (j - adj) ltac:(lia)).
    rewrite lookup_drop in Hbelow. by replace (adj + (j - adj)) with j in Hbelow by lia.
Qed.

(** X24. When all six lookups of the legacy updater succeed, each index
    is a column of the header after the protocol column that holds the
    looked-up name, the first such column. *)
Theorem legacy_locate_columns (headers_l : list string) (adj : nat) (cols : columns) :
  locate (Py.slice_from adj headers_l) adj = (cols, None) →
  let first_at (h : string) (var : option nat) :=
    ∃ i, var = Some i ∧ adj ≤ i ∧ headers_l !! i = Some h ∧
         ∀ j, adj ≤ j < i → headers_l !! j ≠ Some h in
  first_at "Parameter Value[Scan polarity]" (polarity_idx cols) ∧
  first_at "Parameter Value[Scan m/z range]" (mzrange_idx cols) ∧
  first_at "Parameter Value[Instrument]" (instrument_idx cols) ∧
  first_at "Parameter Value[Ion source]" (ionsource_idx cols) ∧
  first_at "Parameter Value[Mass analyzer]" (detector_idx cols) ∧
  first_at "Raw Spectral Data File" (raw_data_idx cols).
Proof.
  intros H first_at. unfold locate in H.
  destruct (_ <$> Py.index "Parameter Value[Scan polarity]" _) as [p|] eqn:Hp;
    [|discriminate].
  destruct (_ <$> Py.index "Parameter Value[Scan m/z range]" _) as [m|] eqn:Hm;
    [|discriminate].
  destruct (_ <$> Py.index "Parameter Value[Instrument]" _) as [i|] eqn:Hi;
    [|discriminate].
  destruct (_ <$> Py.index "Parameter Value[Ion source]" _) as [s|] eqn:Hs;
    [|discriminate].
  destruct (_ <$> Py.index "Parameter Value[Mass analyzer]" _) as [d|] eqn:Hd;
    [|discriminate].
  destruct (_ <$> Py.index "Raw Spectral Data File" _) as [r|] eqn:Hr;
    [|discriminate].
  injection H as <-. subst first_at. simpl.
  apply shifted_index in Hp, Hm, Hi, Hs, Hd, Hr.
  repeat split; eexists; (split; [reflexivity|]); tauto.
Qed.

(** A lookup that fails leaves the index of the raw data file unbound. *)
Lemma locate_report (head_short : list string) (adj : nat) (cols : columns) (h : string) :
  locate head_short adj = (cols, Some h) → raw_data_idx cols = None.
Proof.
  unfold locate. intros H.
  repeat match type of H with
  | context [match ?o with Some _ => _ | None => _ end] => destruct o
  end; first [discriminate H | by injection H as <- _].
Qed.

Lemma assign_unbound (off : nat) (k : string) (a : annotation → option string)
    (file : record) (row : list string) :
  ∃ e, assign None off k a file row = Raise e.
Proof. unfold assign. destruct (item k a file); simpl; eauto. Qed.

Lemma update_row_unbound (cols : columns) (file : record) (row : list string) :
  raw_data_idx cols = None → ∃ e, update_row cols file row = Raise e.
Proof.
  intros Hr. unfold update_row. rewrite Hr.
  repeat match goal with
  | |- ∃ e, assign ?v ?o ?k ?a ?f ?r ≫= _ = Raise e =>
      destruct (assign v o k a f r); simpl; [|eauto]
  end.
  apply assign_unbound.
Qed.

(** X25. When one of the six header lookups of the legacy updater fails,
    a run over at least one record writes the header row and nothing
    else, and ends with an exception. *)
Theorem legacy_missing_column_writes_no_row (line0 line1 : string)
    (file : record) (rest : list record) :
  printed (isa_assay_file line0 line1 (file :: rest)) ≠ None →
  written (isa_assay_file line0 line1 (file :: rest))
    = [Py.split Py.TAB (Py.remove_char Py.QUOTE line0)] ∧
  raised (isa_assay_file line0 line1 (file :: rest)) ≠ None.
Proof.
  unfold isa_assay_file.
  destruct (Py.index "Mass spectrometry" _) as [mp|]; [|done].
  destruct (locate _ _) as [cols [h|]] eqn:Hloc.
  - intros _. apply locate_report in Hloc.
    cbn [update_rows].
    destruct (update_row_unbound cols file
                (Py.split Py.TAB (Py.remove_char Py.QUOTE line1)) Hloc) as [e ->].
    by simpl.
  - destruct (update_rows _ _ _ _). by simpl.
Qed.

Lemma assign_length var off k a file (row row' : list string) :
  assign var off k a file row = Ok row' → length row' = length row.
Proof.
  unfold assign. intros H. apply bind_Ok in H as (v & _ & H).
  apply bind_Ok in H as (i & _ & H). by apply setitem_length in H.
Qed.

Lemma legacy_update_row_length cols file (row row' : list string) :
  update_row cols file row = Ok row' → length row' = length row.
Proof.
  unfold update_row. intros H.
  repeat (apply bind_Ok in H as (? & ?%assign_length & H)).
  apply assign_length in H. congruence.
Qed.

Lemma update_rows_shape cols metalist (row : list string) out rows e :
  update_rows cols metalist row out = (rows, e) →
  ∃ new, rows = out ++ new ∧
         Forall (λ r, length r = length row) new ∧
         (e = None → length new = length metalist) ∧
         (e ≠ None → length new < length metalist).
Proof.
  revert row out. induction metalist as [|file rest IH]; intros row out; simpl.
  - intros [= <- <-]. exists []. rewrite app_nil_r. repeat split; try done.
  - destruct (update_row cols file row) as [row'|e'] eqn:Hrow.
    + intros H. apply IH in H as (new & -> & Hall & Hn & Hs).
      apply legacy_update_row_length in Hrow.
      exists (row' :: new). rewrite <- app_assoc. repeat split.
      * constructor; [done|]. eapply Forall_impl; [exact Hall|]. simpl. congruence.
      * intros He. simpl. by rewrite Hn.
      * intros He. simpl. specialize (Hs He). lia.
    + intros [= <- <-]. exists []. rewrite app_nil_r. repeat split; try done.
      simpl. lia.
Qed.

(** X26. When the standard row has no 'Mass spectrometry' cell the legacy
    updater writes nothing and ends with ValueError. Otherwise it writes
    the header row first, whether or not an exception ends the run; every
    row after it has as many cells as the standard row; a run that ends
    without an exception has written one row per record, and a run that
    an exception ends has written fewer rows than there are records. *)
Theorem legacy_rows_shape (line0 line1 : string) (metalist : list record) :
  let o := isa_assay_file line0 line1 metalist in
  let headers_l := Py.split Py.TAB (Py.remove_char Py.QUOTE line0) in
  let standard_row := Py.split Py.TAB (Py.remove_char Py.QUOTE line1) in
  match Py.index "Mass spectrometry" standard_row with
  | None => written o = [] ∧ raised o = Some ValueError
  | Some _ =>
      ∃ rows, written o = headers_l :: rows ∧
              Forall (λ r, length r = length standard_row) rows ∧
              (raised o = None → length rows = length metalist) ∧
              (raised o ≠ None → length rows < length metalist)
  end.
Proof.
  intros o headers_l standard_row. subst o headers_l standard_row.
  unfold isa_assay_file.
  destruct (Py.index "Mass spectrometry" _) as [mp|]; [|done].
  destruct (locate _ _) as [cols report].
  destruct (update_rows _ _ _ _) as [rows e] eqn:Hrows.
  apply update_rows_shape in Hrows as (new & -> & Hall & Hn & Hs). simpl.
  by exists new.
Qed.

End LegacyRun.

(** The header row with all six columns: the raw data file is column 13. *)
Lemma legacy_locate_columns_witness :
  ∃ cols, Legacy.locate (Py.slice_from 2 Sample.legacy_full_header) 2 = (cols, None) ∧
          Legacy.raw_data_idx cols = Some 13 ∧
          Sample.legacy_full_header !! 13 = Some "Raw Spectral Data File".
Proof.
  destruct (Legacy.locate (Py.slice_from 2 Sample.legacy_full_header) 2)
    as [cols report] eqn:H.
  assert (report = None) as -> by (vm_compute in H; by injection H as _ <-).
  exists cols. split; [reflexivity|].
  destruct (legacy_locate_columns Sample.legacy_full_header 2 cols H)
    as (_ & _ & _ & _ & _ & (i & Hi & _ & Hget & _)).
  assert (Legacy.raw_data_idx cols = Some 13) as E
    by (vm_compute in H; by injection H as <-).
  rewrite E in Hi. injection Hi as <-. split; [exact E|exact Hget].
Defined.

(** The sample assay file, whose header has no ion-source column. *)
Lemma legacy_missing_column_writes_no_row_witness :
  Legacy.written (Legacy.isa_assay_file Sample.legacy_header Sample.legacy_row
                    [Sample.legacy_meta; Sample.legacy_meta])
  = [Py.split Py.TAB (Py.remove_char Py.QUOTE Sample.legacy_header)].
Proof.
  apply (legacy_missing_column_writes_no_row Sample.legacy_header Sample.legacy_row
           Sample.legacy_meta [Sample.legacy_meta]).
  vm_compute. discriminate.
Defined.
